(** * nof1: the AI instruction decoder and the trading-cycle orchestrator

    A shallow embedding of [AIInstructionParser] (ai-instruction-parser.ts)
    and of [AITradingService] (ai-trading-service.ts), and the properties
    the specification states about them.

    Conventions of the embedding.
    - A JavaScript string is a [string]; its characters are read as ASCII
      code units.  Case mapping and the [\s] class are the ASCII ones.
    - A JavaScript number is a rational [Q]: the decoder only produces
      numbers by reading decimal digits, and the comparisons made on them
      are against small integer bounds.  Rounding to binary64 is not part
      of the model.
    - A property that is absent and a property holding [undefined] are both
      [None].
    - Logging ([logger.info] and the like) has no effect in the model.
    - What is thrown is an [Error], of which the model keeps the message;
      a [catch] clause that reads [error.message] gets that message.  The
      built-in operations and the methods of the decoder throw nothing
      else.  A collaborator that rejects with a value that is not an
      [Error] is met only in the [catch] clause of the cycle, which is
      defined on every value it may receive. *)

From Stdlib Require Import String Ascii List ZArith QArith Bool Arith Lia.
From Stdlib Require DecimalString.
Import ListNotations.
Close Scope Q_scope.
Open Scope string_scope.

(* ===================================================================== *)
(** * JavaScript string primitives used by the decoder *)
(* ===================================================================== *)

Module Js.

Definition LF : ascii := ascii_of_nat 10.

Definition code (c : ascii) : nat := nat_of_ascii c.

(** The class [\s] and the characters removed by [trim], on ASCII:
    TAB, LF, VT, FF, CR and space. *)
Definition isWhite (c : ascii) : bool :=
  ((9 <=? code c) && (code c <=? 13) || (code c =? 32))%nat.

(** The class [\d]. *)
Definition isDigit (c : ascii) : bool := ((48 <=? code c) && (code c <=? 57))%nat.

(** The class [[A-Z]]. *)
Definition isUpper (c : ascii) : bool := ((65 <=? code c) && (code c <=? 90))%nat.

Definition isLower (c : ascii) : bool := ((97 <=? code c) && (code c <=? 122))%nat.

Definition upcase (c : ascii) : ascii :=
  if isLower c then ascii_of_nat (code c - 32) else c.

Definition downcase (c : ascii) : ascii :=
  if isUpper c then ascii_of_nat (code c + 32) else c.

Fixpoint smap (f : ascii -> ascii) (s : string) : string :=
  match s with
  | EmptyString => EmptyString
  | String c r => String (f c) (smap f r)
  end.

Definition toUpperCase : string -> string := smap upcase.
Definition toLowerCase : string -> string := smap downcase.

(** [s.startsWith(p)], and the same under the [i] flag of a regular
    expression, which compares the upper-cased characters. *)
Definition startsWith (p s : string) : bool := prefix p s.

Fixpoint startsWithCI (p s : string) : bool :=
  match p, s with
  | EmptyString, _ => true
  | String a p', String b s' => Ascii.eqb (upcase a) (upcase b) && startsWithCI p' s'
  | String _ _, EmptyString => false
  end.

(** [s.includes(needle)]. *)
Fixpoint includes (needle s : string) : bool :=
  startsWith needle s ||
  match s with
  | EmptyString => false
  | String _ r => includes needle r
  end.

Fixpoint drop (n : nat) (s : string) : string :=
  match n, s with
  | O, _ => s
  | S k, String _ r => drop k r
  | S _, EmptyString => EmptyString
  end.

Fixpoint take (n : nat) (s : string) : string :=
  match n, s with
  | S k, String c r => String c (take k r)
  | _, _ => EmptyString
  end.

Fixpoint takeWhile (p : ascii -> bool) (s : string) : string :=
  match s with
  | String c r => if p c then String c (takeWhile p r) else EmptyString
  | EmptyString => EmptyString
  end.

Fixpoint dropWhile (p : ascii -> bool) (s : string) : string :=
  match s with
  | String c r => if p c then dropWhile p r else s
  | EmptyString => EmptyString
  end.

Fixpoint countWhile (p : ascii -> bool) (s : string) : nat :=
  match s with
  | String c r => if p c then S (countWhile p r) else 0
  | EmptyString => 0
  end.

Fixpoint sfilter (p : ascii -> bool) (s : string) : string :=
  match s with
  | String c r => if p c then String c (sfilter p r) else sfilter p r
  | EmptyString => EmptyString
  end.

Definition isEmpty (s : string) : bool :=
  match s with EmptyString => true | _ => false end.

Definition trimStart (s : string) : string := dropWhile isWhite s.

Fixpoint trimEnd (s : string) : string :=
  match s with
  | EmptyString => EmptyString
  | String c r =>
      let r' := trimEnd r in
      if isWhite c && isEmpty r' then EmptyString else String c r'
  end.

(** [s.trim()]. *)
Definition trim (s : string) : string := trimEnd (trimStart s).

(** [s.split(sep)] for a one-character separator; the result is never
    empty ([''.split(sep)] is [['']]). *)
Fixpoint split (sep : ascii) (s : string) : list string :=
  match s with
  | EmptyString => [EmptyString]
  | String c r =>
      if Ascii.eqb c sep then EmptyString :: split sep r
      else match split sep r with
           | h :: t => String c h :: t
           | [] => [String c EmptyString]
           end
  end.

(** [parts.join(sep)]. *)
Definition join (sep : string) (parts : list string) : string := String.concat sep parts.

(** ** Global regular-expression operations

    A pattern is given by its anchored matcher: [m s] is the length of the
    match the pattern has at the start of [s], if it has one.  None of the
    patterns of the decoder matches the empty string. *)
Definition matcher := string -> option nat.

(** [s.replace(/pattern/g, '')]: scan from the left; where the pattern
    matches, leave the match out and go on after it; elsewhere keep the
    character and go on with the next one.  [skip] counts the characters of
    the current match that are still to be left out. *)
Fixpoint removeAllFrom (m : matcher) (skip : nat) (s : string) : string :=
  match s with
  | EmptyString => EmptyString
  | String c r =>
      match skip with
      | S k => removeAllFrom m k r
      | O =>
          match m s with
          | Some (S n) => removeAllFrom m n r
          | _ => String c (removeAllFrom m O r)
          end
      end
  end.

Definition removeAll (m : matcher) (s : string) : string := removeAllFrom m 0 s.

(** [s.match(/pattern/g)]: the matched substrings from left to right, each
    search starting where the last match ended; [[]] stands for [null]. *)
Fixpoint matchAllFrom (m : matcher) (skip : nat) (s : string) : list string :=
  match s with
  | EmptyString => []
  | String c r =>
      match skip with
      | S k => matchAllFrom m k r
      | O =>
          match m s with
          | Some (S n) => take (S n) s :: matchAllFrom m n r
          | _ => matchAllFrom m O r
          end
      end
  end.

Definition matchAll (m : matcher) (s : string) : list string := matchAllFrom m 0 s.

(** [[\s\S]*?] followed by a lookahead that holds at the end of the input:
    the number of characters up to the first position where [stop] holds. *)
Fixpoint lazyUntil (stop : string -> bool) (s : string) : nat :=
  if stop s then 0
  else match s with
       | EmptyString => 0
       | String _ r => S (lazyUntil stop r)
       end.

(** The first position at which [f] yields a result. *)
Fixpoint findFirst {A : Type} (f : string -> option A) (s : string) : option A :=
  match f s with
  | Some a => Some a
  | None =>
      match s with
      | EmptyString => None
      | String _ r => findFirst f r
      end
  end.

(** ** Numbers *)

Fixpoint digitsValue (acc : Z) (s : string) : Z :=
  match s with
  | EmptyString => acc
  | String c r => digitsValue (10 * acc + Z.of_nat (code c - 48))%Z r
  end.

(** The value of the decimal numeral [intPart.fracPart]. *)
Definition decimal (intPart fracPart : string) : Q :=
  Qmake (digitsValue 0 (intPart ++ fracPart))
        (Z.to_pos (10 ^ Z.of_nat (String.length fracPart))%Z).

(** [parseFloat(s)] on a string over the alphabet [[0-9.-]]: an optional
    sign, digits, an optional point and digits, read as far as they go;
    [None] is [NaN] (no digit at all). *)
Definition parseFloat (s : string) : option Q :=
  let '(neg, r) :=
    match s with
    | String "-" r' => (true, r')
    | _ => (false, s)
    end in
  let intPart := takeWhile isDigit r in
  let fracPart :=
    match dropWhile isDigit r with
    | String "." r2 => takeWhile isDigit r2
    | _ => EmptyString
    end in
  if isEmpty intPart && isEmpty fracPart then None
  else let v := decimal intPart fracPart in
       Some (if neg then Qopp v else v).

(** Truthiness of a number, of a string and of an object reference. *)
Definition truthyNum (n : option Q) : bool :=
  match n with Some q => negb (Qeq_bool q 0%Q) | None => false end.

Definition truthyStr (s : option string) : bool :=
  match s with Some t => negb (isEmpty t) | None => false end.

Definition truthy {A : Type} (a : option A) : bool :=
  match a with Some _ => true | None => false end.

(** [a < b] and [a > b] where [a] may be [undefined]: a comparison with
    [undefined] is false. *)
Definition lt (a : option Q) (b : Q) : bool :=
  match a with Some x => negb (Qle_bool b x) | None => false end.

Definition gt (a : option Q) (b : Q) : bool :=
  match a with Some x => negb (Qle_bool x b) | None => false end.

End Js.

(* ===================================================================== *)
(** * The instruction decoder: [AIInstructionParser] *)
(* ===================================================================== *)

Module Parser.
Import Js.

Inductive Action : Type :=
  BUY | SELL | CLOSE | HOLD | SET_STOP_LOSS | SET_TAKE_PROFIT.

Inductive Priority : Type := HIGH | MEDIUM | LOW.

Definition Action_eqb (a b : Action) : bool :=
  match a, b with
  | BUY, BUY | SELL, SELL | CLOSE, CLOSE | HOLD, HOLD
  | SET_STOP_LOSS, SET_STOP_LOSS | SET_TAKE_PROFIT, SET_TAKE_PROFIT => true
  | _, _ => false
  end.

(** [instruction.action === a], where the action may be [undefined]. *)
Definition actionIs (o : option Action) (a : Action) : bool :=
  match o with Some b => Action_eqb b a | None => false end.

(** [TradingInstruction], in the [Partial] form the decoder builds it in:
    every property but the timestamp may be missing. *)
Record TradingInstruction : Type := {
  action : option Action;
  symbol : option string;
  quantity : option Q;
  price : option Q;
  leverage : option Q;
  stopLoss : option Q;
  takeProfit : option Q;
  reason : option string;
  confidence : option Q;
  priority : option Priority;
  riskReward : option string;
  maxHoldTime : option string;
  timestamp : Z
}.

Record ValidationResult : Type := {
  isValid : bool;
  errors : list string;
  warnings : list string
}.

Record ParseResult : Type := {
  instructions : list TradingInstruction;
  rawResponse : string;
  parseErrors : list string;
  validInstructions : list TradingInstruction;
  invalidInstructions : list (TradingInstruction * list string)
}.

(** [{ timestamp }] *)
Definition blank (ts : Z) : TradingInstruction :=
  {| action := None; symbol := None; quantity := None; price := None;
     leverage := None; stopLoss := None; takeProfit := None; reason := None;
     confidence := None; priority := None; riskReward := None;
     maxHoldTime := None; timestamp := ts |}.

Definition set_action v i :=
  {| action := v; symbol := symbol i; quantity := quantity i; price := price i;
     leverage := leverage i; stopLoss := stopLoss i; takeProfit := takeProfit i;
     reason := reason i; confidence := confidence i; priority := priority i;
     riskReward := riskReward i; maxHoldTime := maxHoldTime i;
     timestamp := timestamp i |}.

Definition set_symbol v i :=
  {| action := action i; symbol := v; quantity := quantity i; price := price i;
     leverage := leverage i; stopLoss := stopLoss i; takeProfit := takeProfit i;
     reason := reason i; confidence := confidence i; priority := priority i;
     riskReward := riskReward i; maxHoldTime := maxHoldTime i;
     timestamp := timestamp i |}.

Definition set_quantity v i :=
  {| action := action i; symbol := symbol i; quantity := v; price := price i;
     leverage := leverage i; stopLoss := stopLoss i; takeProfit := takeProfit i;
     reason := reason i; confidence := confidence i; priority := priority i;
     riskReward := riskReward i; maxHoldTime := maxHoldTime i;
     timestamp := timestamp i |}.

Definition set_price v i :=
  {| action := action i; symbol := symbol i; quantity := quantity i; price := v;
     leverage := leverage i; stopLoss := stopLoss i; takeProfit := takeProfit i;
     reason := reason i; confidence := confidence i; priority := priority i;
     riskReward := riskReward i; maxHoldTime := maxHoldTime i;
     timestamp := timestamp i |}.

Definition set_leverage v i :=
  {| action := action i; symbol := symbol i; quantity := quantity i; price := price i;
     leverage := v; stopLoss := stopLoss i; takeProfit := takeProfit i;
     reason := reason i; confidence := confidence i; priority := priority i;
     riskReward := riskReward i; maxHoldTime := maxHoldTime i;
     timestamp := timestamp i |}.

Definition set_stopLoss v i :=
  {| action := action i; symbol := symbol i; quantity := quantity i; price := price i;
     leverage := leverage i; stopLoss := v; takeProfit := takeProfit i;
     reason := reason i; confidence := confidence i; priority := priority i;
     riskReward := riskReward i; maxHoldTime := maxHoldTime i;
     timestamp := timestamp i |}.

Definition set_takeProfit v i :=
  {| action := action i; symbol := symbol i; quantity := quantity i; price := price i;
     leverage := leverage i; stopLoss := stopLoss i; takeProfit := v;
     reason := reason i; confidence := confidence i; priority := priority i;
     riskReward := riskReward i; maxHoldTime := maxHoldTime i;
     timestamp := timestamp i |}.

Definition set_reason v i :=
  {| action := action i; symbol := symbol i; quantity := quantity i; price := price i;
     leverage := leverage i; stopLoss := stopLoss i; takeProfit := takeProfit i;
     reason := v; confidence := confidence i; priority := priority i;
     riskReward := riskReward i; maxHoldTime := maxHoldTime i;
     timestamp := timestamp i |}.

Definition set_confidence v i :=
  {| action := action i; symbol := symbol i; quantity := quantity i; price := price i;
     leverage := leverage i; stopLoss := stopLoss i; takeProfit := takeProfit i;
     reason := reason i; confidence := v; priority := priority i;
     riskReward := riskReward i; maxHoldTime := maxHoldTime i;
     timestamp := timestamp i |}.

Definition set_priority v i :=
  {| action := action i; symbol := symbol i; quantity := quantity i; price := price i;
     leverage := leverage i; stopLoss := stopLoss i; takeProfit := takeProfit i;
     reason := reason i; confidence := confidence i; priority := v;
     riskReward := riskReward i; maxHoldTime := maxHoldTime i;
     timestamp := timestamp i |}.

Definition set_riskReward v i :=
  {| action := action i; symbol := symbol i; quantity := quantity i; price := price i;
     leverage := leverage i; stopLoss := stopLoss i; takeProfit := takeProfit i;
     reason := reason i; confidence := confidence i; priority := priority i;
     riskReward := v; maxHoldTime := maxHoldTime i;
     timestamp := timestamp i |}.

Definition set_maxHoldTime v i :=
  {| action := action i; symbol := symbol i; quantity := quantity i; price := price i;
     leverage := leverage i; stopLoss := stopLoss i; takeProfit := takeProfit i;
     reason := reason i; confidence := confidence i; priority := priority i;
     riskReward := riskReward i; maxHoldTime := v;
     timestamp := timestamp i |}.

Definition set_timestamp v i :=
  {| action := action i; symbol := symbol i; quantity := quantity i; price := price i;
     leverage := leverage i; stopLoss := stopLoss i; takeProfit := takeProfit i;
     reason := reason i; confidence := confidence i; priority := priority i;
     riskReward := riskReward i; maxHoldTime := maxHoldTime i;
     timestamp := v |}.

(** ** [cleanResponse] *)

Definition FENCE : string := "```".

(** The offset of the first occurrence of [needle] in [s]. *)
Fixpoint indexOf (needle s : string) : option nat :=
  if startsWith needle s then Some 0
  else match s with
       | EmptyString => None
       | String _ r => option_map S (indexOf needle r)
       end.

(** [/```[\s\S]*?```/]: an opening fence, then as little as possible up to
    the next fence. *)
Definition fenceMatch : matcher := fun s =>
  if startsWith FENCE s then
    match indexOf FENCE (drop 3 s) with
    | Some j => Some (3 + j + 3)
    | None => None
    end
  else None.

(** [/\*\*/] and [/\*/]. *)
Definition boldMatch : matcher := fun s =>
  if startsWith "**" s then Some 2 else None.

Definition italicMatch : matcher := fun s =>
  if startsWith "*" s then Some 1 else None.

Definition isHash (c : ascii) : bool := Ascii.eqb c "#".

Definition nextIs (p : ascii -> bool) (s : string) : bool :=
  match s with String c _ => p c | EmptyString => false end.

(** [/#{1,6}\s/]: the greedy count is tried from [n] downwards. *)
Fixpoint headingTry (n : nat) (s : string) : option nat :=
  match n with
  | O => None
  | S k =>
      if Nat.eqb (countWhile isHash (take n s)) n && nextIs isWhite (drop n s)
      then Some (n + 1)
      else headingTry k s
  end.

Definition headingMatch : matcher := headingTry 6.

Definition cleanResponse (response : string) : string :=
  trim (removeAll headingMatch
         (removeAll italicMatch
           (removeAll boldMatch
             (removeAll fenceMatch response)))).

(** ** [extractTradeBlocks] *)

Definition MARKER : string := "TRADE_DECISION:".

(** The lookahead [(?=TRADE_DECISION:|---|$)], under the [i] flag. *)
Definition strictStop (s : string) : bool :=
  startsWithCI MARKER s || startsWith "---" s || isEmpty s.

(** [/TRADE_DECISION:\s*([\s\S]*?)(?=TRADE_DECISION:|---|$)/i], anchored. *)
Definition strictMatch : matcher := fun s =>
  if startsWithCI MARKER s then
    let r := drop 15 s in
    let k := countWhile isWhite r in
    Some (15 + k + lazyUntil strictStop (drop k r))
  else None.

(** The class [[\s:]]. *)
Definition isWhiteOrColon (c : ascii) : bool := isWhite c || Ascii.eqb c ":".

(** [(?:TRADE|DECISION|ACTION)] followed by [k]: the alternatives are tried
    in order, each with what follows it; [k] is given the length of the
    keyword and the text after it. *)
Definition afterKeyword {A : Type} (k : nat -> string -> option A) (s : string)
  : option A :=
  let try (kw : string) (n : nat) : option A :=
    if startsWithCI kw s then k n (drop n s) else None in
  match try "TRADE" 5 with
  | Some a => Some a
  | None =>
      match try "DECISION" 8 with
      | Some a => Some a
      | None => try "ACTION" 6
      end
  end.

(** The lookahead [(?=(?:TRADE|DECISION|ACTION)[\s:]|$)]. *)
Definition looserStop (s : string) : bool :=
  truthy (afterKeyword
            (fun _ r => if nextIs isWhiteOrColon r then Some tt else None) s)
  || isEmpty s.

(** [/(?:TRADE|DECISION|ACTION)[\s:]+[\s\S]*?(?=(?:TRADE|DECISION|ACTION)[\s:]|$)/i],
    anchored. *)
Definition looserTail (n : nat) (r : string) : option nat :=
  let k := countWhile isWhiteOrColon r in
  if Nat.eqb k 0 then None
  else Some (n + k + lazyUntil looserStop (drop k r)).

Definition looserMatch : matcher := afterKeyword looserTail.

(** [match.replace(/^TRADE_DECISION:\s*/i, '')] *)
Definition stripMarker (s : string) : string :=
  if startsWithCI MARKER s then dropWhile isWhite (drop 15 s) else s.

Definition extractTradeBlocks (response : string) : list string :=
  match matchAll strictMatch response with
  | [] => matchAll looserMatch response
  | matches => map (fun m => trim (stripMarker m)) matches
  end.

(** ** Field parsers *)

Definition parseAction (value : string) : option Action :=
  let action := trim (toUpperCase value) in
  if action =? "BUY" then Some BUY
  else if action =? "LONG" then Some BUY
  else if action =? "SELL" then Some SELL
  else if action =? "SHORT" then Some SELL
  else if action =? "CLOSE" then Some CLOSE
  else if action =? "EXIT" then Some CLOSE
  else if action =? "HOLD" then Some HOLD
  else if action =? "WAIT" then Some HOLD
  else if action =? "SET_STOP_LOSS" then Some SET_STOP_LOSS
  else if action =? "SET_TAKE_PROFIT" then Some SET_TAKE_PROFIT
  else None.

(** [symbol.replace(/^(FUTURES?|SPOT)_?/i, '')] *)
Definition stripMarketPrefix (s : string) : string :=
  let underscore (r : string) : string :=
    match r with
    | String "_" r' => r'
    | _ => r
    end in
  if startsWithCI "FUTURE" s then
    let r := drop 6 s in
    underscore (if startsWithCI "S" r then drop 1 r else r)
  else if startsWithCI "SPOT" s then underscore (drop 4 s)
  else s.

Definition parseSymbol (value : string) : string :=
  let symbol := trim (toUpperCase value) in
  let symbol :=
    if negb (includes "USDT" symbol) && negb (includes "BUSD" symbol)
    then symbol ++ "USDT" else symbol in
  stripMarketPrefix symbol.

(** The class [[\d.-]]. *)
Definition isNumeric (c : ascii) : bool :=
  isDigit c || Ascii.eqb c "." || Ascii.eqb c "-".

Definition parseNumber (value : string) : option Q :=
  parseFloat (sfilter isNumeric value).

Definition parsePrice (value : string) : option Q :=
  if includes "MARKET" (toUpperCase value) then None
  else parseNumber value.

Definition parsePriority (value : string) : Priority :=
  let priority := trim (toUpperCase value) in
  if (priority =? "HIGH") || (priority =? "URGENT") || (priority =? "CRITICAL")
  then HIGH
  else if (priority =? "MEDIUM") || (priority =? "NORMAL") || (priority =? "MODERATE")
  then MEDIUM
  else LOW.

(** [a || d] on numbers and on strings. *)
Definition orNum (a : option Q) (d : Q) : Q :=
  match a with
  | Some q => if Qeq_bool q 0%Q then d else q
  | None => d
  end.

Definition orStr (a : option string) (d : string) : string :=
  match a with
  | Some s => if isEmpty s then d else s
  | None => d
  end.

Definition orPriority (a : option Priority) (d : Priority) : Priority :=
  match a with Some p => p | None => d end.

(** ** [parseTradeBlock] *)

(** The [switch (lowerKey)] of the loop body. *)
Definition setField (lowerKey value : string) (i : TradingInstruction)
  : TradingInstruction :=
  if lowerKey =? "action" then set_action (parseAction value) i
  else if lowerKey =? "symbol" then set_symbol (Some (parseSymbol value)) i
  else if lowerKey =? "quantity" then set_quantity (parseNumber value) i
  else if lowerKey =? "leverage" then set_leverage (parseNumber value) i
  else if (lowerKey =? "entry price") || (lowerKey =? "price")
  then set_price (parsePrice value) i
  else if (lowerKey =? "stop loss") || (lowerKey =? "stoploss")
  then set_stopLoss (parseNumber value) i
  else if (lowerKey =? "take profit") || (lowerKey =? "takeprofit")
  then set_takeProfit (parseNumber value) i
  else if lowerKey =? "confidence"
  then set_confidence (Some (orNum (parseNumber value) 0%Q)) i
  else if lowerKey =? "priority" then set_priority (Some (parsePriority value)) i
  else if lowerKey =? "reason" then set_reason (Some value) i
  else if (lowerKey =? "risk reward") || (lowerKey =? "riskreward")
  then set_riskReward (Some value) i
  else if (lowerKey =? "max hold time") || (lowerKey =? "maxholdtime")
  then set_maxHoldTime (Some value) i
  else i.

(** The [for (const line of lines)] loop: it stops at a line containing
    [---] and passes over a line without a colon. *)
Fixpoint parseLines (lines : list string) (i : TradingInstruction)
  : TradingInstruction :=
  match lines with
  | [] => i
  | line :: rest =>
      if includes "---" line then i
      else
        match split ":" line with
        | key :: ((_ :: _) as valueParts) =>
            let value := trim (join ":" valueParts) in
            let lowerKey := trim (toLowerCase key) in
            parseLines rest (setField lowerKey value i)
        | _ => parseLines rest i
        end
  end.

Definition blockLines (block : string) : list string :=
  filter (fun line => negb (isEmpty line)) (map trim (split LF block)).

Definition HOLD_REASON : string := "AI recommends holding current positions".

Definition parseTradeBlock (block : string) (ts : Z) : option TradingInstruction :=
  let instruction := parseLines (blockLines block) (blank ts) in
  if negb (truthy (action instruction)) || negb (truthyStr (symbol instruction))
  then None
  else if actionIs (action instruction) HOLD then
    Some {| action := Some HOLD;
            symbol := Some (orStr (symbol instruction) "ALL");
            quantity := None; price := None; leverage := None;
            stopLoss := None; takeProfit := None;
            reason := Some (orStr (reason instruction) HOLD_REASON);
            confidence := Some (orNum (confidence instruction) 50%Q);
            priority := Some (orPriority (priority instruction) LOW);
            riskReward := None; maxHoldTime := None;
            timestamp := ts |}
  else Some instruction.

(** ** [parseFallbackResponse] *)

(** [/([A-Z]{2,10}(?:USDT|BUSD))/], anchored: the greedy count of capitals
    is tried from [n] down to 2; the result is the matched text. *)
Fixpoint symbolTry (n : nat) (s : string) : option string :=
  match n with
  | S (S _ as k) =>
      if Nat.eqb (countWhile isUpper (take n s)) n
         && (startsWith "USDT" (drop n s) || startsWith "BUSD" (drop n s))
      then Some (take (n + 4) s)
      else symbolTry k s
  | _ => None
  end.

Definition symbolMatch (response : string) : option string :=
  findFirst (symbolTry 10) response.

Definition FALLBACK_HOLD_REASON : string :=
  "AI recommends holding based on current market conditions".

Definition FALLBACK_REASON : string := "Parsed from unstructured AI response".

Definition parseFallbackResponse (response : string) (ts : Z)
  : option TradingInstruction :=
  let lowerResponse := toLowerCase response in
  if includes "hold" lowerResponse || includes "wait" lowerResponse
     || includes "no trade" lowerResponse
  then
    Some {| action := Some HOLD; symbol := Some "ALL";
            quantity := None; price := None; leverage := None;
            stopLoss := None; takeProfit := None;
            reason := Some FALLBACK_HOLD_REASON;
            confidence := Some 50%Q; priority := Some LOW;
            riskReward := None; maxHoldTime := None; timestamp := ts |}
  else
    let action : option Action :=
      if includes "buy" lowerResponse || includes "long" lowerResponse
      then Some BUY
      else if includes "sell" lowerResponse || includes "short" lowerResponse
      then Some SELL
      else None in
    let symbol : string :=
      match symbolMatch response with
      | Some m => m
      | None => EmptyString
      end in
    match action with
    | Some a =>
        if negb (isEmpty symbol) then
          Some {| action := Some a; symbol := Some symbol;
                  quantity := None; price := None; leverage := None;
                  stopLoss := None; takeProfit := None;
                  reason := Some FALLBACK_REASON;
                  confidence := Some 30%Q; priority := Some LOW;
                  riskReward := None; maxHoldTime := None; timestamp := ts |}
        else None
    | None => None
    end.

(** ** [validateInstruction] *)

Definition validSymbols : list string :=
  [ "BTCUSDT"; "ETHUSDT"; "ADAUSDT"; "DOGEUSDT"; "BNBUSDT";
    "XRPUSDT"; "SOLUSDT"; "MATICUSDT"; "DOTUSDT"; "AVAXUSDT";
    "LTCUSDT"; "LINKUSDT"; "UNIUSDT"; "ATOMUSDT"; "FILUSDT";
    "TRXUSDT"; "ETCUSDT"; "XLMUSDT"; "VETUSDT"; "ICPUSDT" ].

(** [list.includes(s)] on a list of strings. *)
Definition listIncludes (l : list string) (s : string) : bool :=
  existsb (String.eqb s) l.

Definition isValidSymbol (symbol : string) : bool :=
  listIncludes validSymbols (toUpperCase symbol).

(** The pattern [1:] followed by the group [\d+\.?\d*], anchored: the text
    of the group. *)
Definition ratioMatch (s : string) : option string :=
  if startsWith "1:" s then
    let r := drop 2 s in
    let whole := takeWhile isDigit r in
    if isEmpty whole then None
    else
      match dropWhile isDigit r with
      | String "." r2 => Some (whole ++ "." ++ takeWhile isDigit r2)
      | _ => Some whole
      end
  else None.

Definition ERR_ACTION : string := "Action is required".
Definition ERR_SYMBOL : string := "Symbol is required".
Definition ERR_QUANTITY : string :=
  "Either quantity or price must be specified for trading actions".
Definition ERR_LEVERAGE : string := "Leverage must be between 1 and 50".
Definition ERR_CONFIDENCE : string := "Confidence must be between 0 and 100".
Definition ERR_INVALID_SYMBOL (symbol : string) : string :=
  "Invalid trading symbol: " ++ symbol.

Definition WARN_REASON : string := "No reason provided for trading decision".
Definition WARN_STOP_LOSS : string := "No stop loss specified - high risk".
Definition WARN_TAKE_PROFIT : string :=
  "No take profit specified - consider setting exit strategy".
Definition WARN_CONFIDENCE : string :=
  "Low confidence level - consider skipping this trade".
Definition WARN_RATIO : string :=
  "Risk/reward ratio is less than 1:1.5 - consider better opportunities".

(** [if (c) list.push(x)] *)
Definition pushIf (c : bool) (x : string) : list string :=
  if c then [x] else [].

Definition leverageOutOfRange (i : TradingInstruction) : bool :=
  truthyNum (leverage i) && (lt (leverage i) 1%Q || gt (leverage i) 50%Q).

Definition confidenceOutOfRange (i : TradingInstruction) : bool :=
  lt (confidence i) 0%Q || gt (confidence i) 100%Q.

Definition isTradingAction (i : TradingInstruction) : bool :=
  negb (actionIs (action i) HOLD) && negb (actionIs (action i) CLOSE).

Definition isBuyOrSell (i : TradingInstruction) : bool :=
  actionIs (action i) BUY || actionIs (action i) SELL.

Definition invalidSymbolErrors (i : TradingInstruction) : list string :=
  match symbol i with
  | Some s =>
      pushIf (negb (isEmpty s) && negb (isValidSymbol s)) (ERR_INVALID_SYMBOL s)
  | None => []
  end.

Definition ratioWarnings (i : TradingInstruction) : list string :=
  match riskReward i with
  | Some rr =>
      if isEmpty rr then []
      else
        match findFirst ratioMatch rr with
        | Some group => pushIf (lt (parseFloat group) (3 # 2)%Q) WARN_RATIO
        | None => []
        end
  | None => []
  end.

Definition validationErrors (i : TradingInstruction) : list string :=
  pushIf (negb (truthy (action i))) ERR_ACTION
  ++ pushIf (negb (truthyStr (symbol i))) ERR_SYMBOL
  ++ (if isTradingAction i then
        pushIf (negb (truthyNum (quantity i)) && negb (truthyNum (price i)))
               ERR_QUANTITY
        ++ pushIf (leverageOutOfRange i) ERR_LEVERAGE
      else [])
  ++ pushIf (confidenceOutOfRange i) ERR_CONFIDENCE
  ++ invalidSymbolErrors i.

Definition validationWarnings (i : TradingInstruction) : list string :=
  pushIf (negb (truthyStr (reason i))) WARN_REASON
  ++ (if isTradingAction i && isBuyOrSell i then
        pushIf (negb (truthyNum (stopLoss i))) WARN_STOP_LOSS
        ++ pushIf (negb (truthyNum (takeProfit i))) WARN_TAKE_PROFIT
      else [])
  ++ pushIf (lt (confidence i) 50%Q) WARN_CONFIDENCE
  ++ ratioWarnings i.

Definition validateInstruction (i : TradingInstruction) : ValidationResult :=
  let errors := validationErrors i in
  {| isValid := Nat.eqb (List.length errors) 0;
     errors := errors;
     warnings := validationWarnings i |}.

(** ** [parseAIResponse] *)

Definition ERR_NO_BLOCKS : string :=
  "No TRADE_DECISION blocks found in AI response".

(** [if (x) list.push(x)] on an optional instruction. *)
Definition pushSome {A : Type} (o : option A) : list A :=
  match o with Some a => [a] | None => [] end.

(** The instructions decoded from the blocks, in order, when no parse of a
    block throws. *)
Definition parseBlocks (tradeBlocks : list string) (ts : Z)
  : list TradingInstruction :=
  flat_map (fun block => pushSome (parseTradeBlock block ts)) tradeBlocks.

Definition validOnes (l : list TradingInstruction) : list TradingInstruction :=
  filter (fun i => isValid (validateInstruction i)) l.

Definition invalidOnes (l : list TradingInstruction)
  : list (TradingInstruction * list string) :=
  map (fun i => (i, errors (validateInstruction i)))
      (filter (fun i => negb (isValid (validateInstruction i))) l).

(** The completion of a call made inside a [try] block: a value, or an
    [Error] thrown, with its message. *)
Inductive completion (A : Type) : Type :=
| Completed (a : A)
| Raised (message : string).
Arguments Completed {A} a.
Arguments Raised {A} message.

(** The methods [parseAIResponse] calls inside its [try] blocks.  As far as
    [parseAIResponse] goes each of them may throw: that is what its two
    [catch] clauses are for. *)
Record Methods : Type := {
  cleanResponseM : string -> completion string;
  extractTradeBlocksM : string -> completion (list string);
  parseFallbackResponseM : string -> Z -> completion (option TradingInstruction);
  parseTradeBlockM : string -> Z -> completion (option TradingInstruction);
  validateInstructionM : TradingInstruction -> completion ValidationResult
}.

(** The methods of the decoder itself.  They are made of operations that
    are defined on every string, so that none of them throws. *)
Definition decoder : Methods :=
  {| cleanResponseM := fun response => Completed (cleanResponse response);
     extractTradeBlocksM := fun response => Completed (extractTradeBlocks response);
     parseFallbackResponseM :=
       fun response ts => Completed (parseFallbackResponse response ts);
     parseTradeBlockM := fun block ts => Completed (parseTradeBlock block ts);
     validateInstructionM := fun i => Completed (validateInstruction i) |}.

(** A part of the outer [try] block: the entries it has pushed on
    [parseErrors], in order, and how it completed.  The entries pushed
    before a throw stay in the array. *)
Definition Try (A : Type) : Type := (list string * completion A)%type.

Definition done {A : Type} (a : A) : Try A := ([], Completed a).

Definition step {A : Type} (c : completion A) : Try A := ([], c).

(** [parseErrors.push(entry)] *)
Definition pushError (entry : string) : Try unit := ([entry], Completed tt).

Definition andThen {A B : Type} (t : Try A) (k : A -> Try B) : Try B :=
  match t with
  | (pushed, Completed a) =>
      let '(more, c) := k a in ((pushed ++ more)%list, c)
  | (pushed, Raised message) => (pushed, Raised message)
  end.

(** The text of a count in a template string. *)
Definition showNat (n : nat) : string :=
  DecimalString.NilZero.string_of_uint (Nat.to_uint n).

(** The entry of the inner [catch] clause, for the block of index [i]. *)
Definition blockError (i : nat) (message : string) : string :=
  "Error parsing trade block " ++ showNat (i + 1) ++ ": " ++ message.

(** The entry of the outer [catch] clause. *)
Definition criticalError (message : string) : string :=
  "Critical parsing error: " ++ message.

(** The loop over the blocks, from the block of index [i] on: each parse
    is in a [try] of its own, whose [catch] clause pushes an entry and goes
    on with the next block. *)
Fixpoint parseBlocksFrom (m : Methods) (i : nat) (tradeBlocks : list string)
    (ts : Z) : Try (list TradingInstruction) :=
  match tradeBlocks with
  | [] => done []
  | block :: rest =>
      andThen
        (match parseTradeBlockM m block ts with
         | Completed instruction => done (pushSome instruction)
         | Raised message =>
             andThen (pushError (blockError i message)) (fun _ => done [])
         end)
        (fun one =>
           andThen (parseBlocksFrom m (S i) rest ts)
             (fun more => done (one ++ more)%list))
  end.

(** The loop over the instructions: the valid ones, and the invalid ones
    with their errors, in the order of the pushes. *)
Fixpoint validateAll (m : Methods) (l : list TradingInstruction)
  : Try (list TradingInstruction * list (TradingInstruction * list string)) :=
  match l with
  | [] => done ([], [])
  | instruction :: rest =>
      andThen (step (validateInstructionM m instruction))
        (fun validation =>
           andThen (validateAll m rest)
             (fun rest' =>
                done (if isValid validation
                      then (instruction :: fst rest', snd rest')
                      else (fst rest',
                            (instruction, errors validation) :: snd rest'))))
  end.

(** The outer [try] block up to its [return]: the instructions, the valid
    ones and the invalid ones. *)
Definition tryBlock (m : Methods) (timestamp : Z) (response : string)
  : Try (list TradingInstruction
         * (list TradingInstruction * list (TradingInstruction * list string))) :=
  andThen (step (cleanResponseM m response)) (fun cleanedResponse =>
  andThen (step (extractTradeBlocksM m cleanedResponse)) (fun tradeBlocks =>
  andThen
    (match tradeBlocks with
     | [] =>
         andThen (pushError ERR_NO_BLOCKS) (fun _ =>
         andThen (step (parseFallbackResponseM m cleanedResponse timestamp))
           (fun fallbackInstruction => done (pushSome fallbackInstruction)))
     | _ => parseBlocksFrom m 0 tradeBlocks timestamp
     end)
    (fun instructions =>
  andThen (validateAll m instructions) (fun checked =>
  done (instructions, checked))))).

(** [parseAIResponse] over the methods [m]; [now] is the reading of
    [Date.now()] at the call.  Both ways out of the function are a
    [return]: the one of the [try] block, and the one of the outer [catch]
    clause, which pushes its entry and gives an empty result. *)
Definition parseAIResponseWith (m : Methods) (now : Z) (response : string)
  : ParseResult :=
  match tryBlock m now response with
  | (pushed, Completed (instructions, (valid, invalid))) =>
      {| instructions := instructions;
         rawResponse := response;
         parseErrors := pushed;
         validInstructions := valid;
         invalidInstructions := invalid |}
  | (pushed, Raised message) =>
      {| instructions := [];
         rawResponse := response;
         parseErrors := (pushed ++ [criticalError message])%list;
         validInstructions := [];
         invalidInstructions := [] |}
  end.

(** [parseAIResponse] of the decoder. *)
Definition parseAIResponse (now : Z) (response : string) : ParseResult :=
  parseAIResponseWith decoder now response.

End Parser.

(* ===================================================================== *)
(** * The cycle orchestrator: [AITradingService] *)
(* ===================================================================== *)

Module Service.
Import Js.

(** The completion of a call: a value, or an [Error] with its message. *)
Inductive outcome (A : Type) : Type :=
| Returned (a : A)
| Thrown (message : string).
Arguments Returned {A} a.
Arguments Thrown {A} message.

Module ExecutionResult.
Record t : Type := {
  success : bool;
  instruction : Parser.TradingInstruction;
  binanceOrderId : option Z;
  executedPrice : option Q;
  executedQuantity : option Q;
  error : option string;
  timestamp : Z
}.
End ExecutionResult.

Module TradingCycleResult.
Record t : Type := {
  timestamp : Z;
  aiProvider : string;
  prompt : string;
  aiResponse : string;
  instructions : list Parser.TradingInstruction;
  executionResults : list ExecutionResult.t;
  success : bool;
  error : option string;
  cycleId : string;
  duration : Z
}.
End TradingCycleResult.

(** The fields of [AITradingConfig] that are plain data; the provider and
    the template are collaborators. *)
Record AITradingConfig : Type := {
  tradingPairs : list string;
  maxPositions : Z;
  maxDailyTrades : Z;
  maxPortfolioExposure : Q;
  maxPositionSize : Q;
  minConfidenceThreshold : Q;
  technicalIndicatorsEnabled : bool;
  sentimentAnalysisEnabled : bool;
  telegramEnabled : bool;
  dryRun : bool;
  intervalSeconds : Z
}.

(** The private fields of the service. *)
Record ServiceState : Type := {
  isRunning : bool;
  currentCycle : Z;
  totalExecutedTrades : Z;
  dailyTradeCount : Z;
  lastResetDate : string
}.

Record AIResponse : Type := {
  content : string;
  model : string;
  provider : string
}.

Record TechnicalIndicators : Type := {
  rsi : Q; macd : Q; ema20 : Q; ema50 : Q; support : Q; resistance : Q
}.

Record TrendAnalysis : Type := {
  overallSentiment : string;
  marketPhase : string;
  majorSupport : Q;
  majorResistance : Q;
  volatilityLevel : string
}.

Record RiskMetrics : Type := {
  portfolioExposure : Q;
  maxDrawdown : Q;
  sharpeRatio : Q;
  winRate : Q;
  averageRiskReward : Q;
  fearGreedIndex : option Q
}.

(** The argument of [riskManager.assessRisk]. *)
Record RiskRequest : Type := {
  riskSymbol : option string;
  side : option Parser.Action;
  riskQuantity : Q;
  riskLeverage : Q;
  entryPrice : option Q
}.

Record RiskAssessment : Type := {
  canExecute : bool;
  reasons : list string
}.

(** The calls made to the collaborators, in the order they are made. *)
Inductive Call : Type :=
| CallGetAccountInfo
| CallGetPositions
| CallGet24hrTicker (symbol : string)
| CallGetKlines (symbol : string)
| CallRequestDecision (prompt : string)
| CallAssessRisk (request : RiskRequest)
| CallExecuteInstruction (instruction : Parser.TradingInstruction)
| CallSendMessage (text : string).

Section Orchestrator.

(** The world outside the service (exchange, model vendor, risk manager,
    clock) and the data of [BinanceService], which the service passes on
    without looking into it. *)
Context {World AccountInfo Position Ticker Klines : Type}.

(** [SymbolData]; the numbers read off the ticker with [parseFloat] stay in
    the ticker. *)
Record SymbolData : Type := {
  symbol : string;
  ticker : Ticker;
  technicalIndicators : TechnicalIndicators
}.

(** [MarketData]; the account summary stays in the account information it
    is read from. *)
Record MarketData : Type := {
  marketTimestamp : Z;
  symbols : list SymbolData;
  accountInfo : AccountInfo;
  currentPositions : list Position;
  marketTrends : TrendAnalysis;
  riskMetrics : RiskMetrics
}.

(** The collaborators.  Each call takes the world and gives the world
    back with its completion; reading the clock is a call of that kind. *)
Record Environment : Type := {
  (** [Date.now()] *)
  dateNow : World -> Z * World;
  (** [new Date().toDateString()] *)
  toDateString : World -> string * World;
  (** the text made from [Date.now()] and [Math.random()] *)
  newCycleId : World -> string * World;
  (** [config.aiProvider.name] *)
  aiProviderName : string;
  (** [config.aiProvider.requestDecision] *)
  requestDecision : string -> World -> outcome AIResponse * World;
  (** [binanceService] *)
  getAccountInfo : World -> outcome AccountInfo * World;
  getPositions : World -> outcome (list Position) * World;
  (** when both reads of the [Promise.all] of [gatherMarketData] fail:
      whether the read of the account is the first of the two to reject *)
  accountRejectsFirst : World -> bool;
  get24hrTicker : string -> World -> outcome Ticker * World;
  getKlines : string -> World -> outcome Klines * World;
  (** [parseFloat(p.positionAmt) !== 0] *)
  isOpenPosition : Position -> bool;
  (** [riskManager.assessRisk] *)
  assessRisk : RiskRequest -> World -> outcome RiskAssessment * World;
  (** [tradingExecutor.executeInstruction] *)
  executorExecuteInstruction :
    Parser.TradingInstruction -> World -> outcome ExecutionResult.t * World;
  (** [telegramService.sendMessage] *)
  sendMessage : string -> World -> outcome unit * World;
  (** the rendering of the prompt from the template, and of the text of
      the trade notification *)
  buildPromptText : AITradingConfig -> MarketData -> Z -> string;
  tradeMessageText : Parser.TradingInstruction -> ExecutionResult.t -> string
}.

Variable env : Environment.
Variable config : AITradingConfig.

(** The state a computation of the service runs in. *)
Record State : Type := {
  service : ServiceState;
  world : World;
  calls : list Call
}.

(** A computation of the service.  The state reached when an error is thrown
    is kept: a [catch] clause sees the effects made before the throw. *)
Definition M (A : Type) : Type := State -> outcome A * State.

Definition ret {A : Type} (a : A) : M A := fun st => (Returned a, st).

Definition bind {A B : Type} (m : M A) (k : A -> M B) : M B :=
  fun st =>
    match m st with
    | (Returned a, st') => k a st'
    | (Thrown e, st') => (Thrown e, st')
    end.

Definition throw {A : Type} (message : string) : M A :=
  fun st => (Thrown message, st).

(** [try { m } catch (error) { handler(error.message) }] *)
Definition tryCatch {A : Type} (m : M A) (handler : string -> M A) : M A :=
  fun st =>
    match m st with
    | (Returned a, st') => (Returned a, st')
    | (Thrown e, st') => handler e st'
    end.

(** A started call whose completion is looked at later, as of a promise
    that has not been awaited yet. *)
Definition started {A : Type} (m : M A) : M (outcome A) :=
  fun st => let '(o, st') := m st in (Returned o, st').

(** [await] of a promise already started. *)
Definition await {A : Type} (o : outcome A) : M A :=
  fun st => (o, st).

Notation "x <- m ;; k" := (bind m (fun x => k))
  (at level 61, m at next level, right associativity).
Notation "m ;;; k" := (bind m (fun _ => k))
  (at level 61, right associativity).

Definition getService : M ServiceState := fun st => (Returned (service st), st).

Definition putService (s : ServiceState) : M unit :=
  fun st => (Returned tt, {| service := s; world := world st; calls := calls st |}).

(** Reading the clock. *)
Definition readWorld {A : Type} (f : World -> A * World) : M A :=
  fun st =>
    let '(a, w) := f (world st) in
    (Returned a, {| service := service st; world := w; calls := calls st |}).

(** A call to a collaborator, recorded in [calls]. *)
Definition call {A : Type} (c : Call) (f : World -> outcome A * World) : M A :=
  fun st =>
    let '(o, w) := f (world st) in
    (o, {| service := service st; world := w; calls := calls st ++ [c] |}).

(** ** Counters *)

Definition resetDailyCountIfNeeded : M unit :=
  today <- readWorld (toDateString env) ;;
  s <- getService ;;
  if negb (today =? lastResetDate s) then
    putService {| isRunning := isRunning s;
                  currentCycle := currentCycle s;
                  totalExecutedTrades := totalExecutedTrades s;
                  dailyTradeCount := 0;
                  lastResetDate := today |}
  else ret tt.

(** [this.totalExecutedTrades++; this.dailyTradeCount++] *)
Definition countTrade : M unit :=
  s <- getService ;;
  putService {| isRunning := isRunning s;
                currentCycle := currentCycle s;
                totalExecutedTrades := totalExecutedTrades s + 1;
                dailyTradeCount := dailyTradeCount s + 1;
                lastResetDate := lastResetDate s |}.

(** [this.currentCycle++] *)
Definition countCycle : M unit :=
  s <- getService ;;
  putService {| isRunning := isRunning s;
                currentCycle := currentCycle s + 1;
                totalExecutedTrades := totalExecutedTrades s;
                dailyTradeCount := dailyTradeCount s;
                lastResetDate := lastResetDate s |}.

(** ** Market data *)

Definition neutralIndicators : TechnicalIndicators :=
  {| rsi := 50; macd := 0; ema20 := 0; ema50 := 0; support := 0; resistance := 0 |}.

(** The indicator computations of the source are placeholders. *)
Definition calculateRSI (klines : Klines) : Q := 50.
Definition calculateMACD (klines : Klines) : Q := 0.
Definition calculateEMA (klines : Klines) (period : Z) : Q := 0.
Definition calculateSupport (klines : Klines) : Q := 0.
Definition calculateResistance (klines : Klines) : Q := 0.

Definition getTechnicalIndicators (symbol : string) : M TechnicalIndicators :=
  if negb (technicalIndicatorsEnabled config) then ret neutralIndicators
  else
    tryCatch
      (klines <- call (CallGetKlines symbol) (getKlines env symbol) ;;
       ret {| rsi := calculateRSI klines;
              macd := calculateMACD klines;
              ema20 := calculateEMA klines 20;
              ema50 := calculateEMA klines 50;
              support := calculateSupport klines;
              resistance := calculateResistance klines |})
      (fun _ => ret neutralIndicators).

(** The body of the loop of [getSymbolData]: both calls of the
    [Promise.all] are started, then both are awaited; the [catch] clause
    logs and adds nothing for the symbol. *)
Definition getOneSymbol (symbol : string) : M (list SymbolData) :=
  tryCatch
    (t <- started (call (CallGet24hrTicker symbol) (get24hrTicker env symbol)) ;;
     i <- started (getTechnicalIndicators symbol) ;;
     ticker <- await t ;;
     technicalData <- await i ;;
     ret [ {| symbol := symbol; ticker := ticker;
              technicalIndicators := technicalData |} ])
    (fun _ => ret []).

Fixpoint getSymbolDataFor (pairs : list string) : M (list SymbolData) :=
  match pairs with
  | [] => ret []
  | symbol :: rest =>
      one <- getOneSymbol symbol ;;
      more <- getSymbolDataFor rest ;;
      ret (one ++ more)%list
  end.

Definition getSymbolData : M (list SymbolData) :=
  getSymbolDataFor (tradingPairs config).

Definition getPriceData : M unit := ret tt.

Definition analyzeTrends (symbols : list SymbolData) : M TrendAnalysis :=
  ret {| overallSentiment := "Neutral"; marketPhase := "Consolidation";
         majorSupport := 0; majorResistance := 0; volatilityLevel := "MEDIUM" |}.

Definition calculateRiskMetrics (positions : list Position) (a : AccountInfo)
  : RiskMetrics :=
  {| portfolioExposure := 0; maxDrawdown := 0; sharpeRatio := 0; winRate := 0;
     averageRiskReward := 0; fearGreedIndex := None |}.

(** [await Promise.all([a, p])] of two reads already started: the values of
    both, or the error of the one that rejects first.  Which one that is,
    when both fail, is not decided by the order of the array. *)
Definition awaitAll {A B : Type} (a : outcome A) (p : outcome B) : M (A * B) :=
  fun st =>
    match a, p with
    | Returned x, Returned y => (Returned (x, y), st)
    | Thrown e, Returned _ => (Thrown e, st)
    | Returned _, Thrown e => (Thrown e, st)
    | Thrown ea, Thrown ep =>
        (Thrown (if accountRejectsFirst env (world st) then ea else ep), st)
    end.

(** [gatherMarketData].  The three calls of the [Promise.all] are started
    in the order of the array and then awaited together; the third,
    [getPriceData], never fails. *)
Definition gatherMarketData : M MarketData :=
  a <- started (call CallGetAccountInfo (getAccountInfo env)) ;;
  p <- started (call CallGetPositions (getPositions env)) ;;
  d <- started getPriceData ;;
  both <- awaitAll a p ;;
  _ <- await d ;;
  let accountInfo := fst both in
  let positions := snd both in
  symbolData <- getSymbolData ;;
  trendAnalysis <- analyzeTrends symbolData ;;
  let riskMetrics := calculateRiskMetrics positions accountInfo in
  now <- readWorld (dateNow env) ;;
  ret {| marketTimestamp := now;
         symbols := symbolData;
         accountInfo := accountInfo;
         currentPositions := filter (isOpenPosition env) positions;
         marketTrends := trendAnalysis;
         riskMetrics := riskMetrics |}.

Definition buildPrompt (marketData : MarketData) : M string :=
  s <- getService ;;
  ret (buildPromptText env config marketData (dailyTradeCount s)).

(** ** Filtering *)

(** [tradingPairs.includes(instruction.symbol)] *)
Definition pairAllowed (i : Parser.TradingInstruction) : bool :=
  match Parser.symbol i with
  | Some s => Parser.listIncludes (tradingPairs config) s
  | None => false
  end.

(** The three [continue] tests of the loop of [filterInstructions]. *)
Definition survives (i : Parser.TradingInstruction) : bool :=
  negb (lt (Parser.confidence i) (minConfidenceThreshold config))
  && pairAllowed i
  && negb (Parser.actionIs (Parser.action i) Parser.HOLD).

Definition filterInstructions (parseResult : Parser.ParseResult)
  : list Parser.TradingInstruction :=
  filter survives (Parser.validInstructions parseResult).

(** ** Execution *)

Definition riskRequest (i : Parser.TradingInstruction) : RiskRequest :=
  {| riskSymbol := Parser.symbol i;
     side := Parser.action i;
     riskQuantity := Parser.orNum (Parser.quantity i) 0;
     riskLeverage := Parser.orNum (Parser.leverage i) 1;
     entryPrice := Parser.price i |}.

Definition riskError (a : RiskAssessment) : string :=
  "Risk check failed: " ++ join ", " (reasons a).

(** The object built in the [catch] clauses. *)
Definition failedExecution (i : Parser.TradingInstruction) (message : string)
  : M ExecutionResult.t :=
  now <- readWorld (dateNow env) ;;
  ret {| ExecutionResult.success := false;
         ExecutionResult.instruction := i;
         ExecutionResult.binanceOrderId := None;
         ExecutionResult.executedPrice := None;
         ExecutionResult.executedQuantity := None;
         ExecutionResult.error := Some message;
         ExecutionResult.timestamp := now |}.

Definition executeInstruction (i : Parser.TradingInstruction)
  : M ExecutionResult.t :=
  tryCatch
    (riskAssessment <-
       call (CallAssessRisk (riskRequest i)) (assessRisk env (riskRequest i)) ;;
     (if negb (canExecute riskAssessment)
      then throw (riskError riskAssessment) else ret tt) ;;;
     result <-
       call (CallExecuteInstruction i) (executorExecuteInstruction env i) ;;
     (if telegramEnabled config && ExecutionResult.success result
      then call (CallSendMessage (tradeMessageText env i result))
                (sendMessage env (tradeMessageText env i result))
      else ret tt) ;;;
     ret result)
    (fun message => failedExecution i message).

(** The body of the loop over the surviving instructions: the result that
    is pushed on [executionResults]. *)
Definition executeOne (i : Parser.TradingInstruction) : M ExecutionResult.t :=
  tryCatch
    (result <- executeInstruction i ;;
     (if ExecutionResult.success result then countTrade else ret tt) ;;;
     ret result)
    (fun message => failedExecution i message).

(** The loop: [executionResults] in the order of the pushes. *)
Fixpoint executeAll (l : list Parser.TradingInstruction)
  : M (list ExecutionResult.t) :=
  match l with
  | [] => ret []
  | i :: rest =>
      r <- executeOne i ;;
      rs <- executeAll rest ;;
      ret (r :: rs)
  end.

(** ** Cycle records *)

Definition createSuccessfulCycleResult (cycleId : string) (aiResponse : AIResponse)
    (instructions : list Parser.TradingInstruction)
    (executionResults : list ExecutionResult.t) (startTime : Z)
  : M TradingCycleResult.t :=
  t <- readWorld (dateNow env) ;;
  e <- readWorld (dateNow env) ;;
  ret {| TradingCycleResult.timestamp := t;
         TradingCycleResult.aiProvider := aiProviderName env;
         TradingCycleResult.prompt := EmptyString;
         TradingCycleResult.aiResponse := content aiResponse;
         TradingCycleResult.instructions := instructions;
         TradingCycleResult.executionResults := executionResults;
         TradingCycleResult.success := true;
         TradingCycleResult.error := None;
         TradingCycleResult.cycleId := cycleId;
         TradingCycleResult.duration := e - startTime |}.

Definition createFailedCycleResult (cycleId : string) (error : option string)
    (startTime : Z) : M TradingCycleResult.t :=
  t <- readWorld (dateNow env) ;;
  e <- readWorld (dateNow env) ;;
  ret {| TradingCycleResult.timestamp := t;
         TradingCycleResult.aiProvider := aiProviderName env;
         TradingCycleResult.prompt := EmptyString;
         TradingCycleResult.aiResponse := EmptyString;
         TradingCycleResult.instructions := [];
         TradingCycleResult.executionResults := [];
         TradingCycleResult.success := false;
         TradingCycleResult.error := error;
         TradingCycleResult.cycleId := cycleId;
         TradingCycleResult.duration := e - startTime |}.

Definition createSkippedCycleResult (cycleId : string) (reason : string)
    (startTime : Z) : M TradingCycleResult.t :=
  t <- readWorld (dateNow env) ;;
  e <- readWorld (dateNow env) ;;
  ret {| TradingCycleResult.timestamp := t;
         TradingCycleResult.aiProvider := aiProviderName env;
         TradingCycleResult.prompt := EmptyString;
         TradingCycleResult.aiResponse := "Cycle skipped: " ++ reason;
         TradingCycleResult.instructions := [];
         TradingCycleResult.executionResults := [];
         TradingCycleResult.success := true;
         TradingCycleResult.error := None;
         TradingCycleResult.cycleId := cycleId;
         TradingCycleResult.duration := e - startTime |}.

Definition logCycleResult (result : TradingCycleResult.t) : M unit := ret tt.

(** ** [executeAITradingCycle] *)

(** The steps of the [try] block after the test of the daily limit. *)
Definition runCycle (cycleId : string) (startTime : Z) : M TradingCycleResult.t :=
  marketData <- gatherMarketData ;;
  prompt <- buildPrompt marketData ;;
  aiResponse <-
    call (CallRequestDecision prompt) (requestDecision env prompt) ;;
  now <- readWorld (dateNow env) ;;
  let parseResult := Parser.parseAIResponse now (content aiResponse) in
  let validInstructions := filterInstructions parseResult in
  executionResults <-
    (if negb (dryRun config) && negb (Nat.eqb (List.length validInstructions) 0)
     then executeAll validInstructions
     else ret []) ;;
  result <- createSuccessfulCycleResult cycleId aiResponse validInstructions
              executionResults startTime ;;
  logCycleResult result ;;;
  countCycle ;;;
  ret result.

(** What the [catch] clause of the cycle may receive: [null], [undefined],
    or any other value, with what its [message] property holds; a value
    that is not an [Error] may hold none. *)
Inductive Caught : Type :=
| CaughtNull
| CaughtUndefined
| CaughtValue (message : option string).

(** An [Error] with its message, which is what a [Thrown] of the model
    is. *)
Definition caughtError (message : string) : Caught := CaughtValue (Some message).

(** [error.message]: reading a property of [null] or of [undefined] throws
    a [TypeError]. *)
Definition messageOf (error : Caught) : M (option string) :=
  match error with
  | CaughtNull => throw "Cannot read properties of null (reading 'message')"
  | CaughtUndefined =>
      throw "Cannot read properties of undefined (reading 'message')"
  | CaughtValue message => ret message
  end.

(** The [catch] clause of the cycle. *)
Definition cycleFailed (cycleId : string) (startTime : Z) (error : Caught)
  : M TradingCycleResult.t :=
  message <- messageOf error ;;
  result <- createFailedCycleResult cycleId message startTime ;;
  logCycleResult result ;;;
  ret result.

(** [executeAITradingCycle]; what its [try] block throws is an [Error]. *)
Definition executeAITradingCycle : M TradingCycleResult.t :=
  cycleId <- readWorld (newCycleId env) ;;
  startTime <- readWorld (dateNow env) ;;
  tryCatch
    (resetDailyCountIfNeeded ;;;
     s <- getService ;;
     if (maxDailyTrades config <=? dailyTradeCount s)%Z
     then createSkippedCycleResult cycleId "Daily trade limit reached" startTime
     else runCycle cycleId startTime)
    (fun message => cycleFailed cycleId startTime (caughtError message)).

End Orchestrator.
End Service.

(* ===================================================================== *)
(** * Statements about the decoder *)
(* ===================================================================== *)

Module DecoderSpec.
Import Js Parser.

(** A text given line by line. *)
Definition lines (l : list string) : string := String.concat (String LF EmptyString) l.

(** The blocks the decoder recognises in a response. *)
Definition blocksOf (response : string) : list string :=
  extractTradeBlocks (cleanResponse response).





(** A block with a symbol and no action. *)
Definition symbolOnlyResponse : string := lines ["TRADE_DECISION:"; "Symbol: BTC"].

(** The HOLD invariant of the data model. *)
Definition holdInvariant (i : TradingInstruction) : Prop :=
  action i = Some HOLD
  /\ truthyStr (reason i) = true
  /\ (exists c, confidence i = Some c /\ Qeq_bool c 0 = false)
  /\ (exists p, priority i = Some p).

Definition holdOnlyResponse : string := "Action: HOLD".

Definition holdBlockResponse : string := lines ["TRADE_DECISION:"; "Action: HOLD"; "---"].

(** Validation checks the leverage of every decoded instruction. *)
Definition leverageAlwaysChecked : Prop :=
  forall now response i l,
    In i (instructions (parseAIResponse now response)) ->
    leverage i = Some l ->
    (l < 1 \/ 50 < l)%Q ->
    In ERR_LEVERAGE (errors (validateInstruction i)).

Definition closeWithLeverageResponse : string :=
  lines ["TRADE_DECISION:"; "Action: CLOSE"; "Symbol: BTC"; "Leverage: 100";
         "Confidence: 80"].

Definition closeWithLeverage (now : Z) : TradingInstruction :=
  {| action := Some CLOSE; symbol := Some "BTCUSDT"; quantity := None;
     price := None; leverage := Some 100%Q; stopLoss := None;
     takeProfit := None; reason := None; confidence := Some 80%Q;
     priority := None; riskReward := None; maxHoldTime := None;
     timestamp := now |}.

(** The HOLD instruction of the fallback parse. *)
Definition fallbackHold (now : Z) : TradingInstruction :=
  {| action := Some HOLD; symbol := Some "ALL"; quantity := None;
     price := None; leverage := None; stopLoss := None; takeProfit := None;
     reason := Some FALLBACK_HOLD_REASON; confidence := Some 50%Q;
     priority := Some LOW; riskReward := None; maxHoldTime := None;
     timestamp := now |}.

(** A response without the marker that says "no trade" decodes to one HOLD
    instruction and the parse error about missing blocks. *)
Definition noTradeGivesHold : Prop :=
  forall now response,
    includes MARKER response = false ->
    includes "no trade" response = true ->
    (exists h, instructions (parseAIResponse now response) = [h]
               /\ action h = Some HOLD)
    /\ In ERR_NO_BLOCKS (parseErrors (parseAIResponse now response)).

(** One of the words TRADE, DECISION, ACTION, in any letter case, directly
    followed by white space or a colon. *)
Definition keywordHere (s : string) : option unit :=
  afterKeyword (fun _ r => if nextIs isWhiteOrColon r then Some tt else None) s.

Definition hasKeyword (s : string) : bool := truthy (findFirst keywordHere s).

(** A block without a confidence line. *)
Definition noConfidenceResponse : string :=
  lines ["TRADE_DECISION:"; "Action: BUY"; "Symbol: BTCUSDT"; "Quantity: 1"; "---"].

Definition noConfidenceInstruction (now : Z) : TradingInstruction :=
  {| action := Some BUY; symbol := Some "BTCUSDT"; quantity := Some 1%Q;
     price := None; leverage := None; stopLoss := None; takeProfit := None;
     reason := None; confidence := None; priority := None;
     riskReward := None; maxHoldTime := None; timestamp := now |}.

(** The line is a [key: value] pair whose key, trimmed and in lower case,
    is [k]. *)
Definition hasKey (k line : string) : bool :=
  match split ":" line with
  | key :: _ :: _ => trim (toLowerCase key) =? k
  | _ => false
  end.

(** Two decodes of a normalized text give the same result, whatever the
    clock reads at each. *)
Definition decodeIgnoresClock : Prop :=
  forall now1 now2 text,
    cleanResponse text = text ->
    parseAIResponse now1 text = parseAIResponse now2 text.

(** The result of a decode with the time stamp of every instruction
    replaced by [ts]. *)
Definition restamp (ts : Z) (r : ParseResult) : ParseResult :=
  {| instructions := map (set_timestamp ts) (instructions r);
     rawResponse := rawResponse r;
     parseErrors := parseErrors r;
     validInstructions := map (set_timestamp ts) (validInstructions r);
     invalidInstructions :=
       map (fun p => (set_timestamp ts (fst p), snd p)) (invalidInstructions r) |}.

(** The instructions a decode yields: from the fallback parse when no block
    is recognised, from the blocks otherwise. *)
Definition decoded (now : Z) (response : string) : list TradingInstruction :=
  match blocksOf response with
  | [] => pushSome (parseFallbackResponse (cleanResponse response) now)
  | blocks => parseBlocks blocks now
  end.

End DecoderSpec.

(* ===================================================================== *)
(** * A small world to run the service in *)
(* ===================================================================== *)

Module Demo.
Import Js Service.

(** The clock, the exposure the risk manager has seen so far and what the
    model answers. *)
Record World : Type := {
  clock : Z;
  exposure : Q;
  reply : string
}.

Definition tick (w : World) : World :=
  {| clock := clock w + 1; exposure := exposure w; reply := reply w |}.

Definition expose (q : Q) (w : World) : World :=
  {| clock := clock w; exposure := Qred (exposure w + q); reply := reply w |}.

Definition EXPOSURE_LIMIT : Q := 10.

(** The risk manager lets a trade through while the exposure stays within
    the limit. *)
Definition demoAssessRisk (r : RiskRequest) (w : World)
  : outcome RiskAssessment * World :=
  if Qle_bool (exposure w + riskQuantity r) EXPOSURE_LIMIT
  then (Returned {| canExecute := true; reasons := [] |}, w)
  else (Returned {| canExecute := false;
                    reasons := ["Exposure limit exceeded"] |}, w).

(** The executor fills every order and the exposure grows by its size. *)
Definition demoExecute (i : Parser.TradingInstruction) (w : World)
  : outcome ExecutionResult.t * World :=
  (Returned {| ExecutionResult.success := true;
               ExecutionResult.instruction := i;
               ExecutionResult.binanceOrderId := Some (clock w);
               ExecutionResult.executedPrice := Parser.price i;
               ExecutionResult.executedQuantity := Parser.quantity i;
               ExecutionResult.error := None;
               ExecutionResult.timestamp := clock w |},
   expose (Parser.orNum (Parser.quantity i) 0) w).

(** The collaborators; [tickerUp] and [accountUp] say whether the ticker
    and the account endpoints of the exchange answer. *)
Definition env (tickerUp accountUp : bool)
  : Environment (World := World) (AccountInfo := unit)
      (Position := unit) (Ticker := unit) (Klines := unit) :=
  {| dateNow := fun w => (clock w, tick w);
     toDateString := fun w => ("Mon Nov 02 2026", w);
     newCycleId := fun w => ("cycle_1", w);
     aiProviderName := "Demo";
     requestDecision := fun _ w =>
       (Returned {| content := reply w; model := "demo-1"; provider := "Demo" |}, w);
     getAccountInfo := fun w =>
       if accountUp then (Returned tt, w)
       else (Thrown "account endpoint down", w);
     getPositions := fun w => (Returned [], w);
     accountRejectsFirst := fun _ => true;
     get24hrTicker := fun _ w =>
       if tickerUp then (Returned tt, w) else (Thrown "ticker endpoint down", w);
     getKlines := fun _ w => (Returned tt, w);
     isOpenPosition := fun _ => true;
     assessRisk := demoAssessRisk;
     executorExecuteInstruction := demoExecute;
     sendMessage := fun _ w => (Returned tt, w);
     buildPromptText := fun _ _ _ => "prompt";
     tradeMessageText := fun _ _ => "trade executed" |}.

(** The collaborators with both the account and the positions endpoints
    down; [accountFirst] says which of the two reads rejects first. *)
Definition bothDown (accountFirst : bool)
  : Environment (World := World) (AccountInfo := unit)
      (Position := unit) (Ticker := unit) (Klines := unit) :=
  let e := env true false in
  {| dateNow := dateNow e;
     toDateString := toDateString e;
     newCycleId := newCycleId e;
     aiProviderName := aiProviderName e;
     requestDecision := requestDecision e;
     getAccountInfo := getAccountInfo e;
     getPositions := fun w => (Thrown "positions endpoint down", w);
     accountRejectsFirst := fun _ => accountFirst;
     get24hrTicker := get24hrTicker e;
     getKlines := getKlines e;
     isOpenPosition := isOpenPosition e;
     assessRisk := assessRisk e;
     executorExecuteInstruction := executorExecuteInstruction e;
     sendMessage := sendMessage e;
     buildPromptText := buildPromptText e;
     tradeMessageText := tradeMessageText e |}.

Definition config : AITradingConfig :=
  {| tradingPairs := ["BTCUSDT"; "ETHUSDT"];
     maxPositions := 5;
     maxDailyTrades := 10;
     maxPortfolioExposure := 50;
     maxPositionSize := 1000;
     minConfidenceThreshold := 70;
     technicalIndicatorsEnabled := true;
     sentimentAnalysisEnabled := false;
     telegramEnabled := false;
     dryRun := false;
     intervalSeconds := 60 |}.

Definition idle (daily : Z) : ServiceState :=
  {| isRunning := true; currentCycle := 0; totalExecutedTrades := daily;
     dailyTradeCount := daily; lastResetDate := "Mon Nov 02 2026" |}.

(** Two purchases; the first takes 8 of the 10 units of exposure. *)
Definition twoBuys : string :=
  DecoderSpec.lines
    ["TRADE_DECISION:"; "Action: BUY"; "Symbol: BTCUSDT"; "Quantity: 8";
     "Confidence: 90"; "---";
     "TRADE_DECISION:"; "Action: BUY"; "Symbol: ETHUSDT"; "Quantity: 5";
     "Confidence: 90"; "---"].

Definition buy (symbol : string) (q : Q) (ts : Z) : Parser.TradingInstruction :=
  {| Parser.action := Some Parser.BUY; Parser.symbol := Some symbol;
     Parser.quantity := Some q; Parser.price := None; Parser.leverage := None;
     Parser.stopLoss := None; Parser.takeProfit := None; Parser.reason := None;
     Parser.confidence := Some 90%Q; Parser.priority := None;
     Parser.riskReward := None; Parser.maxHoldTime := None;
     Parser.timestamp := ts |}.

Definition start (daily : Z) (answer : string) : State (World := World) :=
  {| service := idle daily;
     world := {| clock := 1000; exposure := 0; reply := answer |};
     calls := [] |}.

End Demo.

(* ===================================================================== *)
(** * Statements about the orchestrator *)
(* ===================================================================== *)

Module OrchestratorSpec.
Import Js Service.

Section Statements.

Context {World AccountInfo Position Ticker Klines : Type}.
Variable env : Environment (World := World) (AccountInfo := AccountInfo)
                 (Position := Position) (Ticker := Ticker) (Klines := Klines).
Variable config : AITradingConfig.

(** The state of a cycle right after [resetDailyCountIfNeeded]: the cycle
    has made its identifier, read the clock for its start time and read the
    date. *)
Definition stateAfterReset (st : State (World := World)) : State (World := World) :=
  snd (resetDailyCountIfNeeded env
         (snd (readWorld (dateNow env) (snd (readWorld (newCycleId env) st))))).

(** The daily limit is reached at the test of the cycle. *)
Definition capReached (st : State (World := World)) : Prop :=
  (maxDailyTrades config <= dailyTradeCount (service (stateAfterReset st)))%Z.

(** The state in which the model has answered: the call is recorded and the
    world is the one the call leaves. *)
Definition answered (st : State (World := World)) (prompt : string) (w : World)
  : State (World := World) :=
  {| service := service st; world := w;
     calls := calls st ++ [CallRequestDecision prompt] |}.

(** The state after one more reading of the clock. *)
Definition afterClock (st : State (World := World)) : State (World := World) :=
  snd (readWorld (dateNow env) st).

Definition clockOf (st : State (World := World)) : Z :=
  fst (dateNow env (world st)).

(** The identifier and the start time a cycle begun in [st] takes. *)
Definition cycleIdOf (st : State (World := World)) : string :=
  fst (newCycleId env (world st)).

Definition startTimeOf (st : State (World := World)) : Z :=
  fst (dateNow env (snd (newCycleId env (world st)))).

(** A computation that returns in every state. *)
Definition returns {A : Type} (m : M (World := World) A) : Prop :=
  forall st, exists a st', m st = (Returned a, st').

(** The state after [countTrade]. *)
Definition counted (st : State (World := World)) : State (World := World) :=
  snd (countTrade st).

End Statements.

(** A failed ticker read for a pair of the configuration makes the cycle
    that attempted it fail. *)
Definition tickerFailureFailsCycle : Prop :=
  forall (env : Environment (World := Demo.World) (AccountInfo := unit)
                  (Position := unit) (Ticker := unit) (Klines := unit))
         (config : AITradingConfig) (st st' : State (World := Demo.World))
         (symbol : string) (r : TradingCycleResult.t),
    In symbol (tradingPairs config) ->
    (forall w, exists e w', get24hrTicker env symbol w = (Thrown e, w')) ->
    executeAITradingCycle env config st = (Returned r, st') ->
    In (CallGet24hrTicker symbol) (calls st') ->
    TradingCycleResult.success r = false.

(** The instructions of [Demo.twoBuys] as the cycle decodes them. *)
Definition firstBuy : Parser.TradingInstruction := Demo.buy "BTCUSDT" 8 1002.
Definition secondBuy : Parser.TradingInstruction := Demo.buy "ETHUSDT" 5 1002.

End OrchestratorSpec.

(* ===================================================================== *)
(** * Further statements about the decoder *)
(* ===================================================================== *)

Module ParsingStats.
Record t : Type := {
  totalInstructions : nat;
  validInstructions : nat;
  invalidInstructions : nat;
  parseErrors : nat;
  successRate : Q
}.
End ParsingStats.

Module DecoderMore.
Import Js Parser DecoderSpec.

(** [getParsingStats] *)
Definition getParsingStats (result : ParseResult) : ParsingStats.t :=
  let totalInstructions := List.length (instructions result) in
  let validInstructions := List.length (validInstructions result) in
  let invalidInstructions := List.length (invalidInstructions result) in
  let parseErrors := List.length (parseErrors result) in
  {| ParsingStats.totalInstructions := totalInstructions;
     ParsingStats.validInstructions := validInstructions;
     ParsingStats.invalidInstructions := invalidInstructions;
     ParsingStats.parseErrors := parseErrors;
     ParsingStats.successRate :=
       if Nat.ltb 0 totalInstructions
       then (inject_Z (Z.of_nat validInstructions)
             / inject_Z (Z.of_nat totalInstructions) * 100)%Q
       else 0%Q |}.

(** What validation lets through: an action, a symbol among the supported
    pairs, a confidence that is not outside [0,100] and, for an action other
    than HOLD and CLOSE, a quantity or a price and a leverage that is absent,
    zero or within [1,50]. *)
Definition wellFormed (i : TradingInstruction) : Prop :=
  (exists a, action i = Some a)
  /\ (exists s, symbol i = Some s /\ In (toUpperCase s) validSymbols)
  /\ (forall c, confidence i = Some c -> (0 <= c /\ c <= 100)%Q)
  /\ (action i <> Some HOLD -> action i <> Some CLOSE ->
      (truthyNum (quantity i) = true \/ truthyNum (price i) = true)
      /\ (forall l, leverage i = Some l -> ~ (l == 0)%Q -> (1 <= l /\ l <= 50)%Q)).

(** Every character of the string satisfies [p]. *)
Fixpoint allChars (p : ascii -> bool) (s : string) : bool :=
  match s with
  | EmptyString => true
  | String c r => p c && allChars p r
  end.

Definition isStar (c : ascii) : bool := Ascii.eqb c "*".

(** The first and the last character of a string, if any. *)
Definition firstChar (s : string) : option ascii :=
  match s with String c _ => Some c | EmptyString => None end.

Fixpoint lastChar (s : string) : option ascii :=
  match s with
  | EmptyString => None
  | String c EmptyString => Some c
  | String _ r => lastChar r
  end.

(** The text holds one of the quote assets USDT and BUSD. *)
Definition hasQuote (s : string) : bool :=
  includes "USDT" s || includes "BUSD" s.

(** A response the fallback parse reads a purchase from. *)
Definition proseBuyResponse : string := "I would buy BTCUSDT now".

End DecoderMore.

(* ===================================================================== *)
(** * Further statements about the orchestrator *)
(* ===================================================================== *)

Module OrchestratorMore.
Import Js Service OrchestratorSpec.

(** The calls of the execution step: risk check, order, notification. *)
Definition isTradeCall (c : Call) : bool :=
  match c with
  | CallAssessRisk _ | CallExecuteInstruction _ | CallSendMessage _ => true
  | _ => false
  end.

(** The number of successful results. *)
Definition successes (rs : list ExecutionResult.t) : Z :=
  Z.of_nat (List.length (filter ExecutionResult.success rs)).

Section Statements.

Context {World AccountInfo Position Ticker Klines : Type}.
Variable env : Environment (World := World) (AccountInfo := AccountInfo)
                 (Position := Position) (Ticker := Ticker) (Klines := Klines).
Variable config : AITradingConfig.

(** A relation between the state a computation starts in and the state it
    ends in, whatever its completion. *)
Definition holds {A : Type}
    (I : State (World := World) -> State (World := World) -> Prop)
    (m : M (World := World) A) : Prop :=
  forall st o st', m st = (o, st') -> I st st'.

(** The fields of the service are as they were. *)
Definition sameService (st st' : State (World := World)) : Prop :=
  service st' = service st.

(** The calls made since [st] all satisfy [P]. *)
Definition callsAdded (P : Call -> Prop) (st st' : State (World := World)) : Prop :=
  exists new, calls st' = (calls st ++ new)%list /\ Forall P new.

(** The risk manager allows the instruction in the world of [st]. *)
Definition allowed (i : Parser.TradingInstruction) (st : State (World := World))
  : Prop :=
  exists a w,
    assessRisk env (riskRequest i) (world st) = (Returned a, w)
    /\ canExecute a = true.

Definition executesOnly (P : Parser.TradingInstruction -> Prop) (c : Call) : Prop :=
  match c with
  | CallExecuteInstruction i => P i
  | _ => True
  end.

(** The counters of trades are [n] higher in [st'] than in [st]; the other
    fields of the service are the same. *)
Definition tradesCounted (n : Z) (st st' : State (World := World)) : Prop :=
  isRunning (service st') = isRunning (service st)
  /\ currentCycle (service st') = currentCycle (service st)
  /\ lastResetDate (service st') = lastResetDate (service st)
  /\ totalExecutedTrades (service st') = (totalExecutedTrades (service st) + n)%Z
  /\ dailyTradeCount (service st') = (dailyTradeCount (service st) + n)%Z.

(** The date a cycle begun in [st] reads, after it has made its identifier
    and read the clock for its start time. *)
Definition todayOf (st : State (World := World)) : string :=
  fst (toDateString env (snd (dateNow env (snd (newCycleId env (world st)))))).

(** The count of the day the cycle compares with the limit. *)
Definition dailyAtStart (st : State (World := World)) : Z :=
  if (todayOf st =? lastResetDate (service st))%string
  then dailyTradeCount (service st) else 0%Z.

(** The test of the daily limit. *)
Definition skipped (st : State (World := World)) : bool :=
  (maxDailyTrades config <=? dailyAtStart st)%Z.

(** What the filter lets through. *)
Definition passedFilter (i : Parser.TradingInstruction) : Prop :=
  Parser.isValid (Parser.validateInstruction i) = true
  /\ (exists s, Parser.symbol i = Some s /\ In s (tradingPairs config))
  /\ Parser.action i <> Some Parser.HOLD
  /\ lt (Parser.confidence i) (minConfidenceThreshold config) = false.

(** Reading market data. *)
Definition isMarketCall (c : Call) : bool :=
  match c with
  | CallGetAccountInfo | CallGetPositions | CallGet24hrTicker _
  | CallGetKlines _ => true
  | _ => false
  end.

(** No call of the execution step. *)
Definition noTrade (c : Call) : Prop := isTradeCall c = false.

(** An order of the cycle whose record is [r]: for an instruction of the
    record, outside a dry run. *)
Definition orderOf (r : TradingCycleResult.t) (c : Call) : Prop :=
  executesOnly
    (fun i => In i (TradingCycleResult.instructions r) /\ dryRun config = false) c.

(** What a cycle that got past the test of the daily limit has done when
    its steps are over. *)
Definition completed (cid : string) (st st' : State (World := World))
    (r : TradingCycleResult.t) : Prop :=
  TradingCycleResult.success r = true
  /\ TradingCycleResult.error r = None
  /\ TradingCycleResult.cycleId r = cid
  /\ TradingCycleResult.aiProvider r = aiProviderName env
  /\ Forall passedFilter (TradingCycleResult.instructions r)
  /\ List.length (TradingCycleResult.executionResults r)
     = (if dryRun config then 0%nat
        else List.length (TradingCycleResult.instructions r))
  /\ isRunning (service st') = isRunning (service st)
  /\ currentCycle (service st') = (currentCycle (service st) + 1)%Z
  /\ lastResetDate (service st') = lastResetDate (service st)
  /\ totalExecutedTrades (service st')
     = (totalExecutedTrades (service st)
        + successes (TradingCycleResult.executionResults r))%Z
  /\ dailyTradeCount (service st')
     = (dailyTradeCount (service st)
        + successes (TradingCycleResult.executionResults r))%Z
  /\ callsAdded (orderOf r) st st'
  /\ (dryRun config = true -> callsAdded noTrade st st').

End Statements.

(** The small world with the notifications on. *)
Definition notifying : AITradingConfig :=
  {| tradingPairs := tradingPairs Demo.config;
     maxPositions := maxPositions Demo.config;
     maxDailyTrades := maxDailyTrades Demo.config;
     maxPortfolioExposure := maxPortfolioExposure Demo.config;
     maxPositionSize := maxPositionSize Demo.config;
     minConfidenceThreshold := minConfidenceThreshold Demo.config;
     technicalIndicatorsEnabled := technicalIndicatorsEnabled Demo.config;
     sentimentAnalysisEnabled := sentimentAnalysisEnabled Demo.config;
     telegramEnabled := true;
     dryRun := dryRun Demo.config;
     intervalSeconds := intervalSeconds Demo.config |}.

(** The small world in a dry run. *)
Definition rehearsing : AITradingConfig :=
  {| tradingPairs := tradingPairs Demo.config;
     maxPositions := maxPositions Demo.config;
     maxDailyTrades := maxDailyTrades Demo.config;
     maxPortfolioExposure := maxPortfolioExposure Demo.config;
     maxPositionSize := maxPositionSize Demo.config;
     minConfidenceThreshold := minConfidenceThreshold Demo.config;
     technicalIndicatorsEnabled := technicalIndicatorsEnabled Demo.config;
     sentimentAnalysisEnabled := sentimentAnalysisEnabled Demo.config;
     telegramEnabled := telegramEnabled Demo.config;
     dryRun := true;
     intervalSeconds := intervalSeconds Demo.config |}.

(** The collaborators of the small world with the messaging service down. *)
Definition telegramDown
  : Environment (World := Demo.World) (AccountInfo := unit)
      (Position := unit) (Ticker := unit) (Klines := unit) :=
  let e := Demo.env true true in
  {| dateNow := dateNow e;
     toDateString := toDateString e;
     newCycleId := newCycleId e;
     aiProviderName := aiProviderName e;
     requestDecision := requestDecision e;
     getAccountInfo := getAccountInfo e;
     getPositions := getPositions e;
     accountRejectsFirst := accountRejectsFirst e;
     get24hrTicker := get24hrTicker e;
     getKlines := getKlines e;
     isOpenPosition := isOpenPosition e;
     assessRisk := assessRisk e;
     executorExecuteInstruction := executorExecuteInstruction e;
     sendMessage := fun _ w => (Thrown "telegram down", w);
     buildPromptText := buildPromptText e;
     tradeMessageText := tradeMessageText e |}.

End OrchestratorMore.

(* ===================================================================== *)
(** * Further statements about the market data *)
(* ===================================================================== *)

Module MarketDataMore.
Import Js Service.

(** [l1] is [l2] with some of its elements left out. *)
Inductive subsequence {A : Type} : list A -> list A -> Prop :=
| subsequence_nil : subsequence [] []
| subsequence_skip x l1 l2 : subsequence l1 l2 -> subsequence l1 (x :: l2)
| subsequence_keep x l1 l2 : subsequence l1 l2 -> subsequence (x :: l1) (x :: l2).

(** The symbols the ticker was read for, in the order of the calls. *)
Fixpoint tickersAsked (l : list Call) : list string :=
  match l with
  | [] => []
  | CallGet24hrTicker s :: rest => s :: tickersAsked rest
  | _ :: rest => tickersAsked rest
  end.

(** The symbols the candles were read for, in the order of the calls. *)
Fixpoint klinesAsked (l : list Call) : list string :=
  match l with
  | [] => []
  | CallGetKlines s :: rest => s :: klinesAsked rest
  | _ :: rest => klinesAsked rest
  end.

(** The calls of the loop of [getSymbolData] for one symbol. *)
Definition symbolCalls (config : AITradingConfig) (s : string) : list Call :=
  CallGet24hrTicker s
  :: (if technicalIndicatorsEnabled config then [CallGetKlines s] else []).

(** The collaborators of the small world with the candles endpoint down. *)
Definition klinesDown
  : Environment (World := Demo.World) (AccountInfo := unit)
      (Position := unit) (Ticker := unit) (Klines := unit) :=
  let e := Demo.env true true in
  {| dateNow := dateNow e;
     toDateString := toDateString e;
     newCycleId := newCycleId e;
     aiProviderName := aiProviderName e;
     requestDecision := requestDecision e;
     getAccountInfo := getAccountInfo e;
     getPositions := getPositions e;
     accountRejectsFirst := accountRejectsFirst e;
     get24hrTicker := get24hrTicker e;
     getKlines := fun _ w => (Thrown "klines endpoint down", w);
     isOpenPosition := isOpenPosition e;
     assessRisk := assessRisk e;
     executorExecuteInstruction := executorExecuteInstruction e;
     sendMessage := sendMessage e;
     buildPromptText := buildPromptText e;
     tradeMessageText := tradeMessageText e |}.

End MarketDataMore.

(* ===================================================================== *)
(** * Starting and stopping the service *)
(* ===================================================================== *)

Module Lifecycle.
Import Js Service.

Section Lifecycle.

Context {World AccountInfo Position Ticker Klines : Type}.
Variable env : Environment (World := World) (AccountInfo := AccountInfo)
                 (Position := Position) (Ticker := Ticker) (Klines := Klines).
Variable config : AITradingConfig.

(** What [start] and [stop] use besides the collaborators of a cycle: the
    [validateConnection] of the provider, which a provider may lack, and
    the texts of the two notifications; the one of [stop] is made from
    [currentCycle] and [totalExecutedTrades]. *)
Record Notices : Type := {
  validateConnection : option (World -> outcome bool * World);
  startedText : string;
  stoppedText : Z -> Z -> string
}.

Variable notices : Notices.

Notation "x <- m ;; k" := (bind m (fun x => k))
  (at level 61, m at next level, right associativity).
Notation "m ;;; k" := (bind m (fun _ => k))
  (at level 61, right associativity).

(** [this.isRunning = b] *)
Definition setRunning (b : bool) : M (World := World) unit :=
  s <- getService ;;
  putService {| isRunning := b;
                currentCycle := currentCycle s;
                totalExecutedTrades := totalExecutedTrades s;
                dailyTradeCount := dailyTradeCount s;
                lastResetDate := lastResetDate s |}.

(** A call to the provider that is not one of the calls of a cycle. *)
Definition ask {A : Type} (f : World -> outcome A * World) : M A :=
  fun st =>
    let '(o, w) := f (world st) in
    (o, {| service := service st; world := w; calls := calls st |}).

Definition validateConnections : M unit :=
  tryCatch
    (call CallGetAccountInfo (getAccountInfo env) ;;; ret tt)
    (fun message => throw ("Binance connection failed: " ++ message)) ;;;
  match validateConnection notices with
  | Some validate =>
      isValid <- ask validate ;;
      if negb isValid
      then throw (aiProviderName env ++ " connection failed")
      else ret tt
  | None => ret tt
  end.

(** [startTradingLoop] sets one timer for [loop]; the value is its delay
    in milliseconds. *)
Definition startTradingLoop : M (World := World) Z := ret 0%Z.

(** [start]; the value is the delay of the timer set for [loop]. *)
Definition start : M Z :=
  s <- getService ;;
  if isRunning s then throw "AI Trading Service is already running"
  else
    validateConnections ;;;
    setRunning true ;;;
    (if telegramEnabled config
     then call (CallSendMessage (startedText notices))
               (sendMessage env (startedText notices))
     else ret tt) ;;;
    startTradingLoop.

Definition stop : M unit :=
  s <- getService ;;
  if negb (isRunning s) then ret tt
  else
    setRunning false ;;;
    s <- getService ;;
    if telegramEnabled config
    then call (CallSendMessage
                 (stoppedText notices (currentCycle s) (totalExecutedTrades s)))
              (sendMessage env
                 (stoppedText notices (currentCycle s) (totalExecutedTrades s)))
    else ret tt.

(** One run of [loop], with no other call of the service in between; the
    value is the delay of the timer it sets for its next run, if it sets
    one. *)
Definition loop : M (option Z) :=
  s <- getService ;;
  if negb (isRunning s) then ret None
  else
    tryCatch (executeAITradingCycle env config ;;; ret tt) (fun _ => ret tt) ;;;
    s <- getService ;;
    if isRunning s then ret (Some (intervalSeconds config * 1000)%Z)
    else ret None.

(** The counters are the same in both states. *)
Definition sameCounters (st st' : State (World := World)) : Prop :=
  currentCycle (service st') = currentCycle (service st)
  /\ totalExecutedTrades (service st') = totalExecutedTrades (service st)
  /\ dailyTradeCount (service st') = dailyTradeCount (service st)
  /\ lastResetDate (service st') = lastResetDate (service st).

(** Why [validateConnections] throws [e] in [st]: the account cannot be
    read, or the provider says its connection is not valid, or the
    validation of the provider itself throws. *)
Definition validationFails (st : State (World := World)) (e : string) : Prop :=
  (exists e0 w,
     getAccountInfo env (world st) = (Thrown e0, w)
     /\ e = "Binance connection failed: " ++ e0)
  \/ (exists a w validate w',
        getAccountInfo env (world st) = (Returned a, w)
        /\ validateConnection notices = Some validate
        /\ ((validate w = (Returned false, w')
             /\ e = aiProviderName env ++ " connection failed")
            \/ validate w = (Thrown e, w'))).

End Lifecycle.

(** The notices of the small world. *)
Definition demoNotices : Notices (World := Demo.World) :=
  {| validateConnection := Some (fun w => (Returned true, w));
     startedText := "started";
     stoppedText := fun _ _ => "stopped" |}.

(** The small world before [start]. *)
Definition idle : State (World := Demo.World) :=
  {| service := {| isRunning := false; currentCycle := 0;
                   totalExecutedTrades := 0; dailyTradeCount := 0;
                   lastResetDate := "Mon Nov 02 2026" |};
     world := world (Demo.start 0 Demo.twoBuys);
     calls := [] |}.

End Lifecycle.

(* ===================================================================== *)
(** * The provider *)
(* ===================================================================== *)

Module Provider.
Import Js Service.

(** The field of [AIProviderConfig] the limiter reads. *)
Record AIProviderConfig : Type := {
  rateLimitPerMinute : option Q
}.

(** The private fields of [BaseAIProvider]. *)
Record Counters : Type := {
  requestCount : Z;
  lastResetTime : Z
}.

(** What the [catch] clause of a request sees of the error: the status and
    the message of the body when there is a response, the code, and the
    message of the error itself. *)
Record ApiError : Type := {
  responseStatus : option Z;
  responseMessage : option string;
  errorCode : option string;
  errorMessage : string
}.

(** What is read from the body of an answer. *)
Record Answer : Type := {
  answerText : string;
  answerModel : string
}.

Definition RATE_LIMITED : string :=
  "Rate limit exceeded. Please wait before making another request.".

Definition CLAUDE : string := "Anthropic Claude".

(** [s.replace(/\s+/g, ' ')]: every run of white space becomes one space;
    [inRun] says that the character before was white. *)
Fixpoint collapseFrom (inRun : bool) (s : string) : string :=
  match s with
  | EmptyString => EmptyString
  | String c r =>
      if isWhite c
      then if inRun then collapseFrom true r
           else String " " (collapseFrom true r)
      else String c (collapseFrom false r)
  end.

Definition collapse (s : string) : string := collapseFrom false s.

Definition PROMPT_LIMIT : nat := N.to_nat 50000.

(** No two spaces in a row. *)
Fixpoint singleSpaced (s : string) : bool :=
  match s with
  | String c r =>
      negb (Ascii.eqb c " " && match r with
                               | String d _ => Ascii.eqb d " "
                               | EmptyString => false
                               end)
      && singleSpaced r
  | EmptyString => true
  end.

(** White space other than the space. *)
Definition isControlWhite (c : ascii) : bool :=
  isWhite c && negb (Ascii.eqb c " ").

Definition cleanPrompt (prompt : string) : string :=
  take PROMPT_LIMIT (collapse (trim prompt)).

Section Provider.

(** The world outside the provider: the clock, the vendor behind the HTTP
    client and the timers. *)
Context {World : Type}.

Record Client : Type := {
  (** [Date.now()] *)
  now : World -> Z * World;
  (** [client.post('/messages', ...)] with the content of the message, and
      the reading of the answer; a body that cannot be read is an error
      with no response and no code *)
  post : string -> World -> (ApiError + Answer) * World;
  (** waiting for a timer of the given delay *)
  sleep : Z -> World -> World;
  (** the text of a status in a template string *)
  showStatus : Z -> string
}.

Variable client : Client.
Variable config : AIProviderConfig.

(** The state a request runs in; [posted] is the content of the messages
    posted so far. *)
Record State : Type := {
  counters : Counters;
  outside : World;
  posted : list string
}.

(** The message of the error [handleApiError] throws. *)
Definition handleApiError (error : ApiError) : string :=
  match responseStatus error with
  | Some status =>
      let message := Parser.orStr (responseMessage error) (errorMessage error) in
      if (status =? 401)%Z then "Authentication failed: " ++ message
      else if (status =? 429)%Z then "Rate limit exceeded: " ++ message
      else if (status =? 500)%Z then "Provider server error: " ++ message
      else "API error (" ++ showStatus client status ++ "): " ++ message
  | None =>
      match errorCode error with
      | Some "ECONNABORTED" => "Request timeout - provider may be overloaded"
      | _ => "Unknown error: " ++ errorMessage error
      end
  end.

(** [this.config.rateLimitPerMinute || 60] *)
Definition limit : Q := Parser.orNum (rateLimitPerMinute config) 60.

Definition checkRateLimit (st : State) : bool * State :=
  let '(t, w) := now client (outside st) in
  let timeSinceReset := (t - lastResetTime (counters st))%Z in
  let c :=
    if (60000 <? timeSinceReset)%Z
    then {| requestCount := 0; lastResetTime := t |}
    else counters st in
  (negb (Qle_bool limit (inject_Z (requestCount c))),
   {| counters := c; outside := w; posted := posted st |}).

Definition incrementRequestCount (st : State) : State :=
  {| counters := {| requestCount := requestCount (counters st) + 1;
                    lastResetTime := lastResetTime (counters st) |};
     outside := outside st;
     posted := posted st |}.

Definition requestDecision (prompt : string) (st : State)
  : outcome AIResponse * State :=
  let '(allowed, st1) := checkRateLimit st in
  if negb allowed then (Thrown RATE_LIMITED, st1)
  else
    let st2 := incrementRequestCount st1 in
    let cleanedPrompt := cleanPrompt prompt in
    let '(r, w) := post client cleanedPrompt (outside st2) in
    let st3 := {| counters := counters st2; outside := w;
                  posted := posted st2 ++ [cleanedPrompt] |} in
    match r with
    | inr a =>
        let '(_, w') := now client w in
        (Returned {| content := answerText a; model := answerModel a;
                     provider := CLAUDE |},
         {| counters := counters st3; outside := w'; posted := posted st3 |})
    | inl error => (Thrown (handleApiError error), st3)
    end.

(** The state after the pause a batch makes after a response. *)
Definition paused (st : State) : State :=
  {| counters := counters st;
     outside := sleep client 2000 (outside st);
     posted := posted st |}.

(** [requestMultipleDecisions]: the responses in the order of the
    pushes. *)
Fixpoint requestMultipleDecisions (prompts : list string) (st : State)
  : list AIResponse * State :=
  match prompts with
  | [] => ([], st)
  | prompt :: rest =>
      match requestDecision prompt st with
      | (Returned response, st1) =>
          let '(responses, st2) := requestMultipleDecisions rest (paused st1) in
          (response :: responses, st2)
      | (Thrown _, st1) => requestMultipleDecisions rest st1
      end
  end.

(** The count of the window is not above what the limit admits. *)
Definition withinLimit (st : State) : Prop :=
  (0 <= requestCount (counters st))%Z
  /\ (requestCount (counters st) = 0%Z
      \/ (inject_Z (requestCount (counters st) - 1) < limit)%Q).

End Provider.

(** ** A small world for the provider *)

(** The clock and the answers still to come. *)
Record Vendor : Type := {
  time : Z;
  answers : list (ApiError + Answer)
}.

Definition timedOut : ApiError :=
  {| responseStatus := None; responseMessage := None;
     errorCode := Some "ECONNABORTED"; errorMessage := "timeout of 30000ms exceeded" |}.

Definition demoClient : Client (World := Vendor) :=
  {| now := fun w => (time w, {| time := time w + 1; answers := answers w |});
     post := fun _ w =>
       match answers w with
       | a :: rest => (a, {| time := time w + 100; answers := rest |})
       | [] => (inl timedOut, {| time := time w + 30000; answers := [] |})
       end;
     sleep := fun d w => {| time := time w + d; answers := answers w |};
     showStatus := fun _ => "status" |}.

Definition two : AIProviderConfig := {| rateLimitPerMinute := Some 2%Q |}.

Definition fresh : State (World := Vendor) :=
  {| counters := {| requestCount := 0; lastResetTime := 0 |};
     outside := {| time := 5; answers := [inr {| answerText := "HOLD"; answerModel := "m" |}] |};
     posted := [] |}.

(** A state in which the first post fails and the second is answered. *)
Definition flaky : State (World := Vendor) :=
  {| counters := {| requestCount := 0; lastResetTime := 0 |};
     outside := {| time := 5;
                   answers := [inl timedOut;
                               inr {| answerText := "HOLD"; answerModel := "m" |}] |};
     posted := [] |}.

End Provider.

(* ===================================================================== *)
(** * The vote among providers *)
(* ===================================================================== *)

Module Consensus.
Import Js.

(** An entry of [decisions]. *)
Record Decision : Type := {
  provider : string;
  decision : string;
  confidence : Z
}.

(** The value [getConsensusDecision] resolves to. *)
Record Verdict : Type := {
  consensus : bool;
  decisions : list Decision;
  finalDecision : option string
}.

(** The pattern [confidence:], white space, digits, under the [i] flag,
    anchored: the number the digits read as. *)
Definition confidenceAt (s : string) : option Z :=
  if startsWithCI "confidence:" s then
    let digits := takeWhile isDigit (dropWhile isWhite (drop 11 s)) in
    if isEmpty digits then None else Some (digitsValue 0 digits)
  else None.

Definition extractConfidence (content : string) : Z :=
  match findFirst confidenceAt content with
  | Some n => n
  | None => 50%Z
  end.

(** The pattern [action:], white space, one of [buy], [sell], [hold] and
    [close], under the [i] flag, anchored: the text of the group. *)
Definition actionAt (s : string) : option string :=
  if startsWithCI "action:" s then
    let rest := dropWhile isWhite (drop 7 s) in
    if startsWithCI "buy" rest then Some (take 3 rest)
    else if startsWithCI "sell" rest then Some (take 4 rest)
    else if startsWithCI "hold" rest then Some (take 4 rest)
    else if startsWithCI "close" rest then Some (take 5 rest)
    else None
  else None.

Definition extractAction (content : string) : string :=
  match findFirst actionAt content with
  | Some a => toUpperCase a
  | None => "HOLD"
  end.

(** The entry of [actionCounts] for [action]. *)
Definition countOf (action : string) (actions : list string) : nat :=
  List.length (filter (String.eqb action) actions).

(** [Math.max(...Object.values(actionCounts))] *)
Definition maxCount (actions : list string) : nat :=
  list_max (map (fun a => countOf a actions) actions).

Definition calculateAgreement (l : list Decision) : Q :=
  if (List.length l <? 2)%nat then 1%Q
  else
    let actions := map (fun d => extractAction (decision d)) l in
    (inject_Z (Z.of_nat (maxCount actions))
     / inject_Z (Z.of_nat (List.length l)))%Q.

(** The message of the [TypeError] of [reduce] on an empty array. *)
Definition REDUCE_EMPTY : string :=
  "Reduce of empty array with no initial value".

(** The callback of the [reduce] of [getFinalDecision]. *)
Definition higher (prev current : Decision) : Decision :=
  if (confidence current <? confidence prev)%Z then prev else current.

Definition getFinalDecision (l : list Decision) : Service.outcome string :=
  match l with
  | [] => Service.Thrown REDUCE_EMPTY
  | first :: rest => Service.Returned (decision (fold_left higher rest first))
  end.

Section Consensus.

Context {World : Type}.

(** A provider: its name and its [requestDecision]. *)
Record Voice : Type := {
  name : string;
  requestDecision :
    string -> World -> Service.outcome Service.AIResponse * World
}.

Variable providers : list Voice.

(** The requests of the [Promise.allSettled], started in the order of the
    providers, each with how it settled. *)
Fixpoint settleAll (l : list Voice) (prompt : string) (w : World)
  : list (Voice * Service.outcome Service.AIResponse) * World :=
  match l with
  | [] => ([], w)
  | p :: rest =>
      let '(o, w1) := requestDecision p prompt w in
      let '(more, w2) := settleAll rest prompt w1 in
      ((p, o) :: more, w2)
  end.

(** The loop over the settled requests. *)
Fixpoint fulfilled (l : list (Voice * Service.outcome Service.AIResponse))
  : list Decision :=
  match l with
  | [] => []
  | (p, Service.Returned value) :: rest =>
      {| provider := name p;
         decision := Service.content value;
         confidence := extractConfidence (Service.content value) |}
      :: fulfilled rest
  | (_, Service.Thrown _) :: rest => fulfilled rest
  end.

Definition getConsensusDecision (prompt : string) (threshold : Q) (w : World)
  : Service.outcome Verdict * World :=
  let '(responses, w') := settleAll providers prompt w in
  let l := fulfilled responses in
  let agreementLevel := calculateAgreement l in
  let hasConsensus := Qle_bool threshold agreementLevel in
  if hasConsensus then
    match getFinalDecision l with
    | Service.Returned d =>
        (Service.Returned {| consensus := true; decisions := l;
                             finalDecision := Some d |}, w')
    | Service.Thrown e => (Service.Thrown e, w')
    end
  else
    (Service.Returned {| consensus := false; decisions := l;
                         finalDecision := None |}, w').

End Consensus.

(** The default of [threshold]. *)
Definition DEFAULT_THRESHOLD : Q := 6 # 10.

(** A provider that is down, and one that answers. *)
Definition down : Voice (World := unit) :=
  {| name := "Down";
     requestDecision := fun _ w => (Service.Thrown "Unknown error: down", w) |}.

Definition answering (text : string) : Voice (World := unit) :=
  {| name := "Up";
     requestDecision := fun _ w =>
       (Service.Returned {| Service.content := text; Service.model := "m";
                            Service.provider := "Up" |}, w) |}.

End Consensus.

(* ===================================================================== *)
(** * The configuration from the command line *)
(* ===================================================================== *)

Module Cli.
Import Js Service.

(** [options.pairs.split(',').map(pair => pair.trim().toUpperCase())] *)
Definition parsePairs (pairs : string) : list string :=
  map (fun pair => toUpperCase (trim pair)) (split "," pairs).

Definition NO_PAIR : string := "At least one trading pair must be specified".

(** [validateConfiguration]; [connected] is what [validateConnection]
    resolved to, for a provider that has one, and [providerName] the name
    of the provider. *)
Definition validateConfiguration (providerName : string)
    (connected : option bool) (config : AITradingConfig) : outcome unit :=
  match connected with
  | Some false => Thrown ("Failed to connect to " ++ providerName)
  | _ =>
      if Nat.eqb (List.length (tradingPairs config)) 0 then Thrown NO_PAIR
      else if Qle_bool (maxPortfolioExposure config) 0
              || negb (Qle_bool (maxPortfolioExposure config) 100)
      then Thrown "Max portfolio exposure must be between 1-100%"
      else if negb (Qle_bool 0 (minConfidenceThreshold config))
              || negb (Qle_bool (minConfidenceThreshold config) 100)
      then Thrown "Confidence threshold must be between 0-100"
      else Returned tt
  end.

(** The number of commas. *)
Fixpoint commas (s : string) : nat :=
  match s with
  | EmptyString => 0
  | String c r => (if Ascii.eqb c "," then 1 else 0) + commas r
  end.

(** The configuration of the small world with the pairs read from the
    command line. *)
Definition withPairs (pairs : string) : AITradingConfig :=
  {| tradingPairs := parsePairs pairs;
     maxPositions := maxPositions Demo.config;
     maxDailyTrades := maxDailyTrades Demo.config;
     maxPortfolioExposure := maxPortfolioExposure Demo.config;
     maxPositionSize := maxPositionSize Demo.config;
     minConfidenceThreshold := minConfidenceThreshold Demo.config;
     technicalIndicatorsEnabled := technicalIndicatorsEnabled Demo.config;
     sentimentAnalysisEnabled := sentimentAnalysisEnabled Demo.config;
     telegramEnabled := telegramEnabled Demo.config;
     dryRun := dryRun Demo.config;
     intervalSeconds := intervalSeconds Demo.config |}.

End Cli.

(* ===================================================================== *)
(** * Properties of the decoder *)
(* ===================================================================== *)

Module DecoderProps.
Import Js Parser DecoderSpec.

(** ** The shape of a decode *)

Lemma parseBlocksFrom_decoder i tradeBlocks ts :
  parseBlocksFrom decoder i tradeBlocks ts
  = ([], Completed (parseBlocks tradeBlocks ts)).
Proof.
  revert i. induction tradeBlocks as [| block rest IH]; intros i; [reflexivity |].
  cbn [parseBlocksFrom decoder parseTradeBlockM]. rewrite IH. reflexivity.
Qed.

Lemma validateAll_decoder l :
  validateAll decoder l = ([], Completed (validOnes l, invalidOnes l)).
Proof.
  induction l as [| i rest IH]; [reflexivity |].
  cbn [validateAll decoder validateInstructionM]. rewrite IH.
  unfold validOnes, invalidOnes. cbn [step andThen done app fst snd filter].
  destruct (isValid (validateInstruction i)); reflexivity.
Qed.

Lemma parseAIResponse_shape now response :
  parseAIResponse now response =
  {| instructions := decoded now response;
     rawResponse := response;
     parseErrors := match blocksOf response with
                    | [] => [ERR_NO_BLOCKS]
                    | _ => []
                    end;
     validInstructions := validOnes (decoded now response);
     invalidInstructions := invalidOnes (decoded now response) |}.
Proof.
  unfold parseAIResponse, parseAIResponseWith, tryBlock, decoded, blocksOf.
  change (cleanResponseM decoder response)
    with (Completed (cleanResponse response)).
  cbn [step andThen].
  change (extractTradeBlocksM decoder (cleanResponse response))
    with (Completed (extractTradeBlocks (cleanResponse response))).
  cbn [andThen].
  destruct (extractTradeBlocks (cleanResponse response)) as [| block rest].
  - change (parseFallbackResponseM decoder (cleanResponse response) now)
      with (Completed (parseFallbackResponse (cleanResponse response) now)).
    cbn [step andThen pushError done app]. rewrite validateAll_decoder.
    reflexivity.
  - rewrite parseBlocksFrom_decoder. cbn [andThen].
    rewrite validateAll_decoder. reflexivity.
Qed.


Lemma error_makes_invalid i e :
  In e (errors (validateInstruction i)) ->
  isValid (validateInstruction i) = false.
Proof.
  unfold validateInstruction; cbn [isValid errors].
  destruct (validationErrors i); [intros [] | reflexivity].
Qed.



Lemma valid_invalid_split l :
  List.length l = List.length (validOnes l) + List.length (invalidOnes l).
Proof.
  unfold validOnes, invalidOnes. rewrite length_map.
  induction l as [| i l IH]; [reflexivity |].
  cbn [filter]. destruct (isValid (validateInstruction i)); cbn [negb List.length];
    rewrite IH; lia.
Qed.

(** *** The parts of the [try] block *)





(** The loop over the blocks never throws, and the entry of a block whose
    parse throws is pushed. *)
Lemma parseBlocksFrom_completes m i tradeBlocks ts :
  exists l, snd (parseBlocksFrom m i tradeBlocks ts) = Completed l.
Proof.
  revert i. induction tradeBlocks as [| block rest IH]; intros i.
  - exists []. reflexivity.
  - cbn [parseBlocksFrom]. destruct (IH (S i)) as (more & Hm).
    destruct (parseBlocksFrom m (S i) rest ts) as [p c]. cbn [snd] in Hm. subst c.
    destruct (parseTradeBlockM m block ts) as [o | e];
      cbn [andThen pushError done]; eexists; reflexivity.
Qed.




(** A block that has a symbol and no action is dropped without any entry,
    as the specification has it. *)
Lemma dropped_block_is_silent :
  instructions (parseAIResponse 0 symbolOnlyResponse) = []
  /\ parseErrors (parseAIResponse 0 symbolOnlyResponse) = []
  /\ invalidInstructions (parseAIResponse 0 symbolOnlyResponse) = [].
Proof. repeat split. Qed.



(** ** HOLD blocks *)

(** C3, the code at the failing input: a response that is [Action: HOLD]
    and nothing else is taken as one block by the looser pattern, the block
    has no symbol, and the decode yields no instruction at all, nor any
    parse error; the same holds inside a TRADE_DECISION block. *)
Theorem hold_without_symbol_is_dropped now :
  blocksOf holdOnlyResponse = ["Action: HOLD"]
  /\ parseTradeBlock "Action: HOLD" now = None
  /\ instructions (parseAIResponse now holdOnlyResponse) = []
  /\ parseErrors (parseAIResponse now holdOnlyResponse) = []
  /\ instructions (parseAIResponse now holdBlockResponse) = [].
Proof. repeat split. Qed.

Lemma setField_keeps_symbol key value i :
  (key =? "symbol") = false ->
  symbol (setField key value i) = symbol i.
Proof.
  intros H. unfold setField. rewrite H.
  repeat match goal with
         | |- context [if ?b then _ else _] => destruct b
         end; reflexivity.
Qed.

Lemma parseLines_keeps_symbol ls i :
  (forall line, In line ls -> hasKey "symbol" line = false) ->
  symbol (parseLines ls i) = symbol i.
Proof.
  revert i. induction ls as [| line rest IH]; intros i H; [reflexivity |].
  cbn [parseLines].
  destruct (includes "---" line); [reflexivity |].
  assert (Hrest : forall l, In l rest -> hasKey "symbol" l = false)
    by (intros l Hl; apply H; right; exact Hl).
  pose proof (H line (or_introl eq_refl)) as Hline. unfold hasKey in Hline.
  destruct (split ":" line) as [| key [| v vs]]; try (apply IH; exact Hrest).
  rewrite (IH _ Hrest). apply setField_keeps_symbol. exact Hline.
Qed.

(** The defect behind C3 in general: a block none of whose lines has the key
    [symbol] gives no instruction, whatever its action; the default symbol
    of the HOLD branch is never used. *)
Lemma no_symbol_line_no_instruction block ts :
  (forall line, In line (blockLines block) -> hasKey "symbol" line = false) ->
  parseTradeBlock block ts = None.
Proof.
  intros Hk. unfold parseTradeBlock.
  rewrite (parseLines_keeps_symbol (blockLines block) (blank ts) Hk).
  cbn [blank symbol truthyStr negb]. rewrite orb_true_r. reflexivity.
Qed.

(** What the HOLD branch of [parseTradeBlock] does give when it is reached:
    the invariant of the data model. *)
Lemma hold_block_invariant block ts i :
  parseTradeBlock block ts = Some i ->
  action i = Some HOLD ->
  holdInvariant i.
Proof.
  unfold parseTradeBlock.
  set (p := parseLines (blockLines block) (blank ts)).
  destruct (negb (truthy (action p)) || negb (truthyStr (symbol p))); [discriminate |].
  destruct (actionIs (action p) HOLD) eqn:Eh.
  - intros E _. injection E as <-. unfold holdInvariant.
    cbn [action reason confidence priority].
    split; [reflexivity |]. split; [| split].
    + unfold orStr. destruct (reason p) as [s |]; [| reflexivity].
      destruct s; reflexivity.
    + eexists. split; [reflexivity |].
      unfold orNum. destruct (confidence p) as [q |]; [| reflexivity].
      destruct (Qeq_bool q 0) eqn:Eq; [reflexivity | assumption].
    + eexists. reflexivity.
  - intros E Ha. injection E as <-. rewrite Ha in Eh. discriminate.
Qed.

(** ** Validation *)

Lemma lt_true (c b : Q) : (c < b)%Q -> lt (Some c) b = true.
Proof.
  intros H. unfold lt. apply negb_true_iff.
  destruct (Qle_bool b c) eqn:E; [| reflexivity].
  apply Qle_bool_iff in E. exfalso. exact (Qlt_not_le _ _ H E).
Qed.

Lemma gt_true (c b : Q) : (b < c)%Q -> gt (Some c) b = true.
Proof.
  intros H. unfold gt. apply negb_true_iff.
  destruct (Qle_bool c b) eqn:E; [| reflexivity].
  apply Qle_bool_iff in E. exfalso. exact (Qlt_not_le _ _ H E).
Qed.

Lemma truthyNum_true (q : Q) : ~ (q == 0)%Q -> truthyNum (Some q) = true.
Proof.
  intros H. unfold truthyNum. apply negb_true_iff.
  destruct (Qeq_bool q 0) eqn:E; [| reflexivity].
  apply Qeq_bool_iff in E. contradiction.
Qed.

Lemma isTradingAction_true i :
  action i <> Some HOLD -> action i <> Some CLOSE -> isTradingAction i = true.
Proof.
  unfold isTradingAction, actionIs. intros Hh Hc.
  destruct (action i) as [[] |]; try reflexivity; congruence.
Qed.

(** C4, the claim as stated fails: the CLOSE instruction decoded from a
    block with [Leverage: 100] passes validation without any error. *)
Lemma close_with_leverage_100_is_valid : ~ leverageAlwaysChecked.
Proof.
  intro H.
  specialize (H 0%Z closeWithLeverageResponse (closeWithLeverage 0) 100%Q).
  assert (E : errors (validateInstruction (closeWithLeverage 0)) = [])
    by reflexivity.
  rewrite E in H. apply H.
  - vm_compute. left; reflexivity.
  - reflexivity.
  - right. reflexivity.
Qed.

(** C4, amended: for every instruction, of any action, [validateInstruction]
    reports an error when the confidence lies outside [0,100]; it reports an
    error when the action is neither HOLD nor CLOSE and the leverage is
    present, not zero and outside [1,50]; for a HOLD or a CLOSE it never
    reports a leverage error. *)
Theorem validation_checks_ranges i :
  (forall c, confidence i = Some c -> (c < 0 \/ 100 < c)%Q ->
     In ERR_CONFIDENCE (errors (validateInstruction i))
     /\ isValid (validateInstruction i) = false)
  /\ (forall l, action i <> Some HOLD -> action i <> Some CLOSE ->
        leverage i = Some l -> ~ (l == 0)%Q -> (l < 1 \/ 50 < l)%Q ->
        In ERR_LEVERAGE (errors (validateInstruction i))
        /\ isValid (validateInstruction i) = false)
  /\ (action i = Some HOLD \/ action i = Some CLOSE ->
        ~ In ERR_LEVERAGE (errors (validateInstruction i))).
Proof.
  split; [| split].
  - intros c Hc Hout.
    assert (Hin : In ERR_CONFIDENCE (errors (validateInstruction i))).
    { cbn [validateInstruction errors]. unfold validationErrors.
      do 3 (apply in_or_app; right). apply in_or_app; left.
      unfold confidenceOutOfRange. rewrite Hc.
      destruct Hout as [Hlo | Hhi].
      - rewrite (lt_true _ _ Hlo). left; reflexivity.
      - rewrite (gt_true _ _ Hhi), orb_true_r. left; reflexivity. }
    split; [exact Hin | exact (error_makes_invalid _ _ Hin)].
  - intros l Hh Hcl Hl Hnz Hout.
    assert (Hin : In ERR_LEVERAGE (errors (validateInstruction i))).
    { cbn [validateInstruction errors]. unfold validationErrors.
      do 2 (apply in_or_app; right). apply in_or_app; left.
      rewrite (isTradingAction_true _ Hh Hcl).
      apply in_or_app; right.
      unfold leverageOutOfRange. rewrite Hl, (truthyNum_true _ Hnz).
      destruct Hout as [Hlo | Hhi].
      - rewrite (lt_true _ _ Hlo). left; reflexivity.
      - rewrite (gt_true _ _ Hhi), orb_true_r. left; reflexivity. }
    split; [exact Hin | exact (error_makes_invalid _ _ Hin)].
  - intros Ha.
    cbn [validateInstruction errors]. unfold validationErrors.
    assert (Ht : isTradingAction i = false).
    { unfold isTradingAction. destruct Ha as [-> | ->]; reflexivity. }
    rewrite Ht. unfold invalidSymbolErrors, pushIf.
    intros Hin.
    repeat (apply in_app_or in Hin; destruct Hin as [Hin | Hin]);
      repeat match type of Hin with
             | In _ (if ?b then _ else _) => destruct b
             | In _ (match ?o with Some _ => _ | None => _ end) => destruct o
             end;
      cbn [In] in Hin;
      repeat match type of Hin with
             | _ \/ _ => destruct Hin as [Hin | Hin]
             end;
      first [ contradiction | discriminate Hin ].
Qed.

(** A BUY with confidence 150 and a SELL with leverage 75. *)
Lemma validation_checks_ranges_witness :
  In ERR_CONFIDENCE
     (errors (validateInstruction
                (set_confidence (Some 150%Q) (closeWithLeverage 0))))
  /\ In ERR_LEVERAGE
        (errors (validateInstruction
                   (set_leverage (Some 75%Q)
                      (set_action (Some SELL) (closeWithLeverage 0))))).
Proof.
  split.
  - apply (proj1 (validation_checks_ranges
                    (set_confidence (Some 150%Q) (closeWithLeverage 0)))
                 150%Q); [reflexivity | right; reflexivity].
  - apply (proj1 (proj2 (validation_checks_ranges
                    (set_leverage (Some 75%Q)
                       (set_action (Some SELL) (closeWithLeverage 0)))))
                 75%Q); [discriminate | discriminate | reflexivity
                        | discriminate | right; reflexivity].
Defined.

(** ** Confidence *)

(** C7, the code at the failing input: a BUY block without a confidence line
    decodes to an instruction whose confidence is undefined; validation
    reports no error for it and the filter of the orchestrator, with a
    minimum confidence of 70, lets it through. *)
Theorem absent_confidence_stays_undefined now :
  instructions (parseAIResponse now noConfidenceResponse)
    = [noConfidenceInstruction now]
  /\ confidence (noConfidenceInstruction now) = None
  /\ errors (validateInstruction (noConfidenceInstruction now)) = []
  /\ Service.minConfidenceThreshold Demo.config = 70%Q
  /\ Service.filterInstructions Demo.config
       (parseAIResponse now noConfidenceResponse)
     = [noConfidenceInstruction now].
Proof. repeat split. Qed.

Lemma setField_keeps_confidence key value i :
  (key =? "confidence") = false ->
  confidence (setField key value i) = confidence i.
Proof.
  intros H. unfold setField. rewrite H.
  repeat match goal with
         | |- context [if ?b then _ else _] => destruct b
         end; reflexivity.
Qed.

Lemma parseLines_keeps_confidence ls i :
  (forall line, In line ls -> hasKey "confidence" line = false) ->
  confidence (parseLines ls i) = confidence i.
Proof.
  revert i. induction ls as [| line rest IH]; intros i H; [reflexivity |].
  cbn [parseLines].
  destruct (includes "---" line); [reflexivity |].
  assert (Hrest : forall l, In l rest -> hasKey "confidence" l = false)
    by (intros l Hl; apply H; right; exact Hl).
  pose proof (H line (or_introl eq_refl)) as Hline. unfold hasKey in Hline.
  destruct (split ":" line) as [| key [| v vs]]; try (apply IH; exact Hrest).
  rewrite (IH _ Hrest). apply setField_keeps_confidence. exact Hline.
Qed.

(** The defect behind C7 in general: a block none of whose lines has the key
    [confidence] decodes, unless it is a HOLD, to an instruction without a
    confidence. *)
Lemma no_confidence_line_leaves_undefined block ts i :
  (forall line, In line (blockLines block) -> hasKey "confidence" line = false) ->
  parseTradeBlock block ts = Some i ->
  action i <> Some HOLD ->
  confidence i = None.
Proof.
  intros Hk. unfold parseTradeBlock.
  pose proof (parseLines_keeps_confidence (blockLines block) (blank ts) Hk) as Hc.
  set (p := parseLines (blockLines block) (blank ts)) in *.
  destruct (negb (truthy (action p)) || negb (truthyStr (symbol p)));
    [discriminate |].
  destruct (actionIs (action p) HOLD).
  - intros E Ha. injection E as <-. contradiction Ha. reflexivity.
  - intros E _. injection E as <-. exact Hc.
Qed.

(** ** The fallback parse *)

Lemma fallback_hold_shape text now i :
  parseFallbackResponse text now = Some i ->
  action i = Some HOLD ->
  i = fallbackHold now.
Proof.
  unfold parseFallbackResponse.
  destruct (includes "hold" (toLowerCase text) || includes "wait" (toLowerCase text)
            || includes "no trade" (toLowerCase text)).
  - intros E _. injection E as <-. reflexivity.
  - destruct (includes "buy" (toLowerCase text) || includes "long" (toLowerCase text)).
    + destruct (negb _); [| discriminate].
      intros E Ha. injection E as <-. discriminate Ha.
    + destruct (includes "sell" (toLowerCase text) || includes "short" (toLowerCase text));
        [| discriminate].
      destruct (negb _); [| discriminate].
      intros E Ha. injection E as <-. discriminate Ha.
Qed.

(** C10: when no block is recognised and the fallback parse gives a HOLD
    instruction, that instruction has the symbol ALL, which is not among
    the supported pairs; validation gives the single error "Invalid trading
    symbol: ALL"; the instruction is the one entry of [invalidInstructions]
    and [validInstructions] is empty. *)
Theorem fallback_hold_is_invalid now response i :
  blocksOf response = [] ->
  parseFallbackResponse (cleanResponse response) now = Some i ->
  action i = Some HOLD ->
  symbol i = Some "ALL"
  /\ ~ In "ALL" validSymbols
  /\ isValid (validateInstruction i) = false
  /\ errors (validateInstruction i) = ["Invalid trading symbol: ALL"]
  /\ instructions (parseAIResponse now response) = [i]
  /\ invalidInstructions (parseAIResponse now response)
     = [(i, ["Invalid trading symbol: ALL"])]
  /\ validInstructions (parseAIResponse now response) = [].
Proof.
  intros Hb Hf Ha.
  pose proof (fallback_hold_shape _ _ _ Hf Ha) as ->.
  rewrite parseAIResponse_shape. unfold decoded. rewrite Hb, Hf.
  cbn [instructions invalidInstructions validInstructions pushSome].
  repeat split.
  intros Hin. vm_compute in Hin.
  repeat (destruct Hin as [Hin | Hin]; [discriminate Hin |]). exact Hin.
Qed.

(** The response "no trade": its HOLD is invalid. *)
Lemma fallback_hold_is_invalid_witness :
  invalidInstructions (parseAIResponse 0 "no trade")
  = [(fallbackHold 0, ["Invalid trading symbol: ALL"])]
  /\ validInstructions (parseAIResponse 0 "no trade") = [].
Proof.
  pose proof (fallback_hold_is_invalid 0 "no trade" (fallbackHold 0)
                eq_refl eq_refl eq_refl) as H.
  split; [apply H | apply H].
Defined.

(** C6, the claim as stated fails: "no trade today" has no marker and says
    "no trade", but the looser pattern takes "trade today" as a block; the
    fallback parse is not run and the decode is empty. *)
Lemma no_trade_today_gives_nothing : ~ noTradeGivesHold.
Proof.
  intro H.
  destruct (H 0%Z "no trade today" eq_refl eq_refl) as [_ Herr].
  vm_compute in Herr. exact Herr.
Qed.

(** ** When block extraction finds nothing *)

Lemma drop_drop a b s : drop a (drop b s) = drop (b + a) s.
Proof.
  revert s. induction b as [| b IH]; intros s; [reflexivity |].
  destruct s as [| c r]; cbn [drop Nat.add].
  - destruct a; reflexivity.
  - apply IH.
Qed.

Lemma findFirst_None {A : Type} (f : string -> option A) s :
  findFirst f s = None -> forall n, f (drop n s) = None.
Proof.
  induction s as [| c r IH]; cbn [findFirst]; intros H n.
  - destruct (f EmptyString) eqn:E; [discriminate |].
    destruct n; exact E.
  - destruct (f (String c r)) eqn:E; [discriminate |].
    destruct n as [| n]; [exact E | exact (IH H n)].
Qed.

Lemma findFirst_Some {A : Type} (f : string -> option A) s n a :
  f (drop n s) = Some a -> findFirst f s <> None.
Proof.
  intros H E. rewrite (findFirst_None f s E n) in H. discriminate.
Qed.

Lemma matchAllFrom_no_match (m : matcher) s :
  (forall n, m (drop n s) = None) -> matchAllFrom m 0 s = [].
Proof.
  induction s as [| c r IH]; intros H; [reflexivity |].
  cbn [matchAllFrom]. pose proof (H 0) as H0. cbn [drop] in H0.
  rewrite H0. apply IH.
  intros n. exact (H (S n)).
Qed.

Lemma matchAllFrom_nil_no_match (m : matcher) s :
  matchAllFrom m 0 s = [] ->
  forall n k, m (drop n s) = Some (S k) -> drop n s = EmptyString.
Proof.
  induction s as [| c r IH]; intros H n k E.
  - destruct n; reflexivity.
  - cbn [matchAllFrom] in H.
    destruct n as [| n].
    + cbn [drop] in E. rewrite E in H. discriminate.
    + cbn [drop] in E |- *.
      destruct (m (String c r)) as [[| j] |]; try discriminate;
        exact (IH H n k E).
Qed.

Lemma startsWithCI_app p q s :
  startsWithCI (p ++ q) s
  = startsWithCI p s && startsWithCI q (drop (String.length p) s).
Proof.
  revert s. induction p as [| a p IH]; intros s; [reflexivity |].
  destruct s as [| b s]; cbn [append startsWithCI String.length drop];
    [reflexivity |].
  rewrite IH, andb_assoc. reflexivity.
Qed.

Lemma upcase_colon c : upcase c = ":"%char -> c = ":"%char.
Proof.
  destruct c as [[] [] [] [] [] [] [] []]; vm_compute; intros H;
    first [reflexivity | discriminate H].
Qed.

Lemma startsWithCI_colon s :
  startsWithCI ":" s = true -> nextIs isWhiteOrColon s = true.
Proof.
  destruct s as [| c r]; cbn [startsWithCI nextIs]; [discriminate |].
  rewrite andb_true_r. intros H. apply Ascii.eqb_eq in H.
  symmetry in H. apply upcase_colon in H. subst c. reflexivity.
Qed.

(** Where the marker stands, the word DECISION followed by a colon stands
    six characters later. *)
Lemma marker_has_keyword s :
  startsWithCI MARKER s = true -> keywordHere (drop 6 s) = Some tt.
Proof.
  change MARKER with ("TRADE_" ++ ("DECISION" ++ ":")).
  rewrite !startsWithCI_app. cbn [String.length].
  intros H. apply andb_true_iff in H as [_ H].
  apply andb_true_iff in H as [Hd Hc].
  apply startsWithCI_colon in Hc.
  unfold keywordHere, afterKeyword.
  destruct (startsWithCI "TRADE" (drop 6 s)).
  - destruct (nextIs isWhiteOrColon (drop 5 (drop 6 s))); [reflexivity |].
    rewrite Hd, Hc. reflexivity.
  - rewrite Hd, Hc. reflexivity.
Qed.

Lemma countWhile_nextIs p s :
  Nat.eqb (countWhile p s) 0 = negb (nextIs p s).
Proof.
  destruct s as [| c r]; cbn [countWhile nextIs]; [reflexivity |].
  destruct (p c); reflexivity.
Qed.

Lemma looserTail_keyword n r :
  looserTail n r = None <-> nextIs isWhiteOrColon r = false.
Proof.
  unfold looserTail. rewrite countWhile_nextIs.
  destruct (nextIs isWhiteOrColon r); cbn [negb]; split;
    first [reflexivity | discriminate].
Qed.

Lemma looserMatch_keyword s :
  looserMatch s = None <-> keywordHere s = None.
Proof.
  unfold looserMatch, keywordHere, afterKeyword.
  destruct (startsWithCI "TRADE" s), (startsWithCI "DECISION" s),
           (startsWithCI "ACTION" s);
    repeat match goal with
           | |- context [looserTail ?n ?r] =>
               let E := fresh "E" in
               pose proof (looserTail_keyword n r) as E;
               destruct (looserTail n r), (nextIs isWhiteOrColon r)
           end;
    split; intros H;
    repeat match goal with
           | E : _ <-> _ |- _ => destruct E
           end;
    first [reflexivity | discriminate | auto; fail
          | exfalso;
            repeat match goal with
                   | F : ?a = ?a -> _ |- _ => specialize (F eq_refl)
                   end; discriminate ].
Qed.

(** Block extraction finds no block exactly when the text has none of the
    words TRADE, DECISION, ACTION followed by white space or a colon. *)
Lemma no_block_iff_no_keyword s :
  extractTradeBlocks s = [] <-> hasKeyword s = false.
Proof.
  unfold hasKeyword. split.
  - intros H. unfold extractTradeBlocks in H.
    destruct (matchAll strictMatch s) eqn:Es; [| discriminate].
    destruct (findFirst keywordHere s) as [[] |] eqn:Ef; [| reflexivity].
    exfalso.
    assert (Hk : forall n, keywordHere (drop n s) = None).
    { intros n. apply looserMatch_keyword.
      destruct (looserMatch (drop n s)) as [k |] eqn:Ek; [| reflexivity].
      exfalso.
      assert (Hpos : exists j, k = S j /\ drop n s <> EmptyString).
      { unfold looserMatch, afterKeyword, looserTail in Ek.
        destruct (drop n s) as [| c r]; [discriminate |].
        repeat match type of Ek with
               | context [if ?b then _ else _] => destruct b
               end; try discriminate;
          injection Ek as <-; eexists; (split; [reflexivity | discriminate]). }
      destruct Hpos as (j & -> & Hne).
      exact (Hne (matchAllFrom_nil_no_match looserMatch s H n j Ek)). }
    clear - Ef Hk.
    induction s as [| c r IH]; cbn [findFirst] in Ef;
      pose proof (Hk 0) as H0; cbn [drop] in H0; rewrite H0 in Ef.
    + discriminate.
    + apply IH; [exact Ef |].
      intros n. exact (Hk (S n)).
  - intros H.
    destruct (findFirst keywordHere s) eqn:Ef; [discriminate |].
    pose proof (findFirst_None _ _ Ef) as Hk.
    unfold extractTradeBlocks, matchAll.
    rewrite matchAllFrom_no_match.
    + apply matchAllFrom_no_match. intros n.
      apply looserMatch_keyword, Hk.
    + intros n. unfold strictMatch.
      destruct (startsWithCI MARKER (drop n s)) eqn:Em; [| reflexivity].
      apply marker_has_keyword in Em. rewrite drop_drop, Hk in Em.
      discriminate.
Qed.

(** C6, amended: for every response in whose normalized text block
    extraction recognises no block (neither pattern matches: the text has
    none of the words TRADE, DECISION, ACTION, in any letter case, directly
    followed by white space or a colon) and which says "no trade" in any
    letter case, the decode yields exactly one instruction, the HOLD of the
    fallback parse, and [parseErrors] is the entry "No TRADE_DECISION blocks
    found in AI response". *)
Theorem no_block_no_trade_gives_hold now response :
  blocksOf response = [] ->
  includes "no trade" (toLowerCase (cleanResponse response)) = true ->
  hasKeyword (cleanResponse response) = false
  /\ instructions (parseAIResponse now response) = [fallbackHold now]
  /\ action (fallbackHold now) = Some HOLD
  /\ parseErrors (parseAIResponse now response)
     = ["No TRADE_DECISION blocks found in AI response"].
Proof.
  intros Hb Hn. split.
  - apply no_block_iff_no_keyword. exact Hb.
  - rewrite parseAIResponse_shape. unfold decoded. rewrite Hb.
    cbn [instructions parseErrors].
    unfold parseFallbackResponse. rewrite Hn, !orb_true_r.
    repeat split.
Qed.

(** The response "no trade". *)
Lemma no_block_no_trade_gives_hold_witness :
  instructions (parseAIResponse 0 "no trade") = [fallbackHold 0]
  /\ action (fallbackHold 0) = Some HOLD
  /\ parseErrors (parseAIResponse 0 "no trade")
     = ["No TRADE_DECISION blocks found in AI response"].
Proof.
  apply (proj2 (no_block_no_trade_gives_hold 0 "no trade" eq_refl eq_refl)).
Defined.

(** ** The clock reading in a decode *)

Lemma setField_stamp key value ts i :
  setField key value (set_timestamp ts i)
  = set_timestamp ts (setField key value i).
Proof.
  unfold setField.
  repeat match goal with
         | |- context [if ?b then _ else _] => destruct b
         end; reflexivity.
Qed.

Lemma parseLines_stamp ls ts i :
  parseLines ls (set_timestamp ts i) = set_timestamp ts (parseLines ls i).
Proof.
  revert i. induction ls as [| line rest IH]; intros i; [reflexivity |].
  cbn [parseLines].
  destruct (includes "---" line); [reflexivity |].
  destruct (split ":" line) as [| key [| v vs]]; try apply IH.
  rewrite setField_stamp. apply IH.
Qed.

Lemma parseTradeBlock_stamp block now ts :
  parseTradeBlock block ts
  = option_map (set_timestamp ts) (parseTradeBlock block now).
Proof.
  unfold parseTradeBlock.
  change (blank ts) with (set_timestamp ts (blank now)).
  rewrite parseLines_stamp.
  set (p := parseLines (blockLines block) (blank now)).
  cbn [set_timestamp action symbol reason confidence priority].
  destruct (negb (truthy (action p)) || negb (truthyStr (symbol p)));
    [reflexivity |].
  destruct (actionIs (action p) HOLD); reflexivity.
Qed.

Lemma parseFallbackResponse_stamp text now ts :
  parseFallbackResponse text ts
  = option_map (set_timestamp ts) (parseFallbackResponse text now).
Proof.
  unfold parseFallbackResponse.
  repeat match goal with
         | |- context [if ?b then _ else _] => destruct b
         end; reflexivity.
Qed.

Lemma parseBlocks_stamp blocks now ts :
  parseBlocks blocks ts = map (set_timestamp ts) (parseBlocks blocks now).
Proof.
  unfold parseBlocks.
  induction blocks as [| b bs IH]; [reflexivity |].
  cbn [flat_map]. rewrite map_app, <- IH.
  rewrite (parseTradeBlock_stamp b now ts).
  destruct (parseTradeBlock b now); reflexivity.
Qed.

Lemma decoded_stamp response now ts :
  decoded ts response = map (set_timestamp ts) (decoded now response).
Proof.
  unfold decoded. destruct (blocksOf response) as [| b bs].
  - rewrite (parseFallbackResponse_stamp _ now ts).
    destruct (parseFallbackResponse (cleanResponse response) now); reflexivity.
  - apply parseBlocks_stamp.
Qed.

(** Validation does not read the time stamp. *)
Lemma validateInstruction_stamp ts i :
  validateInstruction (set_timestamp ts i) = validateInstruction i.
Proof. reflexivity. Qed.

Lemma validOnes_stamp ts l :
  validOnes (map (set_timestamp ts) l) = map (set_timestamp ts) (validOnes l).
Proof.
  unfold validOnes. induction l as [| i l IH]; [reflexivity |].
  cbn [map filter]. rewrite validateInstruction_stamp, IH.
  destruct (isValid (validateInstruction i)); reflexivity.
Qed.

Lemma invalidOnes_stamp ts l :
  invalidOnes (map (set_timestamp ts) l)
  = map (fun p => (set_timestamp ts (fst p), snd p)) (invalidOnes l).
Proof.
  unfold invalidOnes. induction l as [| i l IH]; [reflexivity |].
  cbn [map filter]. rewrite validateInstruction_stamp.
  destruct (isValid (validateInstruction i)); cbn [negb map fst snd].
  - exact IH.
  - rewrite validateInstruction_stamp, IH. reflexivity.
Qed.

Lemma parseAIResponse_stamp now ts response :
  parseAIResponse ts response = restamp ts (parseAIResponse now response).
Proof.
  rewrite !parseAIResponse_shape. unfold restamp.
  cbn [instructions rawResponse parseErrors validInstructions invalidInstructions].
  rewrite (decoded_stamp response now ts), validOnes_stamp, invalidOnes_stamp.
  reflexivity.
Qed.

(** C9, the claim as stated fails: the decode stamps every instruction with
    the reading of the clock, so two decodes of the same normalized text at
    different readings differ. *)
Lemma decodes_differ_by_time_stamp : ~ decodeIgnoresClock.
Proof.
  intro H.
  specialize (H 0%Z 1%Z Demo.twoBuys eq_refl).
  apply (f_equal instructions) in H.
  vm_compute in H. discriminate H.
Qed.

(** C9, amended: for every text that normalization leaves unchanged, two
    decodes agree in everything but the time stamps of the instructions:
    the second result is the first one with the time stamps replaced by the
    second clock reading; the results are identical when the two readings
    are equal. *)
Theorem decode_twice_same_up_to_time_stamp now1 now2 text :
  cleanResponse text = text ->
  blocksOf text = extractTradeBlocks text
  /\ parseAIResponse now2 text = restamp now2 (parseAIResponse now1 text)
  /\ restamp 0 (parseAIResponse now1 text) = restamp 0 (parseAIResponse now2 text)
  /\ (now1 = now2 -> parseAIResponse now1 text = parseAIResponse now2 text).
Proof.
  intros Hfix. split; [| split; [| split]].
  - unfold blocksOf. rewrite Hfix. reflexivity.
  - apply parseAIResponse_stamp.
  - rewrite <- !(parseAIResponse_stamp _ 0). reflexivity.
  - intros ->. reflexivity.
Qed.

(** The two purchases decoded at clock readings 0 and 1. *)
Lemma decode_twice_same_up_to_time_stamp_witness :
  parseAIResponse 1 Demo.twoBuys
  = restamp 1 (parseAIResponse 0 Demo.twoBuys).
Proof.
  apply (proj2 (decode_twice_same_up_to_time_stamp 0 1 Demo.twoBuys eq_refl)).
Defined.

End DecoderProps.

(* ===================================================================== *)
(** * Properties of the orchestrator *)
(* ===================================================================== *)

Module OrchestratorProps.
Import Js Service OrchestratorSpec.

Section Props.

Context {World AccountInfo Position Ticker Klines : Type}.
Variable env : Environment (World := World) (AccountInfo := AccountInfo)
                 (Position := Position) (Ticker := Ticker) (Klines := Klines).
Variable config : AITradingConfig.

(** ** Laws of the monad *)

Lemma bind_returned {A B : Type} (m : M A) (k : A -> M B) (st st' : State (World := World)) a :
  m st = (Returned a, st') -> bind m k st = k a st'.
Proof. intros H. unfold bind. rewrite H. reflexivity. Qed.

Lemma bind_thrown {A B : Type} (m : M A) (k : A -> M B) (st st' : State (World := World)) e :
  m st = (Thrown e, st') -> bind m k st = (Thrown e, st').
Proof. intros H. unfold bind. rewrite H. reflexivity. Qed.

Lemma tryCatch_returned {A : Type} (m : M A) h (st st' : State (World := World)) a :
  m st = (Returned a, st') -> tryCatch m h st = (Returned a, st').
Proof. intros H. unfold tryCatch. rewrite H. reflexivity. Qed.

Lemma tryCatch_thrown {A : Type} (m : M A) h (st st' : State (World := World)) e :
  m st = (Thrown e, st') -> tryCatch m h st = h e st'.
Proof. intros H. unfold tryCatch. rewrite H. reflexivity. Qed.

Lemma tryCatch_returns {A : Type} (m : M (World := World) A) h :
  (forall e, returns (h e)) -> returns (tryCatch m h).
Proof.
  intros Hh st. unfold tryCatch.
  destruct (m st) as [[a | e] st']; [eexists _, _; reflexivity | apply Hh].
Qed.

Lemma readWorld_eq {A : Type} (f : World -> A * World) (st : State (World := World)) :
  readWorld f st
  = (Returned (fst (f (world st))),
     {| service := service st; world := snd (f (world st)); calls := calls st |}).
Proof. unfold readWorld. destruct (f (world st)); reflexivity. Qed.

Lemma call_returned {A : Type} c (f : World -> outcome A * World) (st : State (World := World)) a w :
  f (world st) = (Returned a, w) ->
  call c f st
  = (Returned a, {| service := service st; world := w; calls := calls st ++ [c] |}).
Proof. intros H. unfold call. rewrite H. reflexivity. Qed.

Lemma call_thrown {A : Type} c (f : World -> outcome A * World) (st : State (World := World)) e w :
  f (world st) = (Thrown e, w) ->
  call c f st
  = (Thrown e, {| service := service st; world := w; calls := calls st ++ [c] |}).
Proof. intros H. unfold call. rewrite H. reflexivity. Qed.

Lemma resetDailyCountIfNeeded_eq (st : State (World := World)) :
  resetDailyCountIfNeeded env st
  = (Returned tt, snd (resetDailyCountIfNeeded env st))
  /\ calls (snd (resetDailyCountIfNeeded env st)) = calls st.
Proof.
  unfold resetDailyCountIfNeeded.
  rewrite (bind_returned _ _ _ _ _ (readWorld_eq _ st)).
  unfold bind, getService, putService, ret. cbn [service world calls].
  destruct (negb _); split; reflexivity.
Qed.

(** ** The daily limit *)

(** C1: when the daily count has reached the limit after the reset of the
    day, the cycle returns the "skipped" record (success, no error, no
    instructions, no execution results), makes no call to any collaborator
    (neither the market-data reads nor the model), and leaves the counters
    as the reset left them. *)
Theorem cycle_skipped_at_daily_limit (st : State (World := World)) :
  capReached env config st ->
  exists r st',
    executeAITradingCycle env config st = (Returned r, st')
    /\ TradingCycleResult.success r = true
    /\ TradingCycleResult.error r = None
    /\ TradingCycleResult.instructions r = []
    /\ TradingCycleResult.executionResults r = []
    /\ TradingCycleResult.aiResponse r = "Cycle skipped: Daily trade limit reached"
    /\ calls st' = calls st
    /\ service st' = service (stateAfterReset env st).
Proof.
  unfold capReached, stateAfterReset. intros Hcap.
  unfold executeAITradingCycle.
  rewrite (bind_returned _ _ _ _ _ (readWorld_eq _ st)).
  rewrite (bind_returned _ _ _ _ _ (readWorld_eq _ _)).
  rewrite !readWorld_eq in Hcap. cbn [snd] in Hcap.
  match goal with
  | |- context [tryCatch _ _ ?s] =>
      destruct (resetDailyCountIfNeeded_eq s) as [Er Ec]
  end.
  apply Z.leb_le in Hcap.
  eexists _, _. split.
  - eapply tryCatch_returned.
    rewrite (bind_returned _ _ _ _ _ Er).
    unfold getService at 1.
    erewrite bind_returned by reflexivity.
    rewrite Hcap. unfold createSkippedCycleResult.
    rewrite (bind_returned _ _ _ _ _ (readWorld_eq _ _)).
    rewrite (bind_returned _ _ _ _ _ (readWorld_eq _ _)).
    reflexivity.
  - cbn [TradingCycleResult.success TradingCycleResult.error
         TradingCycleResult.instructions TradingCycleResult.executionResults
         TradingCycleResult.aiResponse calls service].
    rewrite !readWorld_eq. cbn [snd].
    repeat split. exact Ec.
Qed.

(** ** Execution of the surviving instructions *)

Lemma failedExecution_eq i message (st : State (World := World)) :
  failedExecution env i message st
  = (Returned {| ExecutionResult.success := false;
                 ExecutionResult.instruction := i;
                 ExecutionResult.binanceOrderId := None;
                 ExecutionResult.executedPrice := None;
                 ExecutionResult.executedQuantity := None;
                 ExecutionResult.error := Some message;
                 ExecutionResult.timestamp := clockOf env st |},
     afterClock env st).
Proof.
  unfold failedExecution, clockOf, afterClock.
  rewrite (bind_returned _ _ _ _ _ (readWorld_eq _ st)).
  rewrite readWorld_eq. reflexivity.
Qed.

Lemma failedExecution_returns i message : returns (failedExecution env i message).
Proof. intros st. rewrite failedExecution_eq. eexists _, _; reflexivity. Qed.

Lemma executeInstruction_returns i : returns (executeInstruction env config i).
Proof. apply tryCatch_returns. intros e. apply failedExecution_returns. Qed.

Lemma executeOne_returns i : returns (executeOne env config i).
Proof. apply tryCatch_returns. intros e. apply failedExecution_returns. Qed.

(** What [executeInstruction] does when the risk manager says no: the
    executor is not called and the failure is recorded. *)
Lemma executeInstruction_rejected i (st : State (World := World)) a w :
  assessRisk env (riskRequest i) (world st) = (Returned a, w) ->
  canExecute a = false ->
  executeInstruction env config i st
  = failedExecution env i (riskError a)
      {| service := service st; world := w;
         calls := calls st ++ [CallAssessRisk (riskRequest i)] |}.
Proof.
  intros Ha Hc. unfold executeInstruction.
  eapply tryCatch_thrown.
  rewrite (bind_returned _ _ _ _ _ (call_returned _ _ _ _ _ Ha)).
  rewrite Hc. cbn [negb]. eapply bind_thrown. reflexivity.
Qed.

Lemma countTrade_eq (st : State (World := World)) :
  countTrade st = (Returned tt, counted st).
Proof. reflexivity. Qed.

Lemma executeOne_eq i (st st' : State (World := World)) r :
  executeInstruction env config i st = (Returned r, st') ->
  executeOne env config i st
  = (Returned r, if ExecutionResult.success r then counted st' else st').
Proof.
  intros H. unfold executeOne. eapply tryCatch_returned.
  rewrite (bind_returned _ _ _ _ _ H).
  destruct (ExecutionResult.success r).
  - rewrite (bind_returned _ _ _ _ _ (countTrade_eq st')). reflexivity.
  - erewrite bind_returned by reflexivity. reflexivity.
Qed.

Lemma executeAll_returns l (st : State (World := World)) :
  exists rs st',
    executeAll env config l st = (Returned rs, st')
    /\ List.length rs = List.length l.
Proof.
  revert st. induction l as [| i l IH]; intros st.
  - eexists _, _. split; reflexivity.
  - destruct (executeOne_returns i st) as (r & st1 & E1).
    destruct (IH st1) as (rs & st2 & E2 & Hl).
    exists (r :: rs), st2. split.
    + cbn [executeAll].
      rewrite (bind_returned _ _ _ _ _ E1), (bind_returned _ _ _ _ _ E2).
      reflexivity.
    + cbn [List.length]. rewrite Hl. reflexivity.
Qed.

Lemma executeAll_app l1 l2 (st st1 st2 : State (World := World)) rs1 rs2 :
  executeAll env config l1 st = (Returned rs1, st1) ->
  executeAll env config l2 st1 = (Returned rs2, st2) ->
  executeAll env config (l1 ++ l2) st = (Returned (rs1 ++ rs2)%list, st2).
Proof.
  revert st rs1. induction l1 as [| i l1 IH]; intros st rs1 E1 E2.
  - injection E1 as <- <-. exact E2.
  - cbn [executeAll app] in E1 |- *.
    destruct (executeOne_returns i st) as (r & sta & Ea).
    rewrite (bind_returned _ _ _ _ _ Ea) in E1.
    rewrite (bind_returned _ _ _ _ _ Ea).
    destruct (executeAll_returns l1 sta) as (rs & stb & Eb & _).
    rewrite (bind_returned _ _ _ _ _ Eb) in E1.
    injection E1 as <- <-.
    rewrite (bind_returned _ _ _ _ _ (IH _ _ Eb E2)). reflexivity.
Qed.

Lemma rejection_in_loop l1 i l2 (st : State (World := World)) :
  exists rs1 st1 r st2 rs2 st3,
    executeAll env config l1 st = (Returned rs1, st1)
    /\ executeOne env config i st1 = (Returned r, st2)
    /\ executeAll env config l2 st2 = (Returned rs2, st3)
    /\ executeAll env config (l1 ++ i :: l2) st
       = (Returned (rs1 ++ r :: rs2)%list, st3)
    /\ List.length rs1 = List.length l1
    /\ List.length rs2 = List.length l2
    /\ (forall a w,
          assessRisk env (riskRequest i) (world st1) = (Returned a, w) ->
          canExecute a = false ->
          ExecutionResult.success r = false
          /\ ExecutionResult.instruction r = i
          /\ ExecutionResult.error r = Some (riskError a)
          /\ service st2 = service st1
          /\ calls st2 = (calls st1 ++ [CallAssessRisk (riskRequest i)])%list).
Proof.
  destruct (executeAll_returns l1 st) as (rs1 & st1 & E1 & H1).
  destruct (executeOne_returns i st1) as (r & st2 & E2).
  destruct (executeAll_returns l2 st2) as (rs2 & st3 & E3 & H3).
  exists rs1, st1, r, st2, rs2, st3.
  repeat (split; [assumption |]). split; [| split; [| split]]; try assumption.
  - apply (executeAll_app l1 (i :: l2) st st1 st3 rs1 (r :: rs2) E1).
    cbn [executeAll].
    rewrite (bind_returned _ _ _ _ _ E2), (bind_returned _ _ _ _ _ E3).
    reflexivity.
  - intros a w Ha Hc.
    pose proof (executeInstruction_rejected i st1 a w Ha Hc) as Ei.
    rewrite failedExecution_eq in Ei.
    rewrite (executeOne_eq _ _ _ _ Ei) in E2.
    cbn [ExecutionResult.success] in E2.
    injection E2 as <- <-.
    unfold afterClock. rewrite readWorld_eq.
    repeat split.
Qed.

(** ** The cycle below the daily limit *)

Lemma cycle_below_limit (st : State (World := World)) :
  ~ capReached env config st ->
  executeAITradingCycle env config st
  = tryCatch (runCycle env config (cycleIdOf env st) (startTimeOf env st))
             (fun message =>
                cycleFailed env (cycleIdOf env st) (startTimeOf env st)
                  (caughtError message))
             (stateAfterReset env st).
Proof.
  unfold capReached, stateAfterReset, cycleIdOf, startTimeOf. intros Hcap.
  unfold executeAITradingCycle.
  rewrite (bind_returned _ _ _ _ _ (readWorld_eq _ st)).
  rewrite (bind_returned _ _ _ _ _ (readWorld_eq _ _)).
  rewrite !readWorld_eq in Hcap |- *. cbn [snd world] in Hcap |- *.
  match goal with
  | |- tryCatch _ _ ?s = _ =>
      destruct (resetDailyCountIfNeeded_eq s) as [Er _]
  end.
  apply Z.leb_nle in Hcap.
  unfold tryCatch at 1 2.
  rewrite (bind_returned _ _ _ _ _ Er).
  unfold getService at 1.
  erewrite bind_returned by reflexivity.
  rewrite Hcap. reflexivity.
Qed.

Lemma createFailedCycleResult_eq cid t0 message (st : State (World := World)) :
  exists r st',
    createFailedCycleResult env cid message t0 st = (Returned r, st')
    /\ TradingCycleResult.success r = false
    /\ TradingCycleResult.error r = message
    /\ TradingCycleResult.instructions r = []
    /\ TradingCycleResult.executionResults r = []
    /\ calls st' = calls st
    /\ service st' = service st.
Proof.
  unfold createFailedCycleResult.
  rewrite (bind_returned _ _ _ _ _ (readWorld_eq _ st)).
  rewrite (bind_returned _ _ _ _ _ (readWorld_eq _ _)).
  eexists _, _. split; [reflexivity | repeat split].
Qed.

Lemma cycleFailed_eq cid t0 message (st : State (World := World)) :
  exists r st',
    cycleFailed env cid t0 (caughtError message) st = (Returned r, st')
    /\ TradingCycleResult.success r = false
    /\ TradingCycleResult.error r = Some message
    /\ TradingCycleResult.instructions r = []
    /\ TradingCycleResult.executionResults r = []
    /\ calls st' = calls st
    /\ service st' = service st.
Proof.
  destruct (createFailedCycleResult_eq cid t0 (Some message) st)
    as (r & st' & E & H).
  exists r, st'. split; [| exact H].
  unfold cycleFailed, caughtError, messageOf, logCycleResult.
  erewrite bind_returned by reflexivity.
  rewrite (bind_returned _ _ _ _ _ E).
  erewrite bind_returned by reflexivity. reflexivity.
Qed.

(** ** Gathering market data *)

Lemma started_eq {A : Type} (m : M A) (st st' : State (World := World)) o :
  m st = (o, st') -> started m st = (Returned o, st').
Proof. intros H. unfold started. rewrite H. reflexivity. Qed.

Lemma call_eq {A : Type} c (f : World -> outcome A * World)
    (st : State (World := World)) :
  call c f st
  = (fst (f (world st)),
     {| service := service st; world := snd (f (world st));
        calls := (calls st ++ [c])%list |}).
Proof. unfold call. destruct (f (world st)); reflexivity. Qed.

Lemma getTechnicalIndicators_neutral symbol (st : State (World := World)) :
  exists st',
    getTechnicalIndicators env config symbol st = (Returned neutralIndicators, st').
Proof.
  unfold getTechnicalIndicators.
  destruct (negb (technicalIndicatorsEnabled config)).
  - eexists; reflexivity.
  - unfold tryCatch, bind. rewrite call_eq.
    destruct (fst (getKlines env symbol (world st))); eexists; reflexivity.
Qed.

Lemma getOneSymbol_returns symbol : returns (getOneSymbol env config symbol).
Proof.
  apply tryCatch_returns. intros e st. eexists _, _; reflexivity.
Qed.

Lemma getOneSymbol_ticker_failed symbol (st : State (World := World)) e w :
  get24hrTicker env symbol (world st) = (Thrown e, w) ->
  exists st', getOneSymbol env config symbol st = (Returned [], st').
Proof.
  intros Ht. unfold getOneSymbol.
  pose proof (started_eq _ _ _ _ (call_thrown (CallGet24hrTicker symbol) _ st e w Ht)) as E1.
  match type of E1 with
  | _ = (_, ?s1) =>
      destruct (getTechnicalIndicators_neutral symbol s1) as (s2 & E2)
  end.
  apply started_eq in E2.
  eexists. eapply eq_trans.
  - eapply tryCatch_thrown.
    rewrite (bind_returned _ _ _ _ _ E1), (bind_returned _ _ _ _ _ E2).
    eapply bind_thrown. reflexivity.
  - reflexivity.
Qed.

Lemma getSymbolDataFor_returns pairs : returns (getSymbolDataFor env config pairs).
Proof.
  induction pairs as [| symbol rest IH]; intros st.
  - eexists _, _; reflexivity.
  - destruct (getOneSymbol_returns symbol st) as (one & st1 & E1).
    destruct (IH st1) as (more & st2 & E2).
    eexists _, _. cbn [getSymbolDataFor].
    rewrite (bind_returned _ _ _ _ _ E1), (bind_returned _ _ _ _ _ E2).
    reflexivity.
Qed.

Lemma gather_started (st : State (World := World)) :
  gatherMarketData env config st
  = bind (awaitAll env (fst (getAccountInfo env (world st)))
            (fst (getPositions env (snd (getAccountInfo env (world st))))))
      (fun both =>
         bind (await (Returned tt))
           (fun _ =>
              bind (getSymbolData env config)
                (fun symbolData =>
                   bind (analyzeTrends symbolData)
                     (fun trendAnalysis =>
                        bind (readWorld (dateNow env))
                          (fun now =>
                             ret {| marketTimestamp := now;
                                    symbols := symbolData;
                                    accountInfo := fst both;
                                    currentPositions :=
                                      filter (isOpenPosition env) (snd both);
                                    marketTrends := trendAnalysis;
                                    riskMetrics :=
                                      calculateRiskMetrics (snd both) (fst both) |})))))
      {| service := service st;
         world := snd (getPositions env (snd (getAccountInfo env (world st))));
         calls := (calls st ++ [CallGetAccountInfo; CallGetPositions])%list |}.
Proof.
  unfold gatherMarketData.
  rewrite (bind_returned _ _ _ _ _ (started_eq _ _ _ _ (call_eq _ _ _))).
  rewrite (bind_returned _ _ _ _ _ (started_eq _ _ _ _ (call_eq _ _ _))).
  rewrite (bind_returned _ _ _ _ _
             (started_eq getPriceData _ _ (Returned tt) eq_refl)).
  cbn [world service calls]. rewrite <- app_assoc. reflexivity.
Qed.

(** A failed read of the account: the gathering throws the error of the
    read that rejects first, which is the one of the account unless the
    read of the positions fails as well and rejects before it. *)
Lemma gather_account_failed (st : State (World := World)) e w :
  getAccountInfo env (world st) = (Thrown e, w) ->
  exists e' st',
    gatherMarketData env config st = (Thrown e', st')
    /\ calls st' = (calls st ++ [CallGetAccountInfo; CallGetPositions])%list
    /\ (e' = e \/ exists w', getPositions env w = (Thrown e', w'))
    /\ ((exists p w', getPositions env w = (Returned p, w')) -> e' = e)
    /\ (accountRejectsFirst env (world st') = true -> e' = e).
Proof.
  intros Ha. rewrite gather_started, Ha. cbn [fst snd].
  unfold bind, awaitAll. cbn [world].
  destruct (getPositions env w) as [[p | ep] w'] eqn:Ep; cbn [fst snd].
  - exists e. eexists. split; [reflexivity |]. split; [reflexivity |].
    split; [left; reflexivity |]. split; reflexivity.
  - destruct (accountRejectsFirst env w') eqn:Ef.
    + exists e. eexists. split; [reflexivity |]. split; [reflexivity |].
      split; [left; reflexivity |]. split; reflexivity.
    + exists ep. eexists. split; [reflexivity |]. split; [reflexivity |].
      split; [right; exists w'; reflexivity |]. split.
      * intros (p & w'' & H). discriminate H.
      * cbn [world]. intros H. congruence.
Qed.

(** A failed read of the positions after a read of the account that
    returned: the gathering throws its error. *)
Lemma gather_positions_failed (st : State (World := World)) a w e w' :
  getAccountInfo env (world st) = (Returned a, w) ->
  getPositions env w = (Thrown e, w') ->
  exists st',
    gatherMarketData env config st = (Thrown e, st')
    /\ calls st' = (calls st ++ [CallGetAccountInfo; CallGetPositions])%list.
Proof.
  intros Ha Hp. rewrite gather_started, Ha. cbn [fst snd]. rewrite Hp.
  cbn [fst snd]. eexists. split; [reflexivity | reflexivity].
Qed.

Lemma cycle_gather_failed (st st1 : State (World := World)) e :
  ~ capReached env config st ->
  gatherMarketData env config (stateAfterReset env st) = (Thrown e, st1) ->
  exists r st',
    executeAITradingCycle env config st = (Returned r, st')
    /\ TradingCycleResult.success r = false
    /\ TradingCycleResult.error r = Some e
    /\ TradingCycleResult.instructions r = []
    /\ TradingCycleResult.executionResults r = []
    /\ calls st' = calls st1.
Proof.
  intros Hcap Hg. rewrite (cycle_below_limit st Hcap).
  destruct (cycleFailed_eq (cycleIdOf env st) (startTimeOf env st) e st1)
    as (r & st' & E & H1 & H2 & H3 & H4 & H5 & _).
  exists r, st'. split; [| repeat split; assumption].
  assert (Hr : runCycle env config (cycleIdOf env st) (startTimeOf env st)
                 (stateAfterReset env st) = (Thrown e, st1)).
  { unfold runCycle. eapply bind_thrown. exact Hg. }
  rewrite (tryCatch_thrown _ _ _ _ _ Hr). exact E.
Qed.

(** ** The cycle that reaches execution *)

Lemma createSuccessfulCycleResult_eq cid resp l rs t0 (st : State (World := World)) :
  exists r st',
    createSuccessfulCycleResult env cid resp l rs t0 st = (Returned r, st')
    /\ TradingCycleResult.success r = true
    /\ TradingCycleResult.instructions r = l
    /\ TradingCycleResult.executionResults r = rs
    /\ calls st' = calls st.
Proof.
  unfold createSuccessfulCycleResult.
  rewrite (bind_returned _ _ _ _ _ (readWorld_eq _ st)).
  rewrite (bind_returned _ _ _ _ _ (readWorld_eq _ _)).
  eexists _, _. split; [reflexivity | repeat split].
Qed.

Lemma cycle_records_results (st st1 : State (World := World)) md resp w :
  ~ capReached env config st ->
  dryRun config = false ->
  gatherMarketData env config (stateAfterReset env st) = (Returned md, st1) ->
  requestDecision env
    (buildPromptText env config md (dailyTradeCount (service st1))) (world st1)
  = (Returned resp, w) ->
  exists rs st3 r st',
    executeAll env config
      (filterInstructions config
         (Parser.parseAIResponse
            (clockOf env (answered st1
               (buildPromptText env config md (dailyTradeCount (service st1))) w))
            (content resp)))
      (afterClock env (answered st1
         (buildPromptText env config md (dailyTradeCount (service st1))) w))
    = (Returned rs, st3)
    /\ executeAITradingCycle env config st = (Returned r, st')
    /\ TradingCycleResult.executionResults r = rs
    /\ TradingCycleResult.success r = true.
Proof.
  intros Hcap Hdry Hg Hreq.
  set (prompt := buildPromptText env config md (dailyTradeCount (service st1))) in *.
  set (st2 := answered st1 prompt w).
  set (valid := filterInstructions config
                  (Parser.parseAIResponse (clockOf env st2) (content resp))).
  destruct (executeAll_returns valid (afterClock env st2)) as (rs & st3 & Ex & _).
  destruct (createSuccessfulCycleResult_eq (cycleIdOf env st) resp valid rs
              (startTimeOf env st) st3) as (r & st4 & Ec & Hs & _ & Hr & _).
  exists rs, st3, r. eexists. split; [exact Ex |]. split; [| split; assumption].
  rewrite (cycle_below_limit st Hcap).
  eapply tryCatch_returned. unfold runCycle.
  rewrite (bind_returned _ _ _ _ _ Hg).
  erewrite (bind_returned (buildPrompt env config md)) by reflexivity.
  rewrite (bind_returned _ _ _ _ _ (call_returned _ _ _ _ _ Hreq)).
  rewrite (bind_returned _ _ _ _ _ (readWorld_eq _ _)).
  fold prompt. fold (answered st1 prompt w). fold st2.
  change (fst (dateNow env (world st2))) with (clockOf env st2).
  fold valid.
  assert (Eloop :
    (if negb (dryRun config) && negb (Nat.eqb (List.length valid) 0)
     then executeAll env config valid
     else ret [])
      {| service := service st2; world := snd (dateNow env (world st2));
         calls := calls st2 |}
    = (Returned rs, st3)).
  { rewrite Hdry. cbn [negb andb].
    unfold afterClock in Ex. rewrite readWorld_eq in Ex. cbn [snd] in Ex.
    destruct valid; [exact Ex | exact Ex]. }
  rewrite (bind_returned _ _ _ _ _ Eloop).
  rewrite (bind_returned _ _ _ _ _ Ec).
  unfold logCycleResult.
  erewrite bind_returned by reflexivity.
  erewrite bind_returned by reflexivity.
  reflexivity.
Qed.

(** C5: in the loop over the surviving instructions every instruction gets
    one result, in order, whatever happens to the others: the results of
    the instructions before a given one are those the loop gives for them
    alone, and the loop goes on with the instructions after it.  When the
    risk manager rejects the instruction, its result has [success = false],
    carries the instruction and the reasons, the executor is not called and
    no trade is counted.  The record of a cycle that reaches execution
    holds exactly the results of the loop, and the cycle succeeds. *)
Theorem rejected_instruction_fails_alone :
  (forall l1 i l2 (st : State (World := World)),
     exists rs1 st1 r st2 rs2 st3,
       executeAll env config l1 st = (Returned rs1, st1)
       /\ executeOne env config i st1 = (Returned r, st2)
       /\ executeAll env config l2 st2 = (Returned rs2, st3)
       /\ executeAll env config (l1 ++ i :: l2) st
          = (Returned (rs1 ++ r :: rs2)%list, st3)
       /\ List.length rs1 = List.length l1
       /\ List.length rs2 = List.length l2
       /\ (forall a w,
             assessRisk env (riskRequest i) (world st1) = (Returned a, w) ->
             canExecute a = false ->
             ExecutionResult.success r = false
             /\ ExecutionResult.instruction r = i
             /\ ExecutionResult.error r = Some (riskError a)
             /\ service st2 = service st1
             /\ calls st2 = (calls st1 ++ [CallAssessRisk (riskRequest i)])%list))
  /\ (forall (st st1 : State (World := World)) md resp w,
        ~ capReached env config st ->
        dryRun config = false ->
        gatherMarketData env config (stateAfterReset env st) = (Returned md, st1) ->
        requestDecision env
          (buildPromptText env config md (dailyTradeCount (service st1)))
          (world st1)
        = (Returned resp, w) ->
        exists rs st3 r st',
          executeAll env config
            (filterInstructions config
               (Parser.parseAIResponse
                  (clockOf env (answered st1
                     (buildPromptText env config md
                        (dailyTradeCount (service st1))) w))
                  (content resp)))
            (afterClock env (answered st1
               (buildPromptText env config md
                  (dailyTradeCount (service st1))) w))
          = (Returned rs, st3)
          /\ executeAITradingCycle env config st = (Returned r, st')
          /\ TradingCycleResult.executionResults r = rs
          /\ TradingCycleResult.success r = true).
Proof.
  split.
  - intros l1 i l2 st. apply rejection_in_loop.
  - intros st st1 md resp w. apply cycle_records_results.
Qed.

(** C8, amended: a failed read of the account information or of the open
    positions makes [gatherMarketData] throw after the two reads and no
    other call: the error is the one of the read that failed and, when
    both reads fail, the one of the read that rejects first, whichever of
    the two that is.  A cycle below the daily limit whose gathering throws
    returns a failed record with the message, without any further call.  A
    failed ticker read is caught for its symbol: the symbol is left out of
    the data, and the gathering of the symbols never throws.  The
    indicators of a symbol are always the neutral values, whether the
    candle read fails or not. *)
Theorem read_failures_in_gathering :
  (forall (st : State (World := World)) e w,
     getAccountInfo env (world st) = (Thrown e, w) ->
     exists e' st',
       gatherMarketData env config st = (Thrown e', st')
       /\ calls st' = (calls st ++ [CallGetAccountInfo; CallGetPositions])%list
       /\ (e' = e \/ exists w', getPositions env w = (Thrown e', w'))
       /\ ((exists p w', getPositions env w = (Returned p, w')) -> e' = e)
       /\ (accountRejectsFirst env (world st') = true -> e' = e))
  /\ (forall (st : State (World := World)) a w e w',
        getAccountInfo env (world st) = (Returned a, w) ->
        getPositions env w = (Thrown e, w') ->
        exists st',
          gatherMarketData env config st = (Thrown e, st')
          /\ calls st' = (calls st ++ [CallGetAccountInfo; CallGetPositions])%list)
  /\ (forall (st st1 : State (World := World)) e,
        ~ capReached env config st ->
        gatherMarketData env config (stateAfterReset env st) = (Thrown e, st1) ->
        exists r st',
          executeAITradingCycle env config st = (Returned r, st')
          /\ TradingCycleResult.success r = false
          /\ TradingCycleResult.error r = Some e
          /\ TradingCycleResult.instructions r = []
          /\ TradingCycleResult.executionResults r = []
          /\ calls st' = calls st1)
  /\ (forall symbol (st : State (World := World)) e w,
        get24hrTicker env symbol (world st) = (Thrown e, w) ->
        exists st', getOneSymbol env config symbol st = (Returned [], st'))
  /\ (forall pairs, returns (getSymbolDataFor env config pairs))
  /\ (forall symbol (st : State (World := World)),
        exists st',
          getTechnicalIndicators env config symbol st
          = (Returned neutralIndicators, st')).
Proof.
  split; [exact gather_account_failed |].
  split; [exact gather_positions_failed |].
  split; [exact cycle_gather_failed |].
  split; [exact getOneSymbol_ticker_failed |].
  split; [exact getSymbolDataFor_returns |].
  exact getTechnicalIndicators_neutral.
Qed.

End Props.

(** ** The service in the small world *)

Lemma cycle_skipped_at_daily_limit_witness :
  exists r st',
    executeAITradingCycle (Demo.env true true) Demo.config
      (Demo.start 10 Demo.twoBuys) = (Returned r, st')
    /\ TradingCycleResult.success r = true
    /\ TradingCycleResult.instructions r = []
    /\ TradingCycleResult.executionResults r = []
    /\ calls st' = [].
Proof.
  destruct (cycle_skipped_at_daily_limit (Demo.env true true) Demo.config
              (Demo.start 10 Demo.twoBuys))
    as (r & st' & E & Hs & _ & Hi & Hx & _ & Hc & _).
  - unfold capReached. vm_compute. discriminate.
  - exists r, st'. repeat split; assumption.
Defined.

(** No trade done today: the limit of ten is not reached. *)
Lemma below_limit_at_start tickerUp accountUp :
  ~ capReached (Demo.env tickerUp accountUp) Demo.config
      (Demo.start 0 Demo.twoBuys).
Proof. unfold capReached. vm_compute. intros H. apply H. reflexivity. Qed.

(** Two purchases of 8 and 5 units against an exposure limit of 10: the
    first is executed, the second is rejected by the risk manager, and both
    results are in the record of the cycle. *)
Lemma rejected_instruction_fails_alone_witness :
  (exists rs st',
     executeAll (Demo.env true true) Demo.config [firstBuy; secondBuy]
       (Demo.start 0 Demo.twoBuys) = (Returned rs, st')
     /\ map ExecutionResult.success rs = [true; false])
  /\ (exists r st',
        executeAITradingCycle (Demo.env true true) Demo.config
          (Demo.start 0 Demo.twoBuys) = (Returned r, st')
        /\ map ExecutionResult.success (TradingCycleResult.executionResults r)
           = [true; false]).
Proof.
  split.
  - destruct (proj1 (rejected_instruction_fails_alone (Demo.env true true) Demo.config)
                [firstBuy] secondBuy [] (Demo.start 0 Demo.twoBuys))
      as (rs1 & st1 & r & st2 & rs2 & st3 & E1 & E2 & E3 & E4 & _ & _ & Hrej).
    vm_compute in E1. injection E1 as <- <-.
    injection E3 as <- <-.
    destruct (Hrej _ _ eq_refl eq_refl) as (Hs & _).
    eexists _, _. split; [exact E4 |].
    cbn [map app]. rewrite Hs. reflexivity.
  - destruct (proj2 (rejected_instruction_fails_alone (Demo.env true true) Demo.config)
                (Demo.start 0 Demo.twoBuys) _ _ _ _
                (below_limit_at_start true true) eq_refl eq_refl eq_refl)
      as (rs & st3 & r & st' & Ex & Ec & Hr & _).
    exists r, st'. split; [exact Ec |].
    rewrite Hr. vm_compute in Ex. injection Ex as <- _. reflexivity.
Defined.

(** C8, the claim as stated fails: with a ticker endpoint that never
    answers, the cycle attempts the ticker read of BTCUSDT, goes on to ask
    the model and to trade, and returns a successful record. *)
Lemma ticker_failure_leaves_cycle_successful : ~ tickerFailureFailsCycle.
Proof.
  intro H.
  destruct (executeAITradingCycle (Demo.env false true) Demo.config
              (Demo.start 0 Demo.twoBuys)) as [[r | e] st'] eqn:E.
  - pose proof (H (Demo.env false true) Demo.config
                  (Demo.start 0 Demo.twoBuys) st' "BTCUSDT" r
                  (or_introl eq_refl)
                  (fun w => ex_intro _ _ (ex_intro _ w eq_refl)) E) as Hf.
    vm_compute in E. injection E as <- <-.
    cbn [calls] in Hf.
    assert (Hfalse : true = false).
    { apply Hf. do 2 right. left. reflexivity. }
    discriminate Hfalse.
  - vm_compute in E. discriminate E.
Qed.

(** With the account endpoint down the cycle returns a failed record that
    carries the message.  With the positions endpoint down as well, the
    record carries the message of the read that rejects first. *)
Lemma read_failures_in_gathering_witness :
  (exists r st',
     executeAITradingCycle (Demo.env true false) Demo.config
       (Demo.start 0 Demo.twoBuys) = (Returned r, st')
     /\ TradingCycleResult.success r = false
     /\ TradingCycleResult.error r = Some "account endpoint down")
  /\ (exists r st',
        executeAITradingCycle (Demo.bothDown false) Demo.config
          (Demo.start 0 Demo.twoBuys) = (Returned r, st')
        /\ TradingCycleResult.success r = false
        /\ TradingCycleResult.error r = Some "positions endpoint down").
Proof.
  split.
  - destruct (read_failures_in_gathering (Demo.env true false) Demo.config)
      as (H1 & _ & H3 & _).
    destruct (H1 (stateAfterReset (Demo.env true false)
                    (Demo.start 0 Demo.twoBuys))
                 "account endpoint down" _ eq_refl)
      as (e' & st1 & Hg & _ & _ & He' & _).
    assert (Ee : e' = "account endpoint down").
    { apply He'. eexists _, _. reflexivity. }
    subst e'.
    destruct (H3 (Demo.start 0 Demo.twoBuys) st1 _
                 (below_limit_at_start true false) Hg)
      as (r & st' & E & Hs & He & _).
    exists r, st'. repeat split; assumption.
  - destruct (read_failures_in_gathering (Demo.bothDown false) Demo.config)
      as (H1 & _ & H3 & _).
    destruct (H1 (stateAfterReset (Demo.bothDown false)
                    (Demo.start 0 Demo.twoBuys))
                 "account endpoint down" _ eq_refl)
      as (e' & st1 & Hg & _ & _ & _ & _).
    assert (Ee : e' = "positions endpoint down").
    { vm_compute in Hg. injection Hg as <- _. reflexivity. }
    subst e'.
    assert (Hcap : ~ capReached (Demo.bothDown false) Demo.config
                       (Demo.start 0 Demo.twoBuys)).
    { unfold capReached. vm_compute. intros H. apply H. reflexivity. }
    destruct (H3 (Demo.start 0 Demo.twoBuys) st1 _ Hcap Hg)
      as (r & st' & E & Hs & He & _).
    exists r, st'. repeat split; assumption.
Defined.

End OrchestratorProps.

(* ===================================================================== *)
(** * Further properties of the decoder *)
(* ===================================================================== *)

Module DecoderMoreProps.
Import Js Parser DecoderSpec DecoderMore.

(** ** What validation lets through *)

(** Refutes [H : In e l] where [l] is made of pushes of messages other
    than [e]. *)
Ltac no_such_error H :=
  repeat match type of H with
         | In _ (_ ++ _) => apply in_app_or in H; destruct H as [H | H]
         | In _ (if ?b then _ else _) => destruct b
         | In _ (match ?o with Some _ => _ | None => _ end) => destruct o
         | In _ (_ :: _) => destruct H as [H | H]
         | In _ [] => destruct H
         | _ = _ => discriminate H
         end.

Lemma pushIf_nil c x : pushIf c x = [] -> c = false.
Proof. destruct c; [discriminate | reflexivity]. Qed.

Lemma lt_false (c b : Q) : lt (Some c) b = false -> (b <= c)%Q.
Proof.
  unfold lt. intros H. apply negb_false_iff in H.
  apply Qle_bool_iff. exact H.
Qed.

Lemma gt_false (c b : Q) : gt (Some c) b = false -> (c <= b)%Q.
Proof.
  unfold gt. intros H. apply negb_false_iff in H.
  apply Qle_bool_iff. exact H.
Qed.

Lemma listIncludes_In l s : listIncludes l s = true -> In s l.
Proof.
  unfold listIncludes. intros H. apply existsb_exists in H as (x & Hx & E).
  apply String.eqb_eq in E. subst x. exact Hx.
Qed.

Lemma valid_is_well_formed i :
  isValid (validateInstruction i) = true -> wellFormed i.
Proof.
  unfold validateInstruction; cbn [isValid].
  destruct (validationErrors i) as [| e es] eqn:E; [intros _ | discriminate].
  unfold validationErrors in E.
  apply app_eq_nil in E as [Ea E].
  apply app_eq_nil in E as [Es E].
  apply app_eq_nil in E as [Et E].
  apply app_eq_nil in E as [Ec Ev].
  apply pushIf_nil, negb_false_iff in Ea.
  apply pushIf_nil, negb_false_iff in Es.
  apply pushIf_nil in Ec.
  unfold wellFormed. split; [| split; [| split]].
  - destruct (action i) as [a |]; [eexists; reflexivity | discriminate].
  - unfold invalidSymbolErrors in Ev.
    destruct (symbol i) as [s |]; [| discriminate].
    exists s. split; [reflexivity |].
    apply pushIf_nil in Ev. cbn [truthyStr] in Es. rewrite Es in Ev.
    cbn [andb] in Ev. apply negb_false_iff in Ev.
    apply listIncludes_In. exact Ev.
  - intros c Hc. unfold confidenceOutOfRange in Ec. rewrite Hc in Ec.
    apply orb_false_iff in Ec as [Hlo Hhi].
    split; [exact (lt_false _ _ Hlo) | exact (gt_false _ _ Hhi)].
  - intros Hh Hcl.
    rewrite (DecoderProps.isTradingAction_true _ Hh Hcl) in Et.
    apply app_eq_nil in Et as [Eq El].
    apply pushIf_nil in Eq. apply pushIf_nil in El.
    split.
    + destruct (truthyNum (quantity i)); [left; reflexivity |].
      destruct (truthyNum (price i)); [right; reflexivity | discriminate].
    + intros l Hl Hnz. unfold leverageOutOfRange in El.
      rewrite Hl, (DecoderProps.truthyNum_true _ Hnz) in El.
      cbn [andb] in El. apply orb_false_iff in El as [Hlo Hhi].
      split; [exact (lt_false _ _ Hlo) | exact (gt_false _ _ Hhi)].
Qed.

(** X1: every instruction a decode places in [validInstructions] is one of
    the decoded instructions and is well formed: it has an action and a
    symbol among the twenty supported pairs, its confidence, if any, lies
    in [0,100], and unless it is a HOLD or a CLOSE it has a quantity or a
    price, and a leverage that is absent, zero or within [1,50]. *)
Theorem valid_instructions_are_well_formed now response i :
  In i (validInstructions (parseAIResponse now response)) ->
  In i (instructions (parseAIResponse now response)) /\ wellFormed i.
Proof.
  rewrite DecoderProps.parseAIResponse_shape.
  cbn [validInstructions instructions]. unfold validOnes.
  intros H. apply filter_In in H as [Hin Hv].
  split; [exact Hin | exact (valid_is_well_formed i Hv)].
Qed.

(** The first purchase of [Demo.twoBuys]. *)
Lemma valid_instructions_are_well_formed_witness :
  wellFormed (Demo.buy "BTCUSDT" 8 0).
Proof.
  apply (valid_instructions_are_well_formed 0 Demo.twoBuys (Demo.buy "BTCUSDT" 8 0)).
  vm_compute. left. reflexivity.
Defined.

(** ** The fallback parse never gives a valid instruction *)

(** X2: when block extraction recognises no block, [validInstructions] is
    empty: the HOLD of the fallback parse has the unsupported symbol ALL,
    and its BUY or SELL has neither quantity nor price. *)
Theorem fallback_never_valid now response :
  blocksOf response = [] ->
  validInstructions (parseAIResponse now response) = [].
Proof.
  intros Hb. rewrite DecoderProps.parseAIResponse_shape.
  cbn [validInstructions]. unfold decoded. rewrite Hb.
  destruct (parseFallbackResponse (cleanResponse response) now) as [i |] eqn:Ef;
    [| reflexivity].
  cbn [pushSome validOnes filter].
  assert (Hv : isValid (validateInstruction i) = false).
  { unfold parseFallbackResponse in Ef.
    destruct (includes "hold" _ || includes "wait" _ || includes "no trade" _).
    - injection Ef as <-. reflexivity.
    - assert (Hq : forall a s ts,
                 (a = BUY \/ a = SELL) ->
                 isValid (validateInstruction
                   {| action := Some a; symbol := Some s; quantity := None;
                      price := None; leverage := None; stopLoss := None;
                      takeProfit := None; reason := Some FALLBACK_REASON;
                      confidence := Some 30%Q; priority := Some LOW;
                      riskReward := None; maxHoldTime := None;
                      timestamp := ts |}) = false).
      { intros a s ts Ha.
        apply (DecoderProps.error_makes_invalid _ ERR_QUANTITY).
        cbn [validateInstruction errors]. unfold validationErrors.
        do 2 (apply in_or_app; right). apply in_or_app; left.
        destruct Ha as [-> | ->]; left; reflexivity. }
      destruct (includes "buy" _ || includes "long" _).
      + destruct (negb _); [| discriminate].
        injection Ef as <-. apply Hq. left; reflexivity.
      + destruct (includes "sell" _ || includes "short" _); [| discriminate].
        destruct (negb _); [| discriminate].
        injection Ef as <-. apply Hq. right; reflexivity. }
  rewrite Hv. reflexivity.
Qed.

(** Prose that recommends a purchase: the instruction read from it is not
    valid. *)
Lemma fallback_never_valid_witness :
  instructions (parseAIResponse 0 proseBuyResponse) <> []
  /\ validInstructions (parseAIResponse 0 proseBuyResponse) = [].
Proof.
  split.
  - vm_compute. discriminate.
  - apply (fallback_never_valid 0 proseBuyResponse). reflexivity.
Defined.

(** ** How many instructions a decode yields, and what each carries *)

Lemma parseBlocks_length blocks ts :
  List.length (parseBlocks blocks ts) <= List.length blocks.
Proof.
  unfold parseBlocks. induction blocks as [| b bs IH]; [apply Nat.le_refl |].
  cbn [flat_map]. rewrite length_app.
  destruct (parseTradeBlock b ts); cbn [pushSome List.length]; lia.
Qed.

(** X3: a decode yields at most one instruction for each recognised block,
    and at most one instruction when no block is recognised. *)
Theorem at_most_one_instruction_per_block now response :
  List.length (instructions (parseAIResponse now response))
  <= Nat.max 1 (List.length (blocksOf response)).
Proof.
  rewrite DecoderProps.parseAIResponse_shape. cbn [instructions].
  unfold decoded. destruct (blocksOf response) as [| b bs] eqn:E.
  - destruct (parseFallbackResponse _ _); cbn [pushSome List.length]; lia.
  - pose proof (parseBlocks_length (b :: bs) now). lia.
Qed.

Lemma orStr_truthy a d : isEmpty d = false -> truthyStr (Some (orStr a d)) = true.
Proof.
  intros Hd. unfold orStr, truthyStr.
  destruct a as [s |]; [| rewrite Hd; reflexivity].
  destruct (isEmpty s) eqn:Es; [rewrite Hd | rewrite Es]; reflexivity.
Qed.

Lemma parseLines_timestamp ls ts :
  timestamp (parseLines ls (blank ts)) = ts.
Proof.
  change (blank ts) with (set_timestamp ts (blank ts)).
  rewrite DecoderProps.parseLines_stamp. reflexivity.
Qed.

Lemma parseTradeBlock_carries block ts i :
  parseTradeBlock block ts = Some i ->
  (exists a, action i = Some a)
  /\ truthyStr (symbol i) = true
  /\ timestamp i = ts.
Proof.
  unfold parseTradeBlock.
  pose proof (parseLines_timestamp (blockLines block) ts) as Ht.
  set (p := parseLines (blockLines block) (blank ts)) in *.
  destruct (truthy (action p)) eqn:Ea; [| discriminate].
  destruct (truthyStr (symbol p)) eqn:Es; [| discriminate].
  cbn [negb orb].
  destruct (actionIs (action p) HOLD).
  - intros E. injection E as <-. cbn [action symbol timestamp].
    split; [eexists; reflexivity |]. split; [| reflexivity].
    apply orStr_truthy. reflexivity.
  - intros E. injection E as <-.
    split; [| split; assumption].
    destruct (action p) as [a |]; [eexists; reflexivity | discriminate].
Qed.

Lemma parseFallbackResponse_carries text ts i :
  parseFallbackResponse text ts = Some i ->
  (exists a, action i = Some a)
  /\ truthyStr (symbol i) = true
  /\ timestamp i = ts.
Proof.
  unfold parseFallbackResponse.
  destruct (includes "hold" _ || includes "wait" _ || includes "no trade" _).
  - intros E. injection E as <-. repeat split. eexists; reflexivity.
  - destruct (includes "buy" _ || includes "long" _).
    + destruct (isEmpty _) eqn:Es; [discriminate |].
      intros E. injection E as <-. cbn [action symbol timestamp truthyStr].
      rewrite Es. repeat split. eexists; reflexivity.
    + destruct (includes "sell" _ || includes "short" _); [| discriminate].
      destruct (isEmpty _) eqn:Es; [discriminate |].
      intros E. injection E as <-. cbn [action symbol timestamp truthyStr].
      rewrite Es. repeat split. eexists; reflexivity.
Qed.

Lemma decoded_carries now response i :
  In i (instructions (parseAIResponse now response)) ->
  (exists a, action i = Some a)
  /\ truthyStr (symbol i) = true
  /\ timestamp i = now.
Proof.
  rewrite DecoderProps.parseAIResponse_shape. cbn [instructions].
  unfold decoded. destruct (blocksOf response) as [| b bs].
  - destruct (parseFallbackResponse _ _) as [j |] eqn:E; [| intros []].
    intros [<- | []]. exact (parseFallbackResponse_carries _ _ _ E).
  - unfold parseBlocks. intros H. apply in_flat_map in H as (blk & _ & Hi).
    destruct (parseTradeBlock blk now) as [j |] eqn:E; [| destruct Hi].
    destruct Hi as [<- | []]. exact (parseTradeBlock_carries _ _ _ E).
Qed.

(** X4: every instruction of a decode has an action and a non-empty symbol
    and is stamped with the clock reading of the call; so validation never
    reports "Action is required" or "Symbol is required" for a decoded
    instruction. *)
Theorem decoded_instructions_carry_action_symbol_stamp now response i :
  In i (instructions (parseAIResponse now response)) ->
  (exists a, action i = Some a)
  /\ truthyStr (symbol i) = true
  /\ timestamp i = now
  /\ ~ In ERR_ACTION (errors (validateInstruction i))
  /\ ~ In ERR_SYMBOL (errors (validateInstruction i)).
Proof.
  intros Hin. destruct (decoded_carries _ _ _ Hin) as ((a & Ha) & Hs & Ht).
  split; [exists a; exact Ha |]. split; [exact Hs |]. split; [exact Ht |].
  cbn [validateInstruction errors]. unfold validationErrors.
  rewrite Ha, Hs. cbn [truthy negb pushIf app].
  unfold invalidSymbolErrors, pushIf.
  split; intros H; no_such_error H.
Qed.

(** The second purchase of [Demo.twoBuys], decoded at clock reading 7. *)
Lemma decoded_instructions_carry_action_symbol_stamp_witness :
  timestamp (Demo.buy "ETHUSDT" 5 7) = 7%Z
  /\ ~ In ERR_ACTION (errors (validateInstruction (Demo.buy "ETHUSDT" 5 7))).
Proof.
  destruct (decoded_instructions_carry_action_symbol_stamp 7 Demo.twoBuys
              (Demo.buy "ETHUSDT" 5 7)) as (_ & _ & Ht & Ha & _).
  - vm_compute. right. left. reflexivity.
  - split; assumption.
Defined.

(** ** What normalization leaves *)

Lemma allChars_removeAllFrom p m skip s :
  allChars p s = true -> allChars p (removeAllFrom m skip s) = true.
Proof.
  revert skip. induction s as [| c r IH]; intros skip H; [reflexivity |].
  cbn [allChars] in H. apply andb_true_iff in H as [Hc Hr].
  cbn [removeAllFrom]. destruct skip as [| k]; [| apply IH; exact Hr].
  destruct (m (String c r)) as [[| n] |]; try (apply IH; exact Hr);
    cbn [allChars]; rewrite Hc; apply IH; exact Hr.
Qed.

Lemma allChars_dropWhile p q s :
  allChars p s = true -> allChars p (dropWhile q s) = true.
Proof.
  induction s as [| c r IH]; intros H; [reflexivity |].
  cbn [dropWhile]. destruct (q c); [| exact H].
  cbn [allChars] in H. apply andb_true_iff in H as [_ Hr]. exact (IH Hr).
Qed.

Lemma allChars_trimEnd p s :
  allChars p s = true -> allChars p (trimEnd s) = true.
Proof.
  induction s as [| c r IH]; intros H; [reflexivity |].
  cbn [allChars] in H. apply andb_true_iff in H as [Hc Hr].
  cbn [trimEnd]. destruct (isWhite c && isEmpty (trimEnd r)); [reflexivity |].
  cbn [allChars]. rewrite Hc. exact (IH Hr).
Qed.

Lemma no_star_after_italic skip s :
  allChars (fun c => negb (isStar c)) (removeAllFrom italicMatch skip s) = true.
Proof.
  revert skip. induction s as [| c r IH]; intros skip; [reflexivity |].
  cbn [removeAllFrom]. destruct skip as [| k]; [| apply IH].
  unfold italicMatch at 1, startsWith. cbn [prefix].
  destruct (Ascii.ascii_dec "*" c) as [E | Hne].
  - destruct r; apply IH.
  - cbn [allChars]. unfold isStar.
    destruct (Ascii.eqb_spec c "*") as [-> | _]; [contradiction Hne; reflexivity |].
    apply IH.
Qed.

Lemma firstChar_trim s c :
  firstChar (trim s) = Some c -> isWhite c = false.
Proof.
  unfold trim, trimStart.
  assert (Hd : forall t, dropWhile isWhite t = EmptyString
                         \/ exists d r, dropWhile isWhite t = String d r
                                         /\ isWhite d = false).
  { induction t as [| d r IH]; [left; reflexivity |].
    cbn [dropWhile]. destruct (isWhite d) eqn:E; [exact IH |].
    right. exists d, r. split; [reflexivity | exact E]. }
  destruct (Hd s) as [-> | (d & r & -> & Hw)]; [discriminate |].
  cbn [trimEnd]. rewrite Hw. cbn [andb firstChar].
  intros H. injection H as <-. exact Hw.
Qed.

Lemma lastChar_trimEnd s c :
  lastChar (trimEnd s) = Some c -> isWhite c = false.
Proof.
  induction s as [| d r IH]; [discriminate |].
  cbn [trimEnd]. destruct (isWhite d) eqn:Ew; cbn [andb].
  - destruct (trimEnd r) as [| e t] eqn:Et; cbn [isEmpty]; [discriminate |].
    cbn [lastChar]. exact IH.
  - destruct (trimEnd r) as [| e t] eqn:Et; cbn [lastChar].
    + intros H. injection H as <-. exact Ew.
    + exact IH.
Qed.

(** X6: the normalized text holds no asterisk, and neither begins nor ends
    with a white-space character. *)
Theorem normalized_text_has_no_star_and_is_trimmed response :
  allChars (fun c => negb (isStar c)) (cleanResponse response) = true
  /\ (forall c, firstChar (cleanResponse response) = Some c -> isWhite c = false)
  /\ (forall c, lastChar (cleanResponse response) = Some c -> isWhite c = false).
Proof.
  split; [| split].
  - unfold cleanResponse, trim, trimStart.
    apply allChars_trimEnd, allChars_dropWhile, allChars_removeAllFrom.
    apply no_star_after_italic.
  - intros c. unfold cleanResponse. apply firstChar_trim.
  - intros c. unfold cleanResponse, trim. apply lastChar_trimEnd.
Qed.

(** ** Parsing statistics *)

(** X7: in the statistics of a decode the valid and the invalid
    instructions add up to the total, and the success rate lies between 0
    and 100; it is 0 when nothing was decoded. *)
Theorem parsing_stats_of_decode now response :
  let stats := getParsingStats (parseAIResponse now response) in
  (ParsingStats.validInstructions stats + ParsingStats.invalidInstructions stats
   = ParsingStats.totalInstructions stats)%nat
  /\ (0 <= ParsingStats.successRate stats)%Q
  /\ (ParsingStats.successRate stats <= 100)%Q
  /\ (ParsingStats.totalInstructions stats = 0%nat ->
      ParsingStats.successRate stats = 0%Q).
Proof.
  cbv zeta. unfold getParsingStats.
  cbn [ParsingStats.validInstructions ParsingStats.invalidInstructions
       ParsingStats.totalInstructions ParsingStats.successRate].
  rewrite DecoderProps.parseAIResponse_shape.
  cbn [instructions validInstructions invalidInstructions].
  pose proof (DecoderProps.valid_invalid_split (decoded now response)) as Hsum.
  split; [symmetry; exact Hsum |].
  set (v := List.length (validOnes (decoded now response))) in *.
  set (t := List.length (decoded now response)) in *.
  destruct (Nat.ltb_spec 0 t) as [Hpos | Hz].
  - assert (Ht : (0 < inject_Z (Z.of_nat t))%Q).
    { change 0%Q with (inject_Z 0). rewrite <- Zlt_Qlt. lia. }
    assert (Hv0 : (0 <= inject_Z (Z.of_nat v))%Q).
    { change 0%Q with (inject_Z 0). rewrite <- Zle_Qle. lia. }
    assert (Hvt : (inject_Z (Z.of_nat v) <= inject_Z (Z.of_nat t))%Q).
    { rewrite <- Zle_Qle. lia. }
    split; [| split; [| intros E; lia]].
    + apply Qmult_le_0_compat; [| discriminate].
      apply Qle_shift_div_l; [exact Ht |]. rewrite Qmult_0_l. exact Hv0.
    + setoid_replace 100%Q with (1 * 100)%Q at 2 by reflexivity.
      apply Qmult_le_compat_r; [| discriminate].
      apply Qle_shift_div_r; [exact Ht |]. rewrite Qmult_1_l. exact Hvt.
  - split; [apply Qle_refl |]. split; [discriminate | reflexivity].
Qed.

(** ** Symbols *)

Lemma startsWith_refl n : startsWith n n = true.
Proof.
  unfold startsWith. induction n as [| c r IH]; [reflexivity |].
  cbn [prefix]. destruct (Ascii.ascii_dec c c) as [_ | H];
    [exact IH | contradiction H; reflexivity].
Qed.

Lemma includes_cons n c r :
  includes n (String c r) = startsWith n (String c r) || includes n r.
Proof. reflexivity. Qed.

Lemma includes_app_r n s : includes n (s ++ n) = true.
Proof.
  induction s as [| c r IH].
  - cbn [append]. destruct n; cbn [includes]; rewrite startsWith_refl; reflexivity.
  - cbn [append]. rewrite includes_cons, IH. apply orb_true_r.
Qed.

(** A character other than U and B starts no quote asset. *)
Lemma hasQuote_skip c r :
  c <> "U"%char -> c <> "B"%char -> hasQuote (String c r) = hasQuote r.
Proof.
  intros Hu Hb. unfold hasQuote. rewrite !includes_cons.
  unfold startsWith. cbn [prefix].
  destruct (Ascii.ascii_dec "U" c) as [E | _]; [contradiction Hu; auto |].
  destruct (Ascii.ascii_dec "B" c) as [E | _]; [contradiction Hb; auto |].
  reflexivity.
Qed.

(** Nor does a U that is not followed by an S. *)
Lemma hasQuote_skip_U c d r :
  c <> "B"%char -> d <> "S"%char ->
  hasQuote (String c (String d r)) = hasQuote (String d r).
Proof.
  intros Hb Hs. unfold hasQuote.
  rewrite (includes_cons "USDT" c), (includes_cons "BUSD" c).
  unfold startsWith. cbn [prefix].
  destruct (Ascii.ascii_dec "B" c) as [E | _]; [contradiction Hb; auto |].
  destruct (Ascii.ascii_dec "U" c) as [_ | _]; [| reflexivity].
  destruct (Ascii.ascii_dec "S" d) as [E | _]; [contradiction Hs; auto |].
  reflexivity.
Qed.

Lemma upcase_eq_ne x c y :
  Ascii.eqb (upcase x) (upcase c) = true -> upcase x <> upcase y -> c <> y.
Proof.
  intros H Hne E. subst c. apply Ascii.eqb_eq in H. contradiction.
Qed.

Lemma hasQuote_underscore r :
  hasQuote (match r with String "_" r' => r' | _ => r end) = hasQuote r.
Proof.
  destruct r as [| c r']; [reflexivity |].
  destruct c as [[] [] [] [] [] [] [] []]; reflexivity.
Qed.

Lemma hasQuote_stripMarketPrefix s :
  hasQuote (stripMarketPrefix s) = hasQuote s.
Proof.
  unfold stripMarketPrefix.
  destruct (startsWithCI "FUTURE" s) eqn:Ef.
  - destruct s as [| c1 [| c2 [| c3 [| c4 [| c5 [| c6 r]]]]]];
      cbn [startsWithCI] in Ef; try discriminate;
      try (rewrite ?andb_false_r in Ef; discriminate).
    repeat (apply andb_true_iff in Ef; destruct Ef as [? Ef]).
    cbn [drop]. rewrite hasQuote_underscore.
    transitivity (hasQuote r).
    + destruct (startsWithCI "S" r) eqn:Es; [| reflexivity].
      destruct r as [| c7 r7]; [discriminate |].
      cbn [startsWithCI] in Es. rewrite andb_true_r in Es.
      cbn [drop]. symmetry.
      apply hasQuote_skip; eapply upcase_eq_ne; try exact Es; discriminate.
    + symmetry.
      rewrite hasQuote_skip
        by (eapply upcase_eq_ne; [eassumption | discriminate]).
      rewrite hasQuote_skip_U
        by (eapply upcase_eq_ne; [eassumption | discriminate]).
      rewrite hasQuote_skip
        by (eapply upcase_eq_ne; [eassumption | discriminate]).
      rewrite hasQuote_skip_U
        by (eapply upcase_eq_ne; [eassumption | discriminate]).
      rewrite hasQuote_skip
        by (eapply upcase_eq_ne; [eassumption | discriminate]).
      rewrite hasQuote_skip
        by (eapply upcase_eq_ne; [eassumption | discriminate]).
      reflexivity.
  - destruct (startsWithCI "SPOT" s) eqn:Es; [| reflexivity].
    destruct s as [| c1 [| c2 [| c3 [| c4 r]]]];
      cbn [startsWithCI] in Es; try discriminate;
      try (rewrite ?andb_false_r in Es; discriminate).
    repeat (apply andb_true_iff in Es; destruct Es as [? Es]).
    cbn [drop]. rewrite hasQuote_underscore. symmetry.
    repeat (rewrite hasQuote_skip
              by (eapply upcase_eq_ne; [eassumption | discriminate])).
    reflexivity.
Qed.

Lemma upcase_not_lower c : isLower (upcase c) = false.
Proof. destruct c as [[] [] [] [] [] [] [] []]; reflexivity. Qed.

Lemma allChars_toUpperCase s :
  allChars (fun c => negb (isLower c)) (toUpperCase s) = true.
Proof.
  induction s as [| c r IH]; [reflexivity |].
  cbn [toUpperCase smap allChars]. rewrite upcase_not_lower. exact IH.
Qed.

Lemma allChars_app p a b :
  allChars p a = true -> allChars p b = true -> allChars p (a ++ b) = true.
Proof.
  intros Ha Hb. induction a as [| c r IH]; [exact Hb |].
  cbn [allChars] in Ha. apply andb_true_iff in Ha as [Hc Hr].
  cbn [append allChars]. rewrite Hc. exact (IH Hr).
Qed.

Lemma allChars_drop p n s :
  allChars p s = true -> allChars p (drop n s) = true.
Proof.
  revert s. induction n as [| n IH]; intros s H; [exact H |].
  destruct s as [| c r]; [reflexivity |].
  cbn [allChars] in H. apply andb_true_iff in H as [_ Hr].
  cbn [drop]. exact (IH r Hr).
Qed.

Lemma allChars_stripMarketPrefix p s :
  allChars p s = true -> allChars p (stripMarketPrefix s) = true.
Proof.
  intros H. unfold stripMarketPrefix.
  assert (Hu : forall r, allChars p r = true ->
                 allChars p (match r with String "_" r' => r' | _ => r end) = true).
  { intros r Hr. destruct r as [| c r']; [reflexivity |].
    pose proof Hr as Hr'. cbn [allChars] in Hr'.
    apply andb_true_iff in Hr' as [_ Hr'].
    destruct c as [[] [] [] [] [] [] [] []]; assumption. }
  destruct (startsWithCI "FUTURE" s).
  - apply Hu. destruct (startsWithCI "S" (drop 6 s));
      repeat apply allChars_drop; exact H.
  - destruct (startsWithCI "SPOT" s); [| exact H].
    apply Hu, allChars_drop, H.
Qed.

Lemma hasQuote_nonempty s : hasQuote s = true -> isEmpty s = false.
Proof. destruct s; [discriminate | reflexivity]. Qed.

(** X5: whatever the value of a symbol line, [parseSymbol] gives a
    non-empty symbol without lower-case letters that holds one of the quote
    assets USDT and BUSD. *)
Theorem parsed_symbol_is_upper_case_with_quote value :
  isEmpty (parseSymbol value) = false
  /\ hasQuote (parseSymbol value) = true
  /\ allChars (fun c => negb (isLower c)) (parseSymbol value) = true.
Proof.
  assert (Hq : hasQuote (parseSymbol value) = true).
  { unfold parseSymbol. rewrite hasQuote_stripMarketPrefix.
    destruct (negb (includes "USDT" (trim (toUpperCase value)))
              && negb (includes "BUSD" (trim (toUpperCase value)))) eqn:E.
    - unfold hasQuote. rewrite includes_app_r. reflexivity.
    - unfold hasQuote.
      destruct (includes "USDT" (trim (toUpperCase value)));
        [reflexivity |].
      destruct (includes "BUSD" (trim (toUpperCase value)));
        [reflexivity | discriminate]. }
  split; [exact (hasQuote_nonempty _ Hq) |]. split; [exact Hq |].
  unfold parseSymbol. apply allChars_stripMarketPrefix.
  assert (Ht : allChars (fun c => negb (isLower c)) (trim (toUpperCase value)) = true).
  { unfold trim, trimStart.
    apply allChars_trimEnd, allChars_dropWhile, allChars_toUpperCase. }
  destruct (_ && _); [| exact Ht].
  apply allChars_app; [exact Ht | reflexivity].
Qed.

End DecoderMoreProps.

(* ===================================================================== *)
(** * Further properties of the orchestrator *)
(* ===================================================================== *)

Module OrchestratorMoreProps.
Import Js Service OrchestratorSpec OrchestratorMore OrchestratorProps.

Section Props.

Context {World AccountInfo Position Ticker Klines : Type}.
Variable env : Environment (World := World) (AccountInfo := AccountInfo)
                 (Position := Position) (Ticker := Ticker) (Klines := Klines).
Variable config : AITradingConfig.

(** ** Relations kept along a computation *)

Section Kept.

Variable I : State (World := World) -> State (World := World) -> Prop.
Hypothesis I_refl : forall st, I st st.
Hypothesis I_trans : forall a b c, I a b -> I b c -> I a c.

Lemma holds_ret {A : Type} (a : A) : holds I (ret a).
Proof. intros st o st' H. injection H as _ <-. apply I_refl. Qed.

Lemma holds_throw {A : Type} e : holds I (throw (A := A) e).
Proof. intros st o st' H. injection H as _ <-. apply I_refl. Qed.

Lemma holds_await {A : Type} (x : outcome A) : holds I (await x).
Proof. intros st o st' H. injection H as _ <-. apply I_refl. Qed.

Lemma holds_getService : holds I getService.
Proof. intros st o st' H. injection H as _ <-. apply I_refl. Qed.

Lemma holds_bind {A B : Type} (m : M A) (k : A -> M B) :
  holds I m -> (forall a, holds I (k a)) -> holds I (bind m k).
Proof.
  intros Hm Hk st o st' H. unfold bind in H.
  destruct (m st) as [[a | e] st1] eqn:E.
  - exact (I_trans _ _ _ (Hm _ _ _ E) (Hk a _ _ _ H)).
  - injection H as _ <-. exact (Hm _ _ _ E).
Qed.

Lemma holds_tryCatch {A : Type} (m : M A) h :
  holds I m -> (forall e, holds I (h e)) -> holds I (tryCatch m h).
Proof.
  intros Hm Hh st o st' H. unfold tryCatch in H.
  destruct (m st) as [[a | e] st1] eqn:E.
  - injection H as _ <-. exact (Hm _ _ _ E).
  - exact (I_trans _ _ _ (Hm _ _ _ E) (Hh e _ _ _ H)).
Qed.

Lemma holds_awaitAll {A B : Type} (a : outcome A) (p : outcome B) :
  holds I (awaitAll env a p).
Proof.
  intros st o st' H. unfold awaitAll in H.
  destruct a, p; injection H as _ <-; apply I_refl.
Qed.

Lemma holds_started {A : Type} (m : M A) : holds I m -> holds I (started m).
Proof.
  intros Hm st o st' H. unfold started in H.
  destruct (m st) as [x st1] eqn:E. injection H as _ <-. exact (Hm _ _ _ E).
Qed.

End Kept.

Lemma holds_and {A : Type} (I1 I2 : State (World := World) -> State -> Prop)
    (m : M A) :
  holds I1 m -> holds I2 m -> holds (fun st st' => I1 st st' /\ I2 st st') m.
Proof. intros H1 H2 st o st' H. split; [exact (H1 _ _ _ H) | exact (H2 _ _ _ H)]. Qed.

Lemma holds_weaken {A : Type} (I1 I2 : State (World := World) -> State -> Prop)
    (m : M A) :
  (forall st st', I1 st st' -> I2 st st') -> holds I1 m -> holds I2 m.
Proof. intros Hw H1 st o st' H. exact (Hw _ _ (H1 _ _ _ H)). Qed.

(** *** The fields of the service *)

Lemma sameService_refl (st : State (World := World)) : sameService st st.
Proof. reflexivity. Qed.

Lemma sameService_trans (a b c : State (World := World)) :
  sameService a b -> sameService b c -> sameService a c.
Proof. unfold sameService. congruence. Qed.

Lemma sameService_readWorld {A : Type} (f : World -> A * World) :
  holds sameService (readWorld f).
Proof. intros st o st' H. rewrite readWorld_eq in H. injection H as _ <-. reflexivity. Qed.

Lemma sameService_call {A : Type} c (f : World -> outcome A * World) :
  holds sameService (call c f).
Proof. intros st o st' H. rewrite call_eq in H. injection H as _ <-. reflexivity. Qed.

(** *** The calls made *)

Lemma callsAdded_refl P (st : State (World := World)) : callsAdded P st st.
Proof. exists []. split; [symmetry; apply app_nil_r | constructor]. Qed.

Lemma callsAdded_trans P (a b c : State (World := World)) :
  callsAdded P a b -> callsAdded P b c -> callsAdded P a c.
Proof.
  intros (n1 & E1 & F1) (n2 & E2 & F2). exists (n1 ++ n2)%list. split.
  - rewrite E2, E1. symmetry. apply app_assoc.
  - apply Forall_app. split; assumption.
Qed.

Lemma callsAdded_weaken (P Q : Call -> Prop) (st st' : State (World := World)) :
  (forall c, P c -> Q c) -> callsAdded P st st' -> callsAdded Q st st'.
Proof.
  intros H (n & E & F). exists n. split; [exact E |].
  eapply Forall_impl; [exact H | exact F].
Qed.

Lemma callsAdded_readWorld P {A : Type} (f : World -> A * World) :
  holds (callsAdded P) (readWorld f).
Proof.
  intros st o st' H. rewrite readWorld_eq in H. injection H as _ <-.
  exists []. split; [symmetry; apply app_nil_r | constructor].
Qed.

Lemma callsAdded_call (P : Call -> Prop) {A : Type} c (f : World -> outcome A * World) :
  P c -> holds (callsAdded P) (call c f).
Proof.
  intros Hc st o st' H. rewrite call_eq in H. injection H as _ <-.
  exists [c]. split; [reflexivity | constructor; [exact Hc | constructor]].
Qed.

Lemma callsAdded_putService P s :
  holds (callsAdded P) (putService (World := World) s).
Proof.
  intros st o st' H. injection H as _ <-.
  exists []. split; [symmetry; apply app_nil_r | constructor].
Qed.

Ltac same_service :=
  repeat first
    [ apply sameService_readWorld
    | apply sameService_call
    | apply (holds_ret _ sameService_refl)
    | apply (holds_throw _ sameService_refl)
    | apply (holds_await _ sameService_refl)
    | apply (holds_awaitAll _ sameService_refl)
    | apply (holds_getService _ sameService_refl)
    | apply (holds_started sameService)
    | apply (holds_bind _ sameService_trans)
    | apply (holds_tryCatch _ sameService_trans)
    | match goal with
      | |- holds _ (if ?b then _ else _) => destruct b
      | |- forall _, _ => intro
      end ].

Ltac calls_added :=
  repeat first
    [ apply callsAdded_readWorld
    | apply callsAdded_putService
    | apply callsAdded_call; [exact I || reflexivity || assumption]
    | apply (holds_ret _ (callsAdded_refl _))
    | apply (holds_throw _ (callsAdded_refl _))
    | apply (holds_await _ (callsAdded_refl _))
    | apply (holds_awaitAll _ (callsAdded_refl _))
    | apply (holds_getService _ (callsAdded_refl _))
    | apply (holds_started (callsAdded _))
    | apply (holds_bind _ (callsAdded_trans _))
    | apply (holds_tryCatch _ (callsAdded_trans _))
    | match goal with
      | |- holds _ (if ?b then _ else _) => destruct b
      | |- forall _, _ => intro
      end ].

Lemma bind_inv {A B : Type} (m : M A) (k : A -> M B)
    (st st' : State (World := World)) o :
  bind m k st = (o, st') ->
  (exists e, m st = (Thrown e, st') /\ o = Thrown e)
  \/ (exists a st1, m st = (Returned a, st1) /\ k a st1 = (o, st')).
Proof.
  unfold bind. destruct (m st) as [[a | e] st1] eqn:E; intros H.
  - right. exists a, st1. split; [reflexivity | exact H].
  - left. injection H as <- <-. exists e. split; reflexivity.
Qed.

Lemma returns_bind {A B : Type} (m : M (World := World) A) (k : A -> M B) :
  returns m -> (forall a, returns (k a)) -> returns (bind m k).
Proof.
  intros Hm Hk st. destruct (Hm st) as (a & st1 & E).
  destruct (Hk a st1) as (b & st2 & E2).
  exists b, st2. rewrite (bind_returned _ _ _ _ _ E). exact E2.
Qed.

Lemma returns_ret {A : Type} (a : A) : returns (World := World) (ret a).
Proof. intros st. eexists _, _; reflexivity. Qed.

Lemma returns_readWorld {A : Type} (f : World -> A * World) :
  returns (readWorld f).
Proof. intros st. rewrite readWorld_eq. eexists _, _; reflexivity. Qed.

(** ** Execution of one instruction *)

Lemma executeInstruction_sameService i :
  holds sameService (executeInstruction env config i).
Proof. unfold executeInstruction, failedExecution. same_service. Qed.

Lemma gatherMarketData_sameService : holds sameService (gatherMarketData env config).
Proof.
  unfold gatherMarketData, getPriceData, analyzeTrends, getSymbolData.
  assert (Hs : forall pairs, holds sameService (getSymbolDataFor env config pairs)).
  { induction pairs as [| s rest IH]; cbn [getSymbolDataFor].
    - same_service.
    - apply (holds_bind _ sameService_trans).
      + unfold getOneSymbol, getTechnicalIndicators. same_service.
      + intro. apply (holds_bind _ sameService_trans); [exact IH | same_service]. }
  apply (holds_bind _ sameService_trans); [same_service |]. intro.
  apply (holds_bind _ sameService_trans); [same_service |]. intro.
  apply (holds_bind _ sameService_trans); [same_service |]. intro.
  apply (holds_bind _ sameService_trans); [same_service |]. intro.
  apply (holds_bind _ sameService_trans); [same_service |]. intro.
  apply (holds_bind _ sameService_trans); [apply Hs | same_service].
Qed.

Lemma gatherMarketData_calls :
  holds (callsAdded (fun c => isMarketCall c = true)) (gatherMarketData env config).
Proof.
  unfold gatherMarketData, getPriceData, analyzeTrends, getSymbolData.
  assert (Hs : forall pairs,
             holds (callsAdded (fun c => isMarketCall c = true))
               (getSymbolDataFor env config pairs)).
  { induction pairs as [| s rest IH]; cbn [getSymbolDataFor].
    - calls_added.
    - apply (holds_bind _ (callsAdded_trans _)).
      + unfold getOneSymbol, getTechnicalIndicators. calls_added.
      + intro. apply (holds_bind _ (callsAdded_trans _)); [exact IH | calls_added]. }
  apply (holds_bind _ (callsAdded_trans _)); [calls_added |]. intro.
  apply (holds_bind _ (callsAdded_trans _)); [calls_added |]. intro.
  apply (holds_bind _ (callsAdded_trans _)); [calls_added |]. intro.
  apply (holds_bind _ (callsAdded_trans _)); [calls_added |]. intro.
  apply (holds_bind _ (callsAdded_trans _)); [calls_added |]. intro.
  apply (holds_bind _ (callsAdded_trans _)); [apply Hs | calls_added].
Qed.


Ltac inv_bind H :=
  let e := fresh "e" in
  let a := fresh "a" in
  let st1 := fresh "st" in
  let Ha := fresh "Ha" in
  apply bind_inv in H;
  destruct H as [(e & H & ->) | (a & st1 & Ha & H)].

Lemma afterClock_calls (st : State (World := World)) :
  calls (afterClock env st) = calls st.
Proof. unfold afterClock. rewrite readWorld_eq. reflexivity. Qed.

Lemma afterClock_service (st : State (World := World)) :
  service (afterClock env st) = service st.
Proof. unfold afterClock. rewrite readWorld_eq. reflexivity. Qed.

(** X13.  The execution of one instruction first asks the risk manager.  The
    executor is called only when the risk manager has allowed the
    instruction, and then right after that call; the only call that may
    follow is the notification of a successful order.  When the risk manager
    does not allow it, no other call is made and the result says failure for
    this instruction. *)
Theorem order_needs_risk_approval i (st st' : State (World := World)) o :
  executeInstruction env config i st = (o, st') ->
  exists rest,
    calls st' = (calls st ++ CallAssessRisk (riskRequest i) :: rest)%list
    /\ ((allowed env i st
         /\ exists more,
              rest = CallExecuteInstruction i :: more
              /\ (more = []
                  \/ exists r,
                       more = [CallSendMessage (tradeMessageText env i r)]
                       /\ telegramEnabled config = true
                       /\ ExecutionResult.success r = true))
        \/ (~ allowed env i st
            /\ rest = []
            /\ exists r, o = Returned r
                 /\ ExecutionResult.success r = false
                 /\ ExecutionResult.instruction r = i)).
Proof.
  intros H. unfold executeInstruction, tryCatch, bind in H.
  rewrite call_eq in H. unfold allowed.
  destruct (assessRisk env (riskRequest i) (world st)) as [[a | e] w] eqn:Ea;
    cbn [fst snd] in H.
  - destruct (canExecute a) eqn:Ec; cbn [negb ret throw] in H.
    + rewrite call_eq in H. cbn [world service calls] in H.
      destruct (executorExecuteInstruction env i w) as [[r | e] w2] eqn:Ee;
        cbn [fst snd] in H.
      * destruct (telegramEnabled config && ExecutionResult.success r) eqn:Et.
        -- rewrite call_eq in H. cbn [world service calls] in H.
           apply andb_true_iff in Et. destruct Et as [Et Es].
           exists [CallExecuteInstruction i; CallSendMessage (tradeMessageText env i r)].
           split.
           ++ destruct (sendMessage env (tradeMessageText env i r) w2)
                as [[[] | e] w3]; cbn [fst snd] in H.
              ** injection H as _ <-. cbn [calls]. rewrite <- !app_assoc. reflexivity.
              ** rewrite failedExecution_eq in H. injection H as _ <-.
                 rewrite afterClock_calls. cbn [calls].
                 rewrite <- !app_assoc. reflexivity.
           ++ left. split; [exists a, w; split; [reflexivity | exact Ec] |].
              eexists. split; [reflexivity |]. right. exists r. auto.
        -- cbn [ret] in H. injection H as _ <-.
           exists [CallExecuteInstruction i]. split.
           ++ cbn [calls]. rewrite <- !app_assoc. reflexivity.
           ++ left. split; [exists a, w; split; [reflexivity | exact Ec] |].
              eexists. split; [reflexivity |]. left. reflexivity.
      * rewrite failedExecution_eq in H. injection H as _ <-.
        exists [CallExecuteInstruction i]. split.
        -- rewrite afterClock_calls. cbn [calls]. rewrite <- !app_assoc. reflexivity.
        -- left. split; [exists a, w; split; [reflexivity | exact Ec] |].
           eexists. split; [reflexivity |]. left. reflexivity.
    + rewrite failedExecution_eq in H. injection H as <- <-.
      exists []. split; [rewrite afterClock_calls; reflexivity |].
      right. split; [| split; [reflexivity |]].
      * intros (a' & w' & E' & Ec'). injection E' as <- _. congruence.
      * eexists. split; [reflexivity |]. split; reflexivity.
  - rewrite failedExecution_eq in H. injection H as <- <-.
    exists []. split; [rewrite afterClock_calls; reflexivity |].
    right. split; [| split; [reflexivity |]].
    * intros (a' & w' & E' & Ec'). discriminate E'.
    * eexists. split; [reflexivity |]. split; reflexivity.
Qed.


Lemma executeInstruction_executes i :
  holds (callsAdded (executesOnly (eq i))) (executeInstruction env config i).
Proof.
  unfold executeInstruction, failedExecution. calls_added.
Qed.

(** ** The loop over the instructions *)

Lemma counted_service (st : State (World := World)) :
  tradesCounted 1 st (counted st).
Proof. unfold tradesCounted, counted. cbn. repeat split; reflexivity. Qed.

Lemma counted_calls (st : State (World := World)) : calls (counted st) = calls st.
Proof. reflexivity. Qed.

Lemma successes_cons r rs :
  successes (r :: rs)
  = ((if ExecutionResult.success r then 1 else 0) + successes rs)%Z.
Proof.
  unfold successes. cbn [filter].
  destruct (ExecutionResult.success r); cbn [List.length]; lia.
Qed.

Lemma executeOne_counts i (st st' : State (World := World)) o :
  executeOne env config i st = (o, st') ->
  exists r,
    o = Returned r
    /\ tradesCounted (if ExecutionResult.success r then 1 else 0) st st'.
Proof.
  intros H.
  destruct (executeInstruction_returns env config i st) as (r & st1 & E).
  rewrite (executeOne_eq env config _ _ _ _ E) in H. injection H as <- <-.
  exists r. split; [reflexivity |].
  pose proof (executeInstruction_sameService i _ _ _ E) as Hs.
  unfold sameService in Hs.
  destruct (ExecutionResult.success r).
  - destruct (counted_service st1) as (H1 & H2 & H3 & H4 & H5).
    unfold tradesCounted. rewrite H1, H2, H3, H4, H5, Hs. repeat split; reflexivity.
  - unfold tradesCounted. rewrite Hs. repeat split; lia.
Qed.

Lemma executeAll_counts l (st st' : State (World := World)) o :
  executeAll env config l st = (o, st') ->
  exists rs,
    o = Returned rs
    /\ List.length rs = List.length l
    /\ tradesCounted (successes rs) st st'.
Proof.
  revert st st' o. induction l as [| i rest IH]; intros st st' o H.
  - injection H as <- <-. exists []. split; [reflexivity |].
    split; [reflexivity |]. unfold tradesCounted, successes. cbn.
    repeat split; lia.
  - cbn [executeAll] in H. inv_bind H.
    + apply executeOne_counts in H. destruct H as (r & Hr & _). discriminate Hr.
    + apply executeOne_counts in Ha. destruct Ha as (r & Hr & Hc).
      injection Hr as ->. inv_bind H.
      * apply IH in H. destruct H as (rs & Hrs & _). discriminate Hrs.
      * apply IH in Ha. destruct Ha as (rs & Hrs & Hlen & Hcs).
        injection Hrs as ->. injection H as <- <-.
        exists (r :: rs). split; [reflexivity |].
        split; [cbn [List.length]; congruence |].
        rewrite successes_cons.
        destruct Hc as (A1 & A2 & A3 & A4 & A5).
        destruct Hcs as (B1 & B2 & B3 & B4 & B5).
        unfold tradesCounted. rewrite B1, B2, B3, B4, B5, A1, A2, A3, A4, A5.
        repeat split; lia.
Qed.

Lemma executeOne_executes i :
  holds (callsAdded (executesOnly (eq i))) (executeOne env config i).
Proof.
  unfold executeOne, failedExecution, countTrade.
  apply (holds_tryCatch _ (callsAdded_trans _)); [| calls_added].
  apply (holds_bind _ (callsAdded_trans _)); [apply executeInstruction_executes |].
  calls_added.
Qed.

Lemma executeAll_executes (P : Parser.TradingInstruction -> Prop) l :
  (forall i, In i l -> P i) ->
  holds (callsAdded (executesOnly P)) (executeAll env config l).
Proof.
  induction l as [| i rest IH]; intros HP; cbn [executeAll].
  - calls_added.
  - apply (holds_bind _ (callsAdded_trans _)).
    + eapply holds_weaken; [| apply (executeOne_executes i)].
      intros st st'. apply callsAdded_weaken.
      intros [] Hc; try exact I. cbn in Hc |- *. subst. apply HP. left. reflexivity.
    + intro. apply (holds_bind _ (callsAdded_trans _)).
      * apply IH. intros j Hj. apply HP. right. exact Hj.
      * calls_added.
Qed.

(** ** The filter *)

Lemma survives_passed i :
  Parser.isValid (Parser.validateInstruction i) = true ->
  survives config i = true ->
  passedFilter config i.
Proof.
  intros Hv Hs. unfold survives in Hs.
  apply andb_true_iff in Hs. destruct Hs as [Hs Hh].
  apply andb_true_iff in Hs. destruct Hs as [Hc Hp].
  split; [exact Hv |]. split; [| split].
  - unfold pairAllowed in Hp. destruct (Parser.symbol i) as [s |]; [| discriminate].
    exists s. split; [reflexivity |].
    apply DecoderMoreProps.listIncludes_In. exact Hp.
  - intros Ea. rewrite Ea in Hh. discriminate Hh.
  - apply negb_true_iff. exact Hc.
Qed.

Lemma filterInstructions_passed now content i :
  In i (filterInstructions config (Parser.parseAIResponse now content)) ->
  Parser.isValid (Parser.validateInstruction i) = true
  /\ survives config i = true.
Proof.
  unfold filterInstructions. rewrite DecoderProps.parseAIResponse_shape.
  cbn [Parser.validInstructions]. intros H. apply filter_In in H.
  destruct H as [Hin Hs]. unfold Parser.validOnes in Hin.
  apply filter_In in Hin. destruct Hin as [_ Hv]. split; assumption.
Qed.

(** ** The steps of a cycle *)

Lemma createSuccessfulCycleResult_inv cid resp l rs t0
    (st st' : State (World := World)) o :
  createSuccessfulCycleResult env cid resp l rs t0 st = (o, st') ->
  exists r,
    o = Returned r
    /\ TradingCycleResult.success r = true
    /\ TradingCycleResult.error r = None
    /\ TradingCycleResult.cycleId r = cid
    /\ TradingCycleResult.aiProvider r = aiProviderName env
    /\ TradingCycleResult.instructions r = l
    /\ TradingCycleResult.executionResults r = rs
    /\ calls st' = calls st
    /\ service st' = service st.
Proof.
  unfold createSuccessfulCycleResult, bind. rewrite readWorld_eq.
  rewrite readWorld_eq. cbn [ret]. intros H. injection H as <- <-.
  eexists. split; [reflexivity |]. repeat split; reflexivity.
Qed.

Lemma createSkippedCycleResult_inv cid reason t0
    (st st' : State (World := World)) o :
  createSkippedCycleResult env cid reason t0 st = (o, st') ->
  exists r,
    o = Returned r
    /\ TradingCycleResult.success r = true
    /\ TradingCycleResult.error r = None
    /\ TradingCycleResult.cycleId r = cid
    /\ TradingCycleResult.aiProvider r = aiProviderName env
    /\ TradingCycleResult.instructions r = []
    /\ TradingCycleResult.executionResults r = []
    /\ calls st' = calls st
    /\ service st' = service st.
Proof.
  unfold createSkippedCycleResult, bind. rewrite readWorld_eq.
  rewrite readWorld_eq. cbn [ret]. intros H. injection H as <- <-.
  eexists. split; [reflexivity |]. repeat split; reflexivity.
Qed.

Lemma cycleFailed_inv cid t0 message (st st' : State (World := World)) o :
  cycleFailed env cid t0 (CaughtValue message) st = (o, st') ->
  exists r,
    o = Returned r
    /\ TradingCycleResult.success r = false
    /\ TradingCycleResult.error r = message
    /\ TradingCycleResult.cycleId r = cid
    /\ TradingCycleResult.aiProvider r = aiProviderName env
    /\ TradingCycleResult.instructions r = []
    /\ TradingCycleResult.executionResults r = []
    /\ calls st' = calls st
    /\ service st' = service st.
Proof.
  unfold cycleFailed, messageOf, createFailedCycleResult, logCycleResult, bind.
  cbn [ret]. rewrite readWorld_eq. rewrite readWorld_eq. cbn [ret].
  intros H. injection H as <- <-.
  eexists. split; [reflexivity |]. repeat split; reflexivity.
Qed.

Lemma gather_noTrade :
  holds (fun st st' => sameService st st' /\ callsAdded noTrade st st')
    (gatherMarketData env config).
Proof.
  apply holds_and; [apply gatherMarketData_sameService |].
  eapply holds_weaken; [| apply gatherMarketData_calls].
  intros st st'. apply callsAdded_weaken.
  intros [] Hc; try discriminate Hc; reflexivity.
Qed.

Lemma runCycle_inv cid t0 (st st' : State (World := World)) o :
  runCycle env config cid t0 st = (o, st') ->
  (exists e, o = Thrown e /\ sameService st st' /\ callsAdded noTrade st st')
  \/ (exists r, o = Returned r /\ completed env config cid st st' r).
Proof.
  intros H. unfold runCycle in H. inv_bind H.
  { left. exists e. split; [reflexivity |]. exact (gather_noTrade _ _ _ H). }
  destruct (gather_noTrade _ _ _ Ha) as [Hs0 Hc0].
  erewrite bind_returned in H by reflexivity.
  inv_bind H.
  { left. exists e. split; [reflexivity |]. split.
    - eapply sameService_trans; [exact Hs0 |]. exact (sameService_call _ _ _ _ _ H).
    - eapply callsAdded_trans; [exact Hc0 |].
      refine (callsAdded_call noTrade _ _ _ _ _ _ H). reflexivity. }
  right. pose proof (sameService_call _ _ _ _ _ Ha0) as Hs1.
  assert (Hc1 : callsAdded noTrade st st1).
  { eapply callsAdded_trans; [exact Hc0 |].
    refine (callsAdded_call noTrade _ _ _ _ _ _ Ha0). reflexivity. }
  rewrite (bind_returned _ _ _ _ _ (readWorld_eq _ _)) in H.
  cbv zeta in H.
  set (now := fst (dateNow env (world st1))) in H.
  set (st2 := {| service := service st1;
                 world := snd (dateNow env (world st1));
                 calls := calls st1 |}) in H.
  set (l := filterInstructions config
              (Parser.parseAIResponse now (content a0))) in H.
  assert (Hl : Forall (passedFilter config) l).
  { apply Forall_forall. intros i Hi. apply filterInstructions_passed in Hi.
    destruct Hi as [Hv Hsv]. apply survives_passed; assumption. }
  inv_bind H.
  { destruct (negb (dryRun config) && negb (Nat.eqb (List.length l) 0)).
    - apply executeAll_counts in H. destruct H as (rs & Hrs & _). discriminate Hrs.
    - discriminate H. }
  assert (Hx : List.length a1 = (if dryRun config then 0%nat else List.length l)
               /\ tradesCounted (successes a1) st2 st3
               /\ callsAdded
                    (executesOnly (fun i => In i l /\ dryRun config = false)) st2 st3
               /\ (dryRun config = true -> calls st3 = calls st2)).
  { destruct (dryRun config) eqn:Ed; cbn [negb andb] in Ha1.
    - injection Ha1 as <- <-. split; [reflexivity |]. split.
      + unfold tradesCounted, successes. cbn. repeat split; lia.
      + split; [apply callsAdded_refl | reflexivity].
    - destruct (Nat.eqb (List.length l) 0) eqn:El; cbn [negb] in Ha1.
      + injection Ha1 as <- <-. apply Nat.eqb_eq in El. split; [symmetry; exact El |].
        split.
        * unfold tradesCounted, successes. cbn. repeat split; lia.
        * split; [apply callsAdded_refl | discriminate].
      + pose proof (executeAll_executes
                      (fun i => In i l /\ false = false) l
                      (fun i Hi => conj Hi eq_refl) _ _ _ Ha1) as Hce.
        apply executeAll_counts in Ha1. destruct Ha1 as (rs & Hrs & Hlen & Hc).
        injection Hrs as ->. split; [exact Hlen |]. split; [exact Hc |].
        split; [exact Hce | discriminate]. }
  destruct Hx as (Hlen & (C1 & C2 & C3 & C4 & C5) & Hce & Hdry).
  inv_bind H.
  { apply createSuccessfulCycleResult_inv in H. destruct H as (r & Hr & _).
    discriminate Hr. }
  apply createSuccessfulCycleResult_inv in Ha2.
  destruct Ha2 as (r & Hr & R1 & R2 & R3 & R4 & R5 & R6 & Hc4 & Hs4).
  injection Hr as ->. unfold logCycleResult, countCycle, bind in H.
  cbn [ret getService putService] in H. injection H as <- <-.
  exists r. split; [reflexivity |].
  assert (Hs2 : service st2 = service st) by (unfold sameService in *; cbn; congruence).
  unfold completed, orderOf. cbn [service isRunning currentCycle lastResetDate
                          totalExecutedTrades dailyTradeCount].
  rewrite R5, R6, Hs4, C1, C2, C3, C4, C5, Hs2.
  repeat split; try assumption; try reflexivity.
  - eapply callsAdded_trans with (b := st2).
    + destruct Hc1 as (n & En & Fn). exists n. split; [exact En |].
      eapply Forall_impl; [| exact Fn].
      intros [] Hc; try exact I. discriminate Hc.
    + destruct Hce as (n & En & Fn). exists n. cbn [calls]. split; [congruence |].
      exact Fn.
  - intros Hd. destruct Hc1 as (n & En & Fn). exists n. cbn [calls].
    split; [| exact Fn]. rewrite Hc4, (Hdry Hd). exact En.
Qed.

Lemma stateAfterReset_service (st : State (World := World)) :
  isRunning (service (stateAfterReset env st)) = isRunning (service st)
  /\ currentCycle (service (stateAfterReset env st)) = currentCycle (service st)
  /\ totalExecutedTrades (service (stateAfterReset env st))
     = totalExecutedTrades (service st)
  /\ lastResetDate (service (stateAfterReset env st)) = todayOf env st
  /\ dailyTradeCount (service (stateAfterReset env st)) = dailyAtStart env st
  /\ calls (stateAfterReset env st) = calls st.
Proof.
  unfold stateAfterReset, todayOf, dailyAtStart, todayOf.
  rewrite !readWorld_eq. cbn [snd].
  unfold resetDailyCountIfNeeded, bind. rewrite readWorld_eq.
  cbn [getService service world calls].
  destruct (String.eqb _ _) eqn:E; cbn [negb ret putService snd service calls
    isRunning currentCycle totalExecutedTrades dailyTradeCount lastResetDate].
  - apply String.eqb_eq in E. repeat split; try reflexivity. symmetry. exact E.
  - repeat split; reflexivity.
Qed.

Lemma skipped_capReached (st : State (World := World)) :
  skipped env config st = true <-> capReached env config st.
Proof.
  unfold skipped, capReached.
  destruct (stateAfterReset_service st) as (_ & _ & _ & _ & -> & _).
  apply Z.leb_le.
Qed.

Lemma cycle_at_limit (st : State (World := World)) :
  capReached env config st ->
  executeAITradingCycle env config st
  = createSkippedCycleResult env (cycleIdOf env st) "Daily trade limit reached"
      (startTimeOf env st) (stateAfterReset env st).
Proof.
  unfold capReached, stateAfterReset, cycleIdOf, startTimeOf. intros Hcap.
  unfold executeAITradingCycle.
  rewrite (bind_returned _ _ _ _ _ (readWorld_eq _ st)).
  rewrite (bind_returned _ _ _ _ _ (readWorld_eq _ _)).
  rewrite !readWorld_eq in Hcap |- *. cbn [snd world] in Hcap |- *.
  match goal with
  | |- tryCatch _ _ ?s = _ =>
      destruct (resetDailyCountIfNeeded_eq env s) as [Er _]
  end.
  apply Z.leb_le in Hcap.
  unfold tryCatch at 1.
  rewrite (bind_returned _ _ _ _ _ Er).
  unfold getService at 1.
  erewrite bind_returned by reflexivity.
  rewrite Hcap.
  unfold createSkippedCycleResult, bind. rewrite readWorld_eq. rewrite readWorld_eq.
  reflexivity.
Qed.

(** The three ways a cycle ends. *)
Lemma cycle_inv (st : State (World := World)) :
  exists r st',
    executeAITradingCycle env config st = (Returned r, st')
    /\ TradingCycleResult.cycleId r = cycleIdOf env st
    /\ TradingCycleResult.aiProvider r = aiProviderName env
    /\ ((skipped env config st = true
         /\ TradingCycleResult.success r = true
         /\ TradingCycleResult.error r = None
         /\ TradingCycleResult.instructions r = []
         /\ TradingCycleResult.executionResults r = []
         /\ calls st' = calls st
         /\ service st' = service (stateAfterReset env st))
        \/ (skipped env config st = false
            /\ TradingCycleResult.success r = false
            /\ (exists e, TradingCycleResult.error r = Some e)
            /\ TradingCycleResult.instructions r = []
            /\ TradingCycleResult.executionResults r = []
            /\ service st' = service (stateAfterReset env st)
            /\ callsAdded noTrade (stateAfterReset env st) st')
        \/ (skipped env config st = false
            /\ completed env config (cycleIdOf env st)
                 (stateAfterReset env st) st' r)).
Proof.
  destruct (skipped env config st) eqn:Esk.
  - apply skipped_capReached in Esk. rewrite (cycle_at_limit st Esk).
    destruct (createSkippedCycleResult env (cycleIdOf env st)
                "Daily trade limit reached" (startTimeOf env st)
                (stateAfterReset env st)) as [o st'] eqn:E.
    apply createSkippedCycleResult_inv in E.
    destruct E as (r & -> & R1 & R2 & R3 & R4 & R5 & R6 & Hc & Hs).
    exists r, st'. split; [reflexivity |]. split; [exact R3 |]. split; [exact R4 |].
    left. destruct (stateAfterReset_service st) as (_ & _ & _ & _ & _ & Hc0).
    repeat split; try assumption. congruence.
  - assert (Hn : ~ capReached env config st).
    { intros Hc. apply skipped_capReached in Hc. congruence. }
    rewrite (cycle_below_limit env config st Hn). unfold tryCatch.
    destruct (runCycle env config (cycleIdOf env st) (startTimeOf env st)
                (stateAfterReset env st)) as [o st1] eqn:E.
    apply runCycle_inv in E.
    destruct E as [(e & -> & Hs & Hc) | (r & -> & Hcomp)].
    + unfold caughtError.
      destruct (cycleFailed env (cycleIdOf env st) (startTimeOf env st)
                  (CaughtValue (Some e)) st1)
        as [o st'] eqn:E.
      apply cycleFailed_inv in E.
      destruct E as (r & -> & R1 & R2 & R3 & R4 & R5 & R6 & Hc' & Hs').
      exists r, st'. split; [reflexivity |]. split; [exact R3 |]. split; [exact R4 |].
      right. left. split; [reflexivity |]. split; [exact R1 |].
      split; [exists e; exact R2 |]. split; [exact R5 |]. split; [exact R6 |].
      split; [unfold sameService in Hs; congruence |].
      destruct Hc as (n & En & Fn). exists n. split; [congruence | exact Fn].
    + exists r, st1. split; [reflexivity |].
      pose proof Hcomp as (_ & _ & C3 & C4 & _).
      split; [exact C3 |]. split; [exact C4 |].
      right. right. split; [reflexivity | exact Hcomp].
Qed.


Lemma callsAdded_from_reset P (st st' : State (World := World)) :
  callsAdded P (stateAfterReset env st) st' -> callsAdded P st st'.
Proof.
  destruct (stateAfterReset_service st) as (_ & _ & _ & _ & _ & Hc).
  intros (n & En & Fn). exists n. split; [congruence | exact Fn].
Qed.

Lemma cycle_keeps_running (st : State (World := World)) :
  exists r st',
    executeAITradingCycle env config st = (Returned r, st')
    /\ isRunning (service st') = isRunning (service st).
Proof.
  destruct (cycle_inv st) as (r & st' & E & _ & _ & H).
  destruct (stateAfterReset_service st) as (A1 & _).
  exists r, st'. split; [exact E |].
  destruct H as [(_ & _ & _ & _ & _ & _ & Hs)
                | [(_ & _ & _ & _ & _ & Hs & _)
                  | (_ & _ & _ & _ & _ & _ & _ & B1 & _)]].
  - rewrite Hs. exact A1.
  - rewrite Hs. exact A1.
  - rewrite B1. exact A1.
Qed.

Lemma successes_nil : successes [] = 0%Z.
Proof. reflexivity. Qed.

(** ** What a cycle always does *)

(** X8.  Every failure inside a cycle being an [Error] that carries a
    message, a cycle returns a record, with the identifier it made and the
    name of the provider.  The record either says success and carries no
    error, or says failure, carries the message of the error and lists no
    instruction and no result.  The [catch] clause of the cycle returns
    such a failed record for every value it may receive other than [null]
    and [undefined], with the message the value holds, if any; on [null]
    and on [undefined] it throws itself, leaving the state as it was. *)
Theorem cycle_returns_a_record :
  (forall st : State (World := World),
     exists r st',
       executeAITradingCycle env config st = (Returned r, st')
       /\ TradingCycleResult.cycleId r = cycleIdOf env st
       /\ TradingCycleResult.aiProvider r = aiProviderName env
       /\ ((TradingCycleResult.success r = true
            /\ TradingCycleResult.error r = None)
           \/ (TradingCycleResult.success r = false
               /\ (exists e, TradingCycleResult.error r = Some e)
               /\ TradingCycleResult.instructions r = []
               /\ TradingCycleResult.executionResults r = [])))
  /\ (forall cid t0 message (st : State (World := World)),
        exists r st',
          cycleFailed env cid t0 (CaughtValue message) st = (Returned r, st')
          /\ TradingCycleResult.success r = false
          /\ TradingCycleResult.error r = message
          /\ TradingCycleResult.cycleId r = cid
          /\ TradingCycleResult.instructions r = []
          /\ TradingCycleResult.executionResults r = []
          /\ calls st' = calls st
          /\ service st' = service st)
  /\ (forall cid t0 (st : State (World := World)),
        (exists e, cycleFailed env cid t0 CaughtNull st = (Thrown e, st))
        /\ (exists e, cycleFailed env cid t0 CaughtUndefined st = (Thrown e, st))).
Proof.
  split; [| split].
  - intros st. destruct (cycle_inv st) as (r & st' & E & Hid & Hp & H).
    exists r, st'. split; [exact E |]. split; [exact Hid |]. split; [exact Hp |].
    destruct H as [(_ & S & Er & _) | [(_ & S & Er & Hi & Hx & _) | (_ & S & Er & _)]].
    + left. split; assumption.
    + right. repeat split; assumption.
    + left. split; assumption.
  - intros cid t0 message st.
    destruct (cycleFailed env cid t0 (CaughtValue message) st) as [o st'] eqn:E.
    destruct (cycleFailed_inv _ _ _ _ _ _ E)
      as (r & -> & H1 & H2 & H3 & _ & H5 & H6 & H7 & H8).
    exists r, st'. repeat split; assumption.
  - intros cid t0 st. split; eexists; reflexivity.
Qed.

(** X9.  The counters after a cycle: the two counters of trades have grown
    by the number of successful results of the record, the daily one from
    zero when the date has changed; the date of the last reset is the date
    the cycle read; the running flag is untouched; the number of cycles
    grows by one exactly when the record says success and the cycle was not
    skipped at the daily limit. *)
Theorem cycle_accounts_for_its_trades (st : State (World := World)) :
  exists r st',
    executeAITradingCycle env config st = (Returned r, st')
    /\ isRunning (service st') = isRunning (service st)
    /\ lastResetDate (service st') = todayOf env st
    /\ totalExecutedTrades (service st')
       = (totalExecutedTrades (service st)
          + successes (TradingCycleResult.executionResults r))%Z
    /\ dailyTradeCount (service st')
       = (dailyAtStart env st
          + successes (TradingCycleResult.executionResults r))%Z
    /\ currentCycle (service st')
       = (currentCycle (service st)
          + (if TradingCycleResult.success r && negb (skipped env config st)
             then 1 else 0))%Z.
Proof.
  destruct (cycle_inv st) as (r & st' & E & _ & _ & H).
  destruct (stateAfterReset_service st) as (A1 & A2 & A3 & A4 & A5 & _).
  exists r, st'. split; [exact E |].
  destruct H as [(Sk & S & _ & _ & Hx & _ & Hs)
                | [(Sk & S & _ & _ & Hx & Hs & _)
                  | (Sk & S & _ & _ & _ & _ & _ & B1 & B2 & B3 & B4 & B5 & _)]].
  - rewrite Hs, Hx, S, Sk, successes_nil, A1, A3, A4, A5, A2. cbn.
    repeat split; lia.
  - rewrite Hs, Hx, S, Sk, successes_nil, A1, A3, A4, A5, A2. cbn.
    repeat split; lia.
  - rewrite B1, B2, B3, B4, B5, S, Sk, A1, A2, A3, A4, A5. cbn.
    repeat split; reflexivity.
Qed.

(** X10.  In a dry run a cycle executes nothing: the record has no result,
    no call goes to the risk manager, the executor or the messaging
    service, and the counters of trades do not grow. *)
Theorem dry_run_trades_nothing (st : State (World := World)) :
  dryRun config = true ->
  exists r st',
    executeAITradingCycle env config st = (Returned r, st')
    /\ TradingCycleResult.executionResults r = []
    /\ callsAdded noTrade st st'
    /\ totalExecutedTrades (service st') = totalExecutedTrades (service st)
    /\ dailyTradeCount (service st') = dailyAtStart env st.
Proof.
  intros Hd. destruct (cycle_inv st) as (r & st' & E & _ & _ & H).
  destruct (stateAfterReset_service st) as (A1 & A2 & A3 & A4 & A5 & Ac).
  exists r, st'. split; [exact E |].
  destruct H as [(Sk & S & _ & _ & Hx & Hc & Hs)
                | [(Sk & S & _ & _ & Hx & Hs & Hc)
                  | (Sk & S & _ & _ & _ & _ & Hlen & _ & _ & _ & B4 & B5 & _ & Hc)]].
  - split; [exact Hx |]. split.
    + exists []. split; [rewrite Hc; symmetry; apply app_nil_r | constructor].
    + rewrite Hs. split; assumption.
  - split; [exact Hx |]. split; [apply callsAdded_from_reset; exact Hc |].
    rewrite Hs. split; assumption.
  - rewrite Hd in Hlen. apply length_zero_iff_nil in Hlen.
    split; [exact Hlen |]. split; [apply callsAdded_from_reset; exact (Hc Hd) |].
    rewrite B4, B5, Hlen, successes_nil, A3, A5. split; lia.
Qed.

(** X11.  Every instruction of the record of a cycle passed validation and
    the filter: its pair is one of the configured pairs, it is not a HOLD
    and its confidence is not below the threshold.  Every order the cycle
    sends to the executor is for an instruction of the record and is sent
    outside a dry run; outside a dry run the record has one result for each
    of its instructions. *)
Theorem orders_are_for_filtered_instructions (st : State (World := World)) :
  exists r st',
    executeAITradingCycle env config st = (Returned r, st')
    /\ Forall (passedFilter config) (TradingCycleResult.instructions r)
    /\ callsAdded (orderOf config r) st st'
    /\ (dryRun config = false ->
        List.length (TradingCycleResult.executionResults r)
        = List.length (TradingCycleResult.instructions r)).
Proof.
  destruct (cycle_inv st) as (r & st' & E & _ & _ & H).
  exists r, st'. split; [exact E |].
  assert (Hw : forall a b : State (World := World),
             callsAdded noTrade a b -> callsAdded (orderOf config r) a b).
  { intros a b. apply callsAdded_weaken.
    intros [] Hc; try exact I. discriminate Hc. }
  destruct H as [(_ & _ & _ & Hi & Hx & Hc & _)
                | [(_ & _ & _ & Hi & Hx & _ & Hc)
                  | (_ & _ & _ & _ & _ & Hf & Hlen & _ & _ & _ & _ & _ & Hc & _)]].
  - rewrite Hi, Hx. split; [constructor |]. split; [| reflexivity].
    exists []. split; [rewrite Hc; symmetry; apply app_nil_r | constructor].
  - rewrite Hi, Hx. split; [constructor |]. split; [| reflexivity].
    apply Hw. apply callsAdded_from_reset. exact Hc.
  - split; [exact Hf |]. split; [apply callsAdded_from_reset; exact Hc |].
    intros Hd. rewrite Hd in Hlen. exact Hlen.
Qed.

(** X12.  A cycle whose record says failure has traded nothing: since the
    daily reset no field of the service has changed, and no call went to
    the risk manager, the executor or the messaging service. *)
Theorem failed_cycle_trades_nothing (st st' : State (World := World)) r :
  executeAITradingCycle env config st = (Returned r, st') ->
  TradingCycleResult.success r = false ->
  service st' = service (stateAfterReset env st)
  /\ callsAdded noTrade st st'.
Proof.
  intros E Hf. destruct (cycle_inv st) as (r' & st1 & E' & _ & _ & H).
  rewrite E in E'. injection E' as <- <-.
  destruct H as [(_ & S & _) | [(_ & _ & _ & _ & _ & Hs & Hc) | (_ & S & _)]];
    try congruence.
  split; [exact Hs | apply callsAdded_from_reset; exact Hc].
Qed.

(** X14.  When the order is executed and the notification of it fails, the
    result pushed for the instruction says failure with the message of the
    messaging service, and the trade is not counted, although the order has
    gone to the executor. *)
Theorem failed_notification_reports_failed_trade
    i (st : State (World := World)) a w r w2 e w3 :
  assessRisk env (riskRequest i) (world st) = (Returned a, w) ->
  canExecute a = true ->
  executorExecuteInstruction env i w = (Returned r, w2) ->
  ExecutionResult.success r = true ->
  telegramEnabled config = true ->
  sendMessage env (tradeMessageText env i r) w2 = (Thrown e, w3) ->
  exists r' st',
    executeOne env config i st = (Returned r', st')
    /\ ExecutionResult.success r' = false
    /\ ExecutionResult.instruction r' = i
    /\ ExecutionResult.error r' = Some e
    /\ service st' = service st
    /\ calls st'
       = (calls st ++ [CallAssessRisk (riskRequest i); CallExecuteInstruction i;
                       CallSendMessage (tradeMessageText env i r)])%list.
Proof.
  intros Ea Ec Ee Es Et Em.
  assert (E : exists st',
             executeInstruction env config i st
             = (Returned {| ExecutionResult.success := false;
                            ExecutionResult.instruction := i;
                            ExecutionResult.binanceOrderId := None;
                            ExecutionResult.executedPrice := None;
                            ExecutionResult.executedQuantity := None;
                            ExecutionResult.error := Some e;
                            ExecutionResult.timestamp := fst (dateNow env w3) |},
                st')
             /\ service st' = service st
             /\ calls st'
                = (calls st ++ [CallAssessRisk (riskRequest i);
                                CallExecuteInstruction i;
                                CallSendMessage (tradeMessageText env i r)])%list).
  { unfold executeInstruction, tryCatch, bind.
    rewrite call_eq, Ea. cbn [fst snd]. rewrite Ec. cbn [negb ret].
    rewrite call_eq. cbn [world service calls]. rewrite Ee. cbn [fst snd].
    rewrite Et, Es. cbn [andb]. rewrite call_eq. cbn [world service calls].
    rewrite Em. cbn [fst snd]. rewrite failedExecution_eq.
    eexists. split; [reflexivity |].
    rewrite afterClock_calls, afterClock_service. cbn [service calls].
    split; [reflexivity |]. rewrite <- !app_assoc. reflexivity. }
  destruct E as (st' & E & Hs & Hc).
  eexists _, st'. rewrite (executeOne_eq env config _ _ _ _ E).
  cbn [ExecutionResult.success ExecutionResult.instruction ExecutionResult.error].
  repeat split; assumption.
Qed.

End Props.

(** ** The small world *)

Lemma dry_run_trades_nothing_witness :
  exists r st',
    executeAITradingCycle (Demo.env true true) rehearsing
      (Demo.start 0 Demo.twoBuys) = (Returned r, st')
    /\ TradingCycleResult.executionResults r = []
    /\ callsAdded noTrade (Demo.start 0 Demo.twoBuys) st'.
Proof.
  destruct (dry_run_trades_nothing (Demo.env true true) rehearsing
              (Demo.start 0 Demo.twoBuys) eq_refl)
    as (r & st' & E & Hx & Hc & _).
  exists r, st'. repeat split; assumption.
Defined.

Lemma failed_cycle_trades_nothing_witness :
  exists r st',
    executeAITradingCycle (Demo.env true false) Demo.config
      (Demo.start 0 Demo.twoBuys) = (Returned r, st')
    /\ TradingCycleResult.success r = false
    /\ service st'
       = service (stateAfterReset (Demo.env true false) (Demo.start 0 Demo.twoBuys))
    /\ callsAdded noTrade (Demo.start 0 Demo.twoBuys) st'.
Proof.
  destruct (executeAITradingCycle (Demo.env true false) Demo.config
              (Demo.start 0 Demo.twoBuys)) as [[r | e] st'] eqn:E;
    [| vm_compute in E; discriminate E].
  assert (Hf : TradingCycleResult.success r = false).
  { vm_compute in E. injection E as <- _. reflexivity. }
  exists r, st'. split; [reflexivity |]. split; [exact Hf |].
  exact (failed_cycle_trades_nothing (Demo.env true false) Demo.config _ _ _ E Hf).
Defined.

Lemma order_needs_risk_approval_witness :
  exists o st' rest,
    executeInstruction (Demo.env true true) Demo.config firstBuy
      (Demo.start 0 Demo.twoBuys) = (o, st')
    /\ calls st' = CallAssessRisk (riskRequest firstBuy) :: rest
    /\ allowed (Demo.env true true) firstBuy (Demo.start 0 Demo.twoBuys).
Proof.
  destruct (executeInstruction (Demo.env true true) Demo.config firstBuy
              (Demo.start 0 Demo.twoBuys)) as [o st'] eqn:E.
  destruct (order_needs_risk_approval (Demo.env true true) Demo.config _ _ _ _ E)
    as (rest & Hc & _).
  exists o, st', rest. split; [reflexivity |]. split; [exact Hc |].
  eexists _, _. split; reflexivity.
Defined.

Lemma failed_notification_reports_failed_trade_witness :
  exists r' st',
    executeOne telegramDown notifying firstBuy (Demo.start 0 Demo.twoBuys)
    = (Returned r', st')
    /\ ExecutionResult.success r' = false
    /\ ExecutionResult.error r' = Some "telegram down"
    /\ service st' = service (Demo.start 0 Demo.twoBuys)
    /\ In (CallExecuteInstruction firstBuy) (calls st').
Proof.
  destruct (failed_notification_reports_failed_trade telegramDown notifying
              firstBuy (Demo.start 0 Demo.twoBuys) _ _ _ _ _ _
              eq_refl eq_refl eq_refl eq_refl eq_refl eq_refl)
    as (r' & st' & E & Hs & _ & He & Hsv & Hc).
  exists r', st'. repeat split; try assumption.
  rewrite Hc. right. left. reflexivity.
Defined.

End OrchestratorMoreProps.

(* ===================================================================== *)
(** * Further properties of the market data *)
(* ===================================================================== *)

Module MarketDataProps.
Import Js Service OrchestratorSpec OrchestratorProps MarketDataMore.

Section Props.

Context {World AccountInfo Position Ticker Klines : Type}.
Variable env : Environment (World := World) (AccountInfo := AccountInfo)
                 (Position := Position) (Ticker := Ticker) (Klines := Klines).
Variable config : AITradingConfig.

Lemma getTechnicalIndicators_inv s (st : State (World := World)) :
  exists ind st',
    getTechnicalIndicators env config s st = (Returned ind, st')
    /\ service st' = service st
    /\ calls st'
       = (calls st ++ (if technicalIndicatorsEnabled config
                       then [CallGetKlines s] else []))%list.
Proof.
  unfold getTechnicalIndicators.
  destruct (technicalIndicatorsEnabled config); cbn [negb].
  - unfold tryCatch, bind. rewrite call_eq.
    destruct (getKlines env s (world st)) as [[k | e] w]; cbn [fst snd ret];
      eexists _, _; (split; [reflexivity |]); split; reflexivity.
  - eexists _, _. split; [reflexivity |]. split; [reflexivity |].
    symmetry. apply app_nil_r.
Qed.

Lemma getOneSymbol_inv s (st : State (World := World)) :
  exists l st',
    getOneSymbol env config s st = (Returned l, st')
    /\ service st' = service st
    /\ calls st' = (calls st ++ symbolCalls config s)%list
    /\ ((exists e w, get24hrTicker env s (world st) = (Thrown e, w)) /\ l = []
        \/ (exists t w ind,
              get24hrTicker env s (world st) = (Returned t, w)
              /\ l = [ {| symbol := s; ticker := t; technicalIndicators := ind |} ])).
Proof.
  unfold getOneSymbol, tryCatch.
  rewrite (bind_returned _ _ _ _ _
             (started_eq _ _ _ _ (call_eq (CallGet24hrTicker s)
                                    (get24hrTicker env s) st))).
  match goal with
  | |- context [bind (started (getTechnicalIndicators env config s)) _ ?s1] =>
      destruct (getTechnicalIndicators_inv s s1) as (ind & st2 & Ei & Hs & Hc)
  end.
  rewrite (bind_returned _ _ _ _ _ (started_eq _ _ _ _ Ei)).
  cbn [service calls] in Hs, Hc.
  assert (Hcalls : calls st2 = (calls st ++ symbolCalls config s)%list).
  { rewrite Hc. unfold symbolCalls. rewrite <- app_assoc. reflexivity. }
  unfold bind, await, ret.
  destruct (get24hrTicker env s (world st)) as [[t | e] w] eqn:Et; cbn [fst].
  - eexists _, _. split; [reflexivity |]. split; [exact Hs |].
    split; [exact Hcalls |]. right. eexists t, w, ind. split; reflexivity.
  - eexists _, _. split; [reflexivity |]. split; [exact Hs |].
    split; [exact Hcalls |]. left. split; [exists e, w; reflexivity | reflexivity].
Qed.

Lemma tickersAsked_app l1 l2 :
  tickersAsked (l1 ++ l2) = (tickersAsked l1 ++ tickersAsked l2)%list.
Proof.
  induction l1 as [| c rest IH]; [reflexivity |].
  destruct c; cbn [tickersAsked app]; rewrite ?IH; reflexivity.
Qed.

Lemma klinesAsked_app l1 l2 :
  klinesAsked (l1 ++ l2) = (klinesAsked l1 ++ klinesAsked l2)%list.
Proof.
  induction l1 as [| c rest IH]; [reflexivity |].
  destruct c; cbn [klinesAsked app]; rewrite ?IH; reflexivity.
Qed.

Lemma subsequence_refl {A : Type} (l : list A) : subsequence l l.
Proof. induction l; constructor; assumption. Qed.

Lemma getSymbolDataFor_inv pairs (st : State (World := World)) :
  exists l st' new,
    getSymbolDataFor env config pairs st = (Returned l, st')
    /\ subsequence (map symbol l) pairs
    /\ service st' = service st
    /\ calls st' = (calls st ++ new)%list
    /\ new = flat_map (symbolCalls config) pairs
    /\ ((forall s w, In s pairs ->
           exists t w', get24hrTicker env s w = (Returned t, w')) ->
        map symbol l = pairs).
Proof.
  revert st. induction pairs as [| s rest IH]; intros st.
  - exists [], st, []. split; [reflexivity |]. split; [constructor |].
    split; [reflexivity |]. split; [symmetry; apply app_nil_r |].
    split; reflexivity.
  - cbn [getSymbolDataFor].
    destruct (getOneSymbol_inv s st) as (one & st1 & E1 & Hs1 & Hc1 & Hone).
    destruct (IH st1) as (more & st2 & new & E2 & Hsub & Hs2 & Hc2 & Hnew & Hall).
    rewrite (bind_returned _ _ _ _ _ E1), (bind_returned _ _ _ _ _ E2).
    exists (one ++ more)%list, st2, (symbolCalls config s ++ new)%list.
    split; [reflexivity |]. rewrite map_app.
    split; [| split; [congruence | split; [| split]]].
    + destruct Hone as [[_ ->] | (t & w & ind & _ & ->)]; cbn [map app symbol].
      * apply subsequence_skip. exact Hsub.
      * apply subsequence_keep. exact Hsub.
    + rewrite Hc2, Hc1. symmetry. apply app_assoc.
    + cbn [flat_map]. rewrite Hnew. reflexivity.
    + intros Hok. rewrite Hall by (intros s' w' Hin; apply Hok; right; exact Hin).
      destruct Hone as [[(e & w & Et) _] | (t & w & ind & _ & ->)].
      * destruct (Hok s (world st) (or_introl eq_refl)) as (t & w' & Et').
        congruence.
      * reflexivity.
Qed.

Lemma tickersAsked_symbolCalls pairs :
  tickersAsked (flat_map (symbolCalls config) pairs) = pairs.
Proof.
  induction pairs as [| s rest IH]; [reflexivity |].
  cbn [flat_map]. rewrite tickersAsked_app, IH. unfold symbolCalls.
  destruct (technicalIndicatorsEnabled config); reflexivity.
Qed.

Lemma klinesAsked_symbolCalls pairs :
  klinesAsked (flat_map (symbolCalls config) pairs)
  = if technicalIndicatorsEnabled config then pairs else [].
Proof.
  induction pairs as [| s rest IH].
  - destruct (technicalIndicatorsEnabled config); reflexivity.
  - cbn [flat_map]. rewrite klinesAsked_app, IH. unfold symbolCalls.
    destruct (technicalIndicatorsEnabled config); reflexivity.
Qed.

(** X15.  [getSymbolData] always returns.  The symbols of its entries are the
    configured pairs in their order with some left out; the ticker is read
    once for every configured pair, in that order, whatever fails, and the
    candles are read once for every pair when the indicators are enabled and
    never otherwise; no field of the service changes. *)
Theorem symbol_data_follows_trading_pairs (st : State (World := World)) :
  exists l st' new,
    getSymbolData env config st = (Returned l, st')
    /\ subsequence (map symbol l) (tradingPairs config)
    /\ service st' = service st
    /\ calls st' = (calls st ++ new)%list
    /\ tickersAsked new = tradingPairs config
    /\ klinesAsked new
       = (if technicalIndicatorsEnabled config then tradingPairs config else []).
Proof.
  unfold getSymbolData.
  destruct (getSymbolDataFor_inv (tradingPairs config) st)
    as (l & st' & new & E & Hsub & Hs & Hc & Hnew & _).
  exists l, st', new. split; [exact E |]. split; [exact Hsub |].
  split; [exact Hs |]. split; [exact Hc |]. rewrite Hnew.
  split; [apply tickersAsked_symbolCalls | apply klinesAsked_symbolCalls].
Qed.

(** X16.  When the ticker can be read for every configured pair, the entries
    of [getSymbolData] are for the configured pairs, one each and in their
    order: a failure to read the candles never drops a pair. *)
Theorem failed_candles_drop_no_pair (st : State (World := World)) :
  (forall s w, In s (tradingPairs config) ->
     exists t w', get24hrTicker env s w = (Returned t, w')) ->
  exists l st',
    getSymbolData env config st = (Returned l, st')
    /\ map symbol l = tradingPairs config.
Proof.
  intros Hok. unfold getSymbolData.
  destruct (getSymbolDataFor_inv (tradingPairs config) st)
    as (l & st' & new & E & _ & _ & _ & _ & Hall).
  exists l, st'. split; [exact E | exact (Hall Hok)].
Qed.

End Props.

Lemma failed_candles_drop_no_pair_witness :
  exists l st',
    getSymbolData klinesDown Demo.config (Demo.start 0 Demo.twoBuys)
    = (Returned l, st')
    /\ map symbol l = ["BTCUSDT"; "ETHUSDT"].
Proof.
  apply (failed_candles_drop_no_pair klinesDown Demo.config
           (Demo.start 0 Demo.twoBuys)).
  intros s w _. exists tt, w. reflexivity.
Defined.

End MarketDataProps.

(* ===================================================================== *)
(** * Properties of starting and stopping *)
(* ===================================================================== *)

Module LifecycleProps.
Import Js Service OrchestratorSpec OrchestratorMore OrchestratorProps Lifecycle.

Section Props.

Context {World AccountInfo Position Ticker Klines : Type}.
Variable env : Environment (World := World) (AccountInfo := AccountInfo)
                 (Position := Position) (Ticker := Ticker) (Klines := Klines).
Variable config : AITradingConfig.
Variable notices : Notices (World := World).

Lemma sameCounters_refl (st : State (World := World)) : sameCounters st st.
Proof. repeat split; reflexivity. Qed.

Lemma validateConnections_inv (st st' : State (World := World)) o :
  validateConnections env notices st = (o, st') ->
  service st' = service st
  /\ calls st' = (calls st ++ [CallGetAccountInfo])%list
  /\ (o = Returned tt \/ exists e, o = Thrown e /\ validationFails env notices st e).
Proof.
  unfold validateConnections, validationFails, bind, tryCatch, ask.
  rewrite call_eq.
  destruct (getAccountInfo env (world st)) as [[a | e0] w] eqn:Ea; cbn [fst snd].
  - cbv [ret world service calls].
    destruct (validateConnection notices) as [validate |] eqn:Ev.
    + destruct (validate w) as [[[] | e] w'] eqn:Ew; cbv [negb ret throw];
        intros H; injection H as <- <-; cbn [service calls].
      * split; [reflexivity |]. split; [reflexivity |]. left. reflexivity.
      * split; [reflexivity |]. split; [reflexivity |]. right.
        eexists. split; [reflexivity |]. right.
        exists a, w, validate, w'. split; [reflexivity |]. split; [reflexivity |].
        left. split; [exact Ew | reflexivity].
      * split; [reflexivity |]. split; [reflexivity |]. right.
        eexists. split; [reflexivity |]. right.
        exists a, w, validate, w'. split; [reflexivity |]. split; [reflexivity |].
        right. exact Ew.
    + intros H. injection H as <- <-. cbn [service calls].
      split; [reflexivity |]. split; [reflexivity |]. left. reflexivity.
  - cbn [throw]. intros H. injection H as <- <-. cbn [service calls].
    split; [reflexivity |]. split; [reflexivity |]. right.
    eexists. split; [reflexivity |]. left. exists e0, w. split; reflexivity.
Qed.

Lemma start_running (st : State (World := World)) :
  isRunning (service st) = true ->
  start env config notices st
  = (Thrown "AI Trading Service is already running", st).
Proof. intros H. unfold start, bind, getService. rewrite H. reflexivity. Qed.

(** X17.  [start] on a service that is not running ends in one of three
    ways.  It returns having set the timer of the loop with delay 0, and
    the service is running.  Or the validation of the connections has
    failed: it throws, the service is still not running and no notification
    was sent.  Or the start notification has failed: it throws the error of
    the messaging service, no timer is set, and the service is left
    running.  The counters are untouched in every case. *)
Theorem start_outcomes (st st' : State (World := World)) o :
  isRunning (service st) = false ->
  start env config notices st = (o, st') ->
  sameCounters st st'
  /\ ((o = Returned 0%Z /\ isRunning (service st') = true)
      \/ (exists e,
            o = Thrown e
            /\ validationFails env notices st e
            /\ isRunning (service st') = false
            /\ calls st' = (calls st ++ [CallGetAccountInfo])%list)
      \/ (exists e,
            o = Thrown e
            /\ isRunning (service st') = true
            /\ telegramEnabled config = true
            /\ calls st'
               = (calls st ++ [CallGetAccountInfo;
                               CallSendMessage (startedText notices)])%list)).
Proof.
  intros Hidle H. unfold start in H.
  unfold bind at 1 in H. cbn [getService] in H. rewrite Hidle in H.
  unfold bind at 1 in H.
  destruct (validateConnections env notices st) as [[[] | e] st1] eqn:Ev;
    apply validateConnections_inv in Ev; destruct Ev as (Hs & Hc & Ho).
  - unfold setRunning, bind, getService, putService, startTradingLoop in H.
    cbn [service world calls] in H.
    destruct (telegramEnabled config) eqn:Et.
    + rewrite call_eq in H. cbn [world service calls] in H.
      destruct (sendMessage env (startedText notices) (world st1))
        as [[[] | e] w] eqn:Em; cbn [fst snd ret] in H;
        injection H as <- <-; cbn [service isRunning currentCycle
          totalExecutedTrades dailyTradeCount lastResetDate calls];
        rewrite Hs.
      * split; [unfold sameCounters; cbn [service currentCycle totalExecutedTrades dailyTradeCount lastResetDate]; rewrite ?Hs; repeat split; reflexivity |]. left. split; reflexivity.
      * split; [unfold sameCounters; cbn [service currentCycle totalExecutedTrades dailyTradeCount lastResetDate]; rewrite ?Hs; repeat split; reflexivity |]. right. right. exists e.
        split; [reflexivity |]. split; [reflexivity |]. split; [reflexivity |].
        rewrite Hc, <- app_assoc. reflexivity.
    + cbn [ret] in H. injection H as <- <-.
      cbn [service isRunning currentCycle totalExecutedTrades dailyTradeCount
           lastResetDate]. rewrite Hs.
      split; [unfold sameCounters; cbn [service currentCycle totalExecutedTrades dailyTradeCount lastResetDate]; rewrite ?Hs; repeat split; reflexivity |]. left. split; reflexivity.
  - injection H as <- <-. unfold sameCounters. rewrite Hs.
    split; [repeat split; reflexivity |]. right. left. exists e.
    destruct Ho as [Ho | (e' & Ho & Hv)]; [discriminate Ho |].
    injection Ho as <-. repeat split; assumption.
Qed.

(** X18.  When the connections validate and the start notification fails,
    [start] throws the error of the messaging service with the service
    left running and no timer set; a second [start] is then refused with
    the message that the service is already running, and changes
    nothing. *)
Theorem failed_start_notification_blocks_restart
    (st st1 : State (World := World)) e w :
  isRunning (service st) = false ->
  validateConnections env notices st = (Returned tt, st1) ->
  telegramEnabled config = true ->
  sendMessage env (startedText notices) (world st1) = (Thrown e, w) ->
  exists st2,
    start env config notices st = (Thrown e, st2)
    /\ isRunning (service st2) = true
    /\ sameCounters st st2
    /\ start env config notices st2
       = (Thrown "AI Trading Service is already running", st2).
Proof.
  intros Hidle Ev Et Em.
  destruct (validateConnections_inv _ _ _ Ev) as (Hs & _ & _).
  assert (E : exists st2,
             start env config notices st = (Thrown e, st2)
             /\ isRunning (service st2) = true
             /\ sameCounters st st2).
  { unfold start. unfold bind at 1. cbn [getService]. rewrite Hidle.
    rewrite (bind_returned _ _ _ _ _ Ev).
    unfold setRunning, bind, getService, putService. rewrite Et, call_eq.
    cbn [world service calls]. rewrite Em. cbn [fst snd].
    eexists. split; [reflexivity |]. cbn [service isRunning]. rewrite Hs.
    split; [reflexivity | unfold sameCounters; cbn [service currentCycle totalExecutedTrades dailyTradeCount lastResetDate]; rewrite ?Hs; repeat split; reflexivity]. }
  destruct E as (st2 & E & Hr & Hsc).
  exists st2. split; [exact E |]. split; [exact Hr |]. split; [exact Hsc |].
  apply start_running. exact Hr.
Qed.

Lemma loop_stopped (st : State (World := World)) :
  isRunning (service st) = false ->
  loop env config st = (Returned None, st).
Proof. intros H. unfold loop, bind, getService. rewrite H. reflexivity. Qed.

(** X19.  After [stop], whether it returns or its notification fails, the
    service is not running and the counters are as before; a run of the
    loop then makes no call and sets no timer.  On a service that is not
    running [stop] does nothing at all. *)
Theorem stop_ends_the_loop (st st' : State (World := World)) o :
  stop env config notices st = (o, st') ->
  isRunning (service st') = false
  /\ sameCounters st st'
  /\ loop env config st' = (Returned None, st')
  /\ (isRunning (service st) = false -> o = Returned tt /\ st' = st).
Proof.
  intros H.
  assert (Hx : isRunning (service st') = false /\ sameCounters st st'
               /\ (isRunning (service st) = false -> o = Returned tt /\ st' = st)).
  { unfold stop, bind, getService in H.
    destruct (isRunning (service st)) eqn:Hr; cbn [negb] in H.
    - unfold setRunning, bind, getService, putService in H.
      cbn [service world calls currentCycle totalExecutedTrades] in H.
      destruct (telegramEnabled config).
      + rewrite call_eq in H. injection H as _ <-.
        cbn [service isRunning]. split; [reflexivity |].
        split; [unfold sameCounters; cbn; repeat split; reflexivity | discriminate].
      + injection H as _ <-. cbn [service isRunning]. split; [reflexivity |].
        split; [unfold sameCounters; cbn; repeat split; reflexivity | discriminate].
    - injection H as <- <-. split; [exact Hr |].
      split; [apply sameCounters_refl |]. intros _. split; reflexivity. }
  destruct Hx as (Hr & Hc & Hi). split; [exact Hr |]. split; [exact Hc |].
  split; [apply loop_stopped; exact Hr | exact Hi].
Qed.

(** X20.  A run of the loop on a running service executes one cycle and
    then sets the timer of its next run with the configured interval in
    milliseconds. *)
Theorem loop_runs_one_cycle_and_sets_timer (st : State (World := World)) :
  isRunning (service st) = true ->
  exists r st',
    executeAITradingCycle env config st = (Returned r, st')
    /\ loop env config st
       = (Returned (Some (intervalSeconds config * 1000)%Z), st').
Proof.
  intros Hr.
  destruct (OrchestratorMoreProps.cycle_keeps_running env config st)
    as (r & st' & E & Hk).
  exists r, st'. split; [exact E |].
  unfold loop. unfold bind at 1. cbn [getService]. rewrite Hr. cbn [negb].
  unfold bind at 1. unfold tryCatch.
  rewrite (bind_returned _ _ _ _ _ E). cbn [ret].
  unfold bind, getService. rewrite Hk, Hr. reflexivity.
Qed.

End Props.

(** ** The small world *)

Lemma start_outcomes_witness :
  exists st',
    start (Demo.env true true) Demo.config demoNotices idle = (Returned 0%Z, st')
    /\ isRunning (service st') = true
    /\ sameCounters idle st'.
Proof.
  destruct (start (Demo.env true true) Demo.config demoNotices idle)
    as [o st'] eqn:E.
  destruct (start_outcomes (Demo.env true true) Demo.config demoNotices
              idle st' o eq_refl E) as [Hc _].
  vm_compute in E. injection E as <- <-.
  eexists. split; [reflexivity |]. split; [reflexivity | exact Hc].
Defined.

Lemma failed_start_notification_blocks_restart_witness :
  exists st2,
    start telegramDown notifying demoNotices idle
    = (Thrown "telegram down", st2)
    /\ isRunning (service st2) = true
    /\ start telegramDown notifying demoNotices st2
       = (Thrown "AI Trading Service is already running", st2).
Proof.
  destruct (failed_start_notification_blocks_restart telegramDown notifying
              demoNotices idle _ _ _ eq_refl eq_refl eq_refl eq_refl)
    as (st2 & E & Hr & _ & E2).
  exists st2. repeat split; assumption.
Defined.

Lemma stop_ends_the_loop_witness :
  exists o st',
    stop (Demo.env true true) Demo.config demoNotices (Demo.start 0 Demo.twoBuys)
    = (o, st')
    /\ isRunning (service st') = false
    /\ loop (Demo.env true true) Demo.config st' = (Returned None, st').
Proof.
  destruct (stop (Demo.env true true) Demo.config demoNotices
              (Demo.start 0 Demo.twoBuys)) as [o st'] eqn:E.
  destruct (stop_ends_the_loop (Demo.env true true) Demo.config demoNotices
              _ _ _ E) as (Hr & _ & Hl & _).
  exists o, st'. repeat split; assumption.
Defined.

Lemma loop_runs_one_cycle_and_sets_timer_witness :
  exists st',
    loop (Demo.env true true) Demo.config (Demo.start 0 Demo.twoBuys)
    = (Returned (Some 60000%Z), st').
Proof.
  destruct (loop_runs_one_cycle_and_sets_timer (Demo.env true true) Demo.config
              (Demo.start 0 Demo.twoBuys) eq_refl) as (r & st' & _ & E).
  exists st'. exact E.
Defined.

End LifecycleProps.

(* ===================================================================== *)
(** * Properties of the provider *)
(* ===================================================================== *)

Module ProviderProps.
Import Js Service Provider MarketDataMore.

(** ** The prompt *)

Lemma length_take n s : String.length (take n s) <= n.
Proof.
  revert s. induction n as [| n IH]; intros s; [cbn; lia |].
  destruct s as [| c r]; cbn [take String.length]; [lia |].
  specialize (IH r). lia.
Qed.

Lemma allChars_take p n s :
  DecoderMore.allChars p s = true -> DecoderMore.allChars p (take n s) = true.
Proof.
  revert s. induction n as [| n IH]; intros s H; [reflexivity |].
  destruct s as [| c r]; [reflexivity |].
  cbn [DecoderMore.allChars] in H. apply andb_true_iff in H as [Hc Hr].
  cbn [take DecoderMore.allChars]. rewrite Hc. exact (IH r Hr).
Qed.

Lemma singleSpaced_take n s :
  singleSpaced s = true -> singleSpaced (take n s) = true.
Proof.
  revert s. induction n as [| n IH]; intros s H; [reflexivity |].
  destruct s as [| c r]; [reflexivity |].
  cbn [singleSpaced] in H. apply andb_true_iff in H as [Hc Hr].
  cbn [take singleSpaced]. rewrite (IH r Hr), andb_true_r.
  destruct n as [| n]; [cbn [take]; rewrite andb_false_r; reflexivity |].
  destruct r as [| d t]; [cbn [take]; rewrite andb_false_r; reflexivity |].
  exact Hc.
Qed.

Lemma firstChar_take n s c :
  DecoderMore.firstChar (take n s) = Some c -> DecoderMore.firstChar s = Some c.
Proof. destruct n, s; cbn; congruence. Qed.

Lemma white_space_eqb c : Ascii.eqb c " " = true -> isWhite c = true.
Proof. intros H. apply Ascii.eqb_eq in H. subst. reflexivity. Qed.

Lemma collapseFrom_chars b s :
  DecoderMore.allChars (fun c => negb (isControlWhite c)) (collapseFrom b s) = true.
Proof.
  revert b. induction s as [| c r IH]; intros b; [reflexivity |].
  cbn [collapseFrom]. destruct (isWhite c) eqn:Ew.
  - destruct b; [apply IH |]. cbn [DecoderMore.allChars]. rewrite IH. reflexivity.
  - cbn [DecoderMore.allChars]. rewrite IH. unfold isControlWhite. rewrite Ew.
    reflexivity.
Qed.

Lemma collapseFrom_first b s c :
  DecoderMore.firstChar (collapseFrom b s) = Some c ->
  Ascii.eqb c " " = true -> b = false /\ exists d, DecoderMore.firstChar s = Some d /\ isWhite d = true.
Proof.
  revert b. induction s as [| d r IH]; intros b H Hc; [discriminate H |].
  cbn [collapseFrom] in H. destruct (isWhite d) eqn:Ew.
  - destruct b.
    + destruct (IH true H Hc) as [Hb _]. discriminate Hb.
    + split; [reflexivity |]. exists d. split; [reflexivity | exact Ew].
  - cbn [DecoderMore.firstChar] in H. injection H as ->.
    apply white_space_eqb in Hc. congruence.
Qed.

Lemma collapseFrom_singleSpaced b s :
  singleSpaced (collapseFrom b s) = true.
Proof.
  revert b. induction s as [| c r IH]; intros b; [reflexivity |].
  cbn [collapseFrom]. destruct (isWhite c) eqn:Ew.
  - destruct b; [apply IH |]. cbn [singleSpaced]. rewrite IH, andb_true_r.
    destruct (collapseFrom true r) as [| d t] eqn:E; [reflexivity |].
    cbn [Ascii.eqb andb]. destruct (Ascii.eqb d " ") eqn:Ed; [| reflexivity].
    assert (H : DecoderMore.firstChar (collapseFrom true r) = Some d)
      by (rewrite E; reflexivity).
    destruct (collapseFrom_first _ _ _ H Ed) as [Hb _]. discriminate Hb.
  - cbn [singleSpaced]. rewrite IH, andb_true_r.
    destruct (Ascii.eqb c " ") eqn:Ec; [| reflexivity].
    apply white_space_eqb in Ec. congruence.
Qed.

(** X24.  The prompt that is posted has at most [PROMPT_LIMIT] characters,
    which is 50000; its only
    white space is the space, so no line break of the prompt is left; it
    has no two spaces in a row and does not begin with a space. *)
Theorem cleaned_prompt_is_one_line prompt :
  String.length (cleanPrompt prompt) <= PROMPT_LIMIT
  /\ DecoderMore.allChars (fun c => negb (isControlWhite c)) (cleanPrompt prompt) = true
  /\ singleSpaced (cleanPrompt prompt) = true
  /\ (forall c, DecoderMore.firstChar (cleanPrompt prompt) = Some c ->
        isWhite c = false).
Proof.
  unfold cleanPrompt, collapse. split; [| split; [| split]].
  - apply length_take.
  - apply allChars_take. apply collapseFrom_chars.
  - apply singleSpaced_take. apply collapseFrom_singleSpaced.
  - intros c H. apply firstChar_take in H.
    destruct (isWhite c) eqn:Ew; [| reflexivity].
    assert (Hs : Ascii.eqb c " " = true).
    { pose proof (collapseFrom_chars false (trim prompt)) as Hall.
      destruct (collapseFrom false (trim prompt)) as [| d t]; [discriminate H |].
      cbn [DecoderMore.firstChar] in H. injection H as ->.
      cbn [DecoderMore.allChars] in Hall. apply andb_true_iff in Hall as [Hd _].
      unfold isControlWhite in Hd. rewrite Ew in Hd. cbn [andb] in Hd.
      apply negb_true_iff in Hd. apply negb_false_iff in Hd. exact Hd. }
    destruct (collapseFrom_first _ _ _ H Hs) as [_ (d & Hd & Hw)].
    apply DecoderMoreProps.firstChar_trim in Hd. congruence.
Qed.

Section Props.

Context {World : Type}.
Variable client : Client (World := World).
Variable config : AIProviderConfig.

Lemma checkRateLimit_inv (st : State (World := World)) b st1 :
  checkRateLimit client config st = (b, st1) ->
  posted st1 = posted st
  /\ (requestCount (counters st1) = requestCount (counters st)
      \/ requestCount (counters st1) = 0%Z)
  /\ (b = true -> (inject_Z (requestCount (counters st1)) < limit config)%Q)
  /\ (b = false -> (limit config <= inject_Z (requestCount (counters st1)))%Q).
Proof.
  unfold checkRateLimit. destruct (now client (outside st)) as [t w].
  intros H. injection H as <- <-. cbn [posted counters].
  split; [reflexivity |]. split.
  - destruct (60000 <? t - lastResetTime (counters st))%Z; [right | left]; reflexivity.
  - split; intros Hb.
    + apply negb_true_iff in Hb. apply Qnot_le_lt. intros Hle.
      apply Qle_bool_iff in Hle. congruence.
    + apply negb_false_iff in Hb. apply Qle_bool_iff. exact Hb.
Qed.

Lemma requestDecision_inv prompt (st st' : State (World := World)) o :
  requestDecision client config prompt st = (o, st') ->
  (o = Thrown RATE_LIMITED
   /\ posted st' = posted st
   /\ (requestCount (counters st') = requestCount (counters st)
       \/ requestCount (counters st') = 0%Z)
   /\ (limit config <= inject_Z (requestCount (counters st')))%Q)
  \/ (posted st' = (posted st ++ [cleanPrompt prompt])%list
      /\ (requestCount (counters st') = (requestCount (counters st) + 1)%Z
          \/ requestCount (counters st') = 1%Z)
      /\ (inject_Z (requestCount (counters st') - 1) < limit config)%Q
      /\ ((exists r, o = Returned r /\ provider r = CLAUDE)
          \/ exists error, o = Thrown (handleApiError client error))).
Proof.
  unfold requestDecision.
  destruct (checkRateLimit client config st) as [b st1] eqn:Ec.
  apply checkRateLimit_inv in Ec. destruct Ec as (Hp & Hn & Ht & Hf).
  destruct b; cbn [negb].
  - unfold incrementRequestCount. cbn [outside counters posted].
    destruct (post client (cleanPrompt prompt) (outside st1)) as [[error | a] w].
    + intros H. injection H as <- <-. right. cbn [posted counters requestCount].
      split; [congruence |]. split; [destruct Hn as [-> | ->]; auto |].
      split; [| right; exists error; reflexivity].
      replace (requestCount (counters st1) + 1 - 1)%Z
        with (requestCount (counters st1)) by lia.
      exact (Ht eq_refl).
    + destruct (now client w) as [t w']. intros H. injection H as <- <-.
      right. cbn [posted counters requestCount].
      split; [congruence |]. split; [destruct Hn as [-> | ->]; auto |].
      split; [| left; eexists; split; reflexivity].
      replace (requestCount (counters st1) + 1 - 1)%Z
        with (requestCount (counters st1)) by lia.
      exact (Ht eq_refl).
  - intros H. injection H as <- <-. left. split; [reflexivity |].
    split; [exact Hp |]. split; [exact Hn | exact (Hf eq_refl)].
Qed.

(** X21.  A request the limiter refuses throws the message of the rate
    limit, posts nothing and is not counted.  A request it admits is posted
    once, with the cleaned prompt, and is counted, also when the post
    fails; it is admitted only while the count of the window is below the
    limit. *)
Theorem refused_request_posts_nothing prompt (st st' : State (World := World)) o :
  requestDecision client config prompt st = (o, st') ->
  (o = Thrown RATE_LIMITED
   /\ posted st' = posted st
   /\ (requestCount (counters st') = requestCount (counters st)
       \/ requestCount (counters st') = 0%Z)
   /\ (limit config <= inject_Z (requestCount (counters st')))%Q)
  \/ (posted st' = (posted st ++ [cleanPrompt prompt])%list
      /\ (requestCount (counters st') = (requestCount (counters st) + 1)%Z
          \/ requestCount (counters st') = 1%Z)
      /\ (inject_Z (requestCount (counters st') - 1) < limit config)%Q
      /\ ((exists r, o = Returned r /\ provider r = CLAUDE)
          \/ exists error, o = Thrown (handleApiError client error))).
Proof.
  intros H. apply requestDecision_inv in H.
  destruct H as [(Ho & Hp & Hn & Hl) | (Hp & Hn & Hl & Ho)].
  - left. repeat split; assumption.
  - right. repeat split; assumption.
Qed.

Lemma requestDecision_withinLimit prompt (st st' : State (World := World)) o :
  requestDecision client config prompt st = (o, st') ->
  withinLimit config st -> withinLimit config st'.
Proof.
  intros H [H0 Hl]. apply requestDecision_inv in H.
  destruct H as [(_ & _ & Hn & _) | (_ & Hn & Hlt & _)]; unfold withinLimit.
  - destruct Hn as [-> | ->]; [split; assumption | split; [lia | left; reflexivity]].
  - split; [destruct Hn as [-> | ->]; lia | right; exact Hlt].
Qed.

Lemma requestMultipleDecisions_inv prompts (st : State (World := World)) :
  exists new,
    posted (snd (requestMultipleDecisions client config prompts st))
    = (posted st ++ new)%list
    /\ subsequence new (map cleanPrompt prompts)
    /\ List.length (fst (requestMultipleDecisions client config prompts st))
       <= List.length new
    /\ Forall (fun r => provider r = CLAUDE)
         (fst (requestMultipleDecisions client config prompts st))
    /\ (withinLimit config st ->
        withinLimit config (snd (requestMultipleDecisions client config prompts st))).
Proof.
  revert st. induction prompts as [| p rest IH]; intros st.
  - exists []. cbn. split; [symmetry; apply app_nil_r |]. split; [constructor |].
    split; [lia |]. split; [constructor | auto].
  - cbn [requestMultipleDecisions map].
    destruct (requestDecision client config p st) as [[r | e] st1] eqn:E.
    + pose proof (requestDecision_withinLimit _ _ _ _ E) as Hw.
      apply requestDecision_inv in E.
      destruct E as [(Ho & _) | (Hp & _ & _ & Hr)]; [discriminate Ho |].
      destruct Hr as [(r' & Hr' & Hprov) | (error & Ho)]; [| discriminate Ho].
      injection Hr' as <-.
      match goal with
      | |- context [requestMultipleDecisions client config rest ?s] =>
          destruct (IH s) as (new & Hn & Hsub & Hlen & Hall & Hinv);
          destruct (requestMultipleDecisions client config rest s) as [rs st3]
      end.
      unfold paused in *. cbn [fst snd posted counters] in *.
      exists (cleanPrompt p :: new). split; [| split; [| split; [| split]]].
      * rewrite Hn, Hp, <- app_assoc. reflexivity.
      * apply subsequence_keep. exact Hsub.
      * cbn [List.length]. lia.
      * constructor; assumption.
      * intros H. apply Hinv. exact (Hw H).
    + pose proof (requestDecision_withinLimit _ _ _ _ E) as Hw.
      apply requestDecision_inv in E.
      destruct (IH st1) as (new & Hn & Hsub & Hlen & Hall & Hinv).
      destruct E as [(_ & Hp & _) | (Hp & _)].
      * exists new. split; [congruence |].
        split; [apply subsequence_skip; exact Hsub |].
        split; [exact Hlen |]. split; [exact Hall |].
        intros H. apply Hinv. exact (Hw H).
      * exists (cleanPrompt p :: new). split; [| split; [| split; [| split]]].
        -- rewrite Hn, Hp, <- app_assoc. reflexivity.
        -- apply subsequence_keep. exact Hsub.
        -- cbn [List.length]. lia.
        -- exact Hall.
        -- intros H. apply Hinv. exact (Hw H).
Qed.

(** X22.  The count of the window stays within what the limit admits: when
    it is zero or at most one above a number below the limit before a
    request, or before a batch of requests, it is so after it. *)
Theorem request_count_stays_within_limit prompt prompts (st : State (World := World)) :
  withinLimit config st ->
  withinLimit config (snd (requestDecision client config prompt st))
  /\ withinLimit config (snd (requestMultipleDecisions client config prompts st)).
Proof.
  intros H. split.
  - destruct (requestDecision client config prompt st) as [o st'] eqn:E.
    exact (requestDecision_withinLimit _ _ _ _ E H).
  - destruct (requestMultipleDecisions_inv prompts st) as (_ & _ & _ & _ & _ & Hinv).
    exact (Hinv H).
Qed.

Lemma requestMultipleDecisions_all_posted prompts (st : State (World := World)) :
  (0 <= requestCount (counters st))%Z ->
  (inject_Z (requestCount (counters st) + Z.of_nat (List.length prompts))
   <= limit config)%Q ->
  posted (snd (requestMultipleDecisions client config prompts st))
  = (posted st ++ map cleanPrompt prompts)%list.
Proof.
  revert st. induction prompts as [| p rest IH]; intros st H0 Hl.
  - cbn. symmetry. apply app_nil_r.
  - cbn [requestMultipleDecisions map].
    assert (Hnext : forall o st1,
               requestDecision client config p st = (o, st1) ->
               posted st1 = (posted st ++ [cleanPrompt p])%list
               /\ (0 <= requestCount (counters st1))%Z
               /\ (inject_Z (requestCount (counters st1)
                             + Z.of_nat (List.length rest))
                   <= limit config)%Q).
    { intros o st1 E. apply requestDecision_inv in E.
      destruct E as [(_ & _ & Hn & Hle) | (Hp & Hn & _)].
      - exfalso. pose proof (Qle_trans _ _ _ Hl Hle) as Hc.
        rewrite <- Zle_Qle in Hc. cbn [List.length] in Hc.
        destruct Hn as [Hn | Hn]; rewrite Hn in Hc; lia.
      - split; [exact Hp |]. split; [destruct Hn as [-> | ->]; lia |].
        eapply Qle_trans; [| exact Hl]. rewrite <- Zle_Qle.
        cbn [List.length]. destruct Hn as [-> | ->]; lia. }
    destruct (requestDecision client config p st) as [[r | e] st1] eqn:E;
      destruct (Hnext _ _ eq_refl) as (Hp & H1 & H2).
    + specialize (IH (paused client st1) H1 H2).
      unfold paused in IH.
      destruct (requestMultipleDecisions client config rest _) as [rs st3].
      cbn [snd posted] in *. rewrite IH, Hp, <- app_assoc. reflexivity.
    + rewrite (IH st1 H1 H2), Hp, <- app_assoc. reflexivity.
Qed.

(** X23.  A batch goes through its prompts in order.  A prompt whose
    request throws is passed over and the batch goes on with the prompts
    after it; the response of a request that returns is kept, in order,
    and the batch goes on after its pause.  So the batch posts the cleaned
    prompts of some of its prompts, in their order and each once, and gives
    at most one response for each post; while the limit leaves room for
    all its prompts it posts every one of them, whatever fails.  Every
    response it gives names this provider. *)
Theorem batch_passes_over_failed_prompts :
  (forall p rest (st st1 : State (World := World)) e,
     requestDecision client config p st = (Thrown e, st1) ->
     requestMultipleDecisions client config (p :: rest) st
     = requestMultipleDecisions client config rest st1)
  /\ (forall p rest (st st1 : State (World := World)) r,
        requestDecision client config p st = (Returned r, st1) ->
        requestMultipleDecisions client config (p :: rest) st
        = (r :: fst (requestMultipleDecisions client config rest
                       (paused client st1)),
           snd (requestMultipleDecisions client config rest
                  (paused client st1))))
  /\ (forall prompts (st : State (World := World)),
        exists new,
          posted (snd (requestMultipleDecisions client config prompts st))
          = (posted st ++ new)%list
          /\ subsequence new (map cleanPrompt prompts)
          /\ List.length (fst (requestMultipleDecisions client config prompts st))
             <= List.length new
          /\ Forall (fun r => provider r = CLAUDE)
               (fst (requestMultipleDecisions client config prompts st))
          /\ ((0 <= requestCount (counters st))%Z ->
              (inject_Z (requestCount (counters st)
                         + Z.of_nat (List.length prompts))
               <= limit config)%Q ->
              new = map cleanPrompt prompts)).
Proof.
  split; [| split].
  - intros p rest st st1 e E. cbn [requestMultipleDecisions]. rewrite E.
    reflexivity.
  - intros p rest st st1 r E. cbn [requestMultipleDecisions]. rewrite E.
    unfold paused.
    destruct (requestMultipleDecisions client config rest _) as [rs st3].
    reflexivity.
  - intros prompts st.
    destruct (requestMultipleDecisions_inv prompts st)
      as (new & H1 & H2 & H3 & H4 & _).
    exists new. split; [exact H1 |]. split; [exact H2 |]. split; [exact H3 |].
    split; [exact H4 |]. intros H0 Hl.
    pose proof (requestMultipleDecisions_all_posted prompts st H0 Hl) as Hall.
    rewrite H1 in Hall. apply app_inv_head in Hall. exact Hall.
Qed.

End Props.

(** ** The small world *)

Lemma refused_request_posts_nothing_witness :
  exists r st',
    requestDecision demoClient two "  buy   or hold?  " fresh = (Returned r, st')
    /\ posted st' = ["buy or hold?"]
    /\ requestCount (counters st') = 1%Z.
Proof.
  destruct (requestDecision demoClient two "  buy   or hold?  " fresh)
    as [o st'] eqn:E.
  destruct (refused_request_posts_nothing demoClient two _ _ _ _ E)
    as [(Ho & _) | (Hp & Hn & _)].
  - vm_compute in E. injection E as <- _. discriminate Ho.
  - assert (Hr : exists r, o = Returned r).
    { vm_compute in E. injection E as <- _. eexists. reflexivity. }
    destruct Hr as (r & ->). exists r, st'. split; [reflexivity |].
    split; [rewrite Hp; vm_compute; reflexivity |].
    destruct Hn as [Hn | Hn]; rewrite Hn; reflexivity.
Defined.

Lemma request_count_stays_within_limit_witness :
  withinLimit two
    (snd (requestMultipleDecisions demoClient two ["a"; "b"; "c"] fresh)).
Proof.
  apply (request_count_stays_within_limit demoClient two "a" ["a"; "b"; "c"] fresh).
  split; [cbn; lia | left; reflexivity].
Defined.

(** The first post fails, the second is answered: both prompts are posted
    and the batch gives the one response. *)
Lemma batch_passes_over_failed_prompts_witness :
  posted (snd (requestMultipleDecisions demoClient two ["a"; "b"] flaky))
  = ["a"; "b"]
  /\ List.length (fst (requestMultipleDecisions demoClient two ["a"; "b"] flaky))
     = 1.
Proof.
  destruct (batch_passes_over_failed_prompts demoClient two) as (_ & _ & H).
  destruct (H ["a"; "b"] flaky) as (new & Hp & _ & _ & _ & Hall).
  split.
  - rewrite Hp, Hall; [reflexivity | cbn; lia | vm_compute; discriminate].
  - vm_compute. reflexivity.
Defined.

End ProviderProps.

(* ===================================================================== *)
(** * Properties of the vote among providers *)
(* ===================================================================== *)

Module ConsensusProps.
Import Js Consensus.

Lemma countOf_le a l : countOf a l <= List.length l.
Proof. unfold countOf. apply filter_length_le. Qed.

Lemma list_max_le_all l n : (forall x, In x l -> x <= n) -> list_max l <= n.
Proof.
  intros H. unfold list_max. induction l as [| x r IH]; [cbn; lia |].
  cbn [fold_right]. apply Nat.max_lub.
  - apply H. left. reflexivity.
  - apply IH. intros y Hy. apply H. right. exact Hy.
Qed.

Lemma list_max_ge_in l x : In x l -> x <= list_max l.
Proof.
  unfold list_max. induction l as [| y r IH]; [intros [] |].
  intros [-> | H]; cbn [fold_right]; [apply Nat.le_max_l |].
  specialize (IH H). lia.
Qed.

Lemma list_max_attained l : l <> [] -> In (list_max l) l.
Proof.
  unfold list_max. induction l as [| x r IH]; [congruence |]. intros _.
  cbn [fold_right]. destruct r as [| y t].
  - left. cbn. lia.
  - destruct (Nat.max_spec x (fold_right Nat.max 0 (y :: t))) as [[_ E] | [_ E]].
    + right. rewrite E. apply IH. discriminate.
    + left. rewrite E. reflexivity.
Qed.

Lemma maxCount_le l : maxCount l <= List.length l.
Proof.
  unfold maxCount. apply list_max_le_all. intros x Hx.
  apply in_map_iff in Hx. destruct Hx as (a & <- & _). apply countOf_le.
Qed.

Lemma countOf_head a l : 1 <= countOf a (a :: l).
Proof. unfold countOf. cbn [filter]. rewrite String.eqb_refl. cbn. lia. Qed.

Lemma maxCount_pos l : l <> [] -> 1 <= maxCount l.
Proof.
  destruct l as [| a r]; [congruence |]. intros _.
  unfold maxCount. cbn [map].
  etransitivity; [apply (countOf_head a r) |].
  apply list_max_ge_in. left. reflexivity.
Qed.

Lemma filter_all {A : Type} (f : A -> bool) l :
  List.length (filter f l) = List.length l -> forall x, In x l -> f x = true.
Proof.
  induction l as [| y r IH]; [intros _ x [] |].
  cbn [filter]. destruct (f y) eqn:Ey; cbn [List.length]; intros H x [<- | Hx].
  - exact Ey.
  - apply IH; [lia | exact Hx].
  - pose proof (filter_length_le f r). lia.
  - pose proof (filter_length_le f r). lia.
Qed.

Lemma filter_all_length {A : Type} (f : A -> bool) l :
  (forall x, In x l -> f x = true) -> List.length (filter f l) = List.length l.
Proof.
  induction l as [| y r IH]; [reflexivity |]. intros H.
  cbn [filter]. rewrite (H y (or_introl eq_refl)). cbn [List.length].
  rewrite IH; [reflexivity |]. intros x Hx. apply H. right. exact Hx.
Qed.

Lemma maxCount_full l :
  l <> [] ->
  (maxCount l = List.length l <-> exists a, forall x, In x l -> x = a).
Proof.
  intros Hne. split.
  - intros H. unfold maxCount in H.
    assert (Hin : In (list_max (map (fun a => countOf a l) l))
                     (map (fun a => countOf a l) l)).
    { apply list_max_attained. destruct l; [congruence | discriminate]. }
    rewrite H in Hin. apply in_map_iff in Hin. destruct Hin as (a & Ha & _).
    exists a. intros x Hx. unfold countOf in Ha.
    pose proof (filter_all _ _ Ha x Hx) as E. apply String.eqb_eq in E.
    symmetry. exact E.
  - intros (a & Ha). apply Nat.le_antisymm; [apply maxCount_le |].
    destruct l as [| b r]; [congruence |].
    assert (Hb : b = a) by (apply Ha; left; reflexivity).
    unfold maxCount. etransitivity; [| apply list_max_ge_in; left; reflexivity].
    unfold countOf. rewrite filter_all_length; [lia |].
    intros x Hx. apply String.eqb_eq. rewrite Hb. symmetry. apply Ha. exact Hx.
Qed.

Lemma inject_nat_pos n : 1 <= n -> (0 < inject_Z (Z.of_nat n))%Q.
Proof.
  intros H. change 0%Q with (inject_Z 0). rewrite <- Zlt_Qlt. lia.
Qed.

(** X27.  The agreement among the decisions is a share: above 0 and at
    most 1.  It is 1 exactly when there are fewer than two decisions or the
    actions read from all of them are the same. *)
Theorem agreement_is_a_share (l : list Decision) :
  (0 < calculateAgreement l)%Q
  /\ (calculateAgreement l <= 1)%Q
  /\ ((calculateAgreement l == 1)%Q
      <-> (List.length l < 2
           \/ exists a, forall d, In d l -> extractAction (decision d) = a)).
Proof.
  unfold calculateAgreement.
  destruct (List.length l <? 2)%nat eqn:En.
  - apply Nat.ltb_lt in En. split; [reflexivity |]. split; [apply Qle_refl |].
    split; [intros _; left; exact En | intros _; reflexivity].
  - apply Nat.ltb_ge in En.
    set (actions := map (fun d => extractAction (decision d)) l).
    assert (Hlen : List.length actions = List.length l)
      by (unfold actions; apply length_map).
    assert (Hne : actions <> []).
    { intros E. rewrite E in Hlen. cbn in Hlen. lia. }
    pose proof (maxCount_le actions) as Hle.
    pose proof (maxCount_pos actions Hne) as Hpos.
    assert (Hn : (0 < inject_Z (Z.of_nat (List.length l)))%Q)
      by (apply inject_nat_pos; lia).
    split; [| split].
    + apply Qlt_shift_div_l; [exact Hn |]. rewrite Qmult_0_l.
      apply inject_nat_pos. exact Hpos.
    + apply Qle_shift_div_r; [exact Hn |]. rewrite Qmult_1_l.
      rewrite <- Zle_Qle. lia.
    + assert (Heq : (inject_Z (Z.of_nat (maxCount actions))
                     / inject_Z (Z.of_nat (List.length l)) == 1)%Q
                    <-> maxCount actions = List.length actions).
      { split.
        - intros H.
          assert (H2 : (inject_Z (Z.of_nat (maxCount actions))
                        == inject_Z (Z.of_nat (List.length l)))%Q).
          { rewrite <- (Qmult_div_r (inject_Z (Z.of_nat (maxCount actions)))
                          (inject_Z (Z.of_nat (List.length l))))
              by (intros E; rewrite E in Hn; discriminate Hn).
            rewrite H. apply Qmult_1_r. }
          pose proof (proj1 (inject_Z_injective _ _) H2) as H3. lia.
        - intros H. rewrite H, Hlen. apply Qmult_inv_r.
          intros E. rewrite E in Hn. discriminate Hn. }
      rewrite Heq, (maxCount_full actions Hne). split.
      * intros (a & Ha). right. exists a. intros d Hd. apply Ha.
        unfold actions. apply in_map_iff. exists d. split; [reflexivity | exact Hd].
      * intros [Hlt | (a & Ha)]; [lia |]. exists a. intros x Hx.
        unfold actions in Hx. apply in_map_iff in Hx.
        destruct Hx as (d & <- & Hd). apply Ha. exact Hd.
Qed.

Lemma higher_cases prev current :
  (higher prev current = prev /\ (confidence current < confidence prev)%Z)
  \/ (higher prev current = current /\ (confidence prev <= confidence current)%Z).
Proof.
  unfold higher. destruct (confidence current <? confidence prev)%Z eqn:E.
  - left. split; [reflexivity |]. apply Z.ltb_lt. exact E.
  - right. split; [reflexivity |]. apply Z.ltb_ge. exact E.
Qed.

Lemma fold_higher rest first :
  In (fold_left higher rest first) (first :: rest)
  /\ forall d, In d (first :: rest) ->
       (confidence d <= confidence (fold_left higher rest first))%Z.
Proof.
  revert first. induction rest as [| c r IH]; intros first.
  - cbn. split; [left; reflexivity |]. intros d [<- | []]. lia.
  - cbn [fold_left]. destruct (IH (higher first c)) as [Hin Hmax].
    destruct (higher_cases first c) as [[E Hlt] | [E Hle]]; rewrite E in *.
    + split.
      * destruct Hin as [<- | Hin]; [left; reflexivity | right; right; exact Hin].
      * intros d [<- | [<- | Hd]].
        -- apply Hmax. left. reflexivity.
        -- specialize (Hmax first (or_introl eq_refl)). lia.
        -- apply Hmax. right. exact Hd.
    + split.
      * destruct Hin as [<- | Hin]; [right; left; reflexivity | right; right; exact Hin].
      * intros d [<- | [<- | Hd]].
        -- specialize (Hmax c (or_introl eq_refl)). lia.
        -- apply Hmax. left. reflexivity.
        -- apply Hmax. right. exact Hd.
Qed.

Section Props.

Context {World : Type}.
Variable providers : list (Voice (World := World)).

Lemma fulfilled_length l :
  List.length (fulfilled (World := World) l) <= List.length l.
Proof.
  induction l as [| [p [v | e]] r IH]; cbn [fulfilled List.length]; lia.
Qed.

Lemma settleAll_length l prompt (w : World) :
  List.length (fst (settleAll l prompt w)) = List.length l.
Proof.
  revert w. induction l as [| p r IH]; intros w; [reflexivity |].
  cbn [settleAll]. destruct (requestDecision p prompt w) as [o w1].
  specialize (IH w1). destruct (settleAll r prompt w1) as [more w2].
  cbn [fst List.length] in *. congruence.
Qed.

Lemma fulfilled_confidence l :
  Forall (fun d => confidence d = extractConfidence (decision d))
    (fulfilled (World := World) l).
Proof.
  induction l as [| [p [v | e]] r IH]; cbn [fulfilled];
    [constructor | constructor; [reflexivity | exact IH] | exact IH].
Qed.

Lemma settleAll_failed l prompt (w : World) :
  (forall p w0, In p l -> exists e w1, requestDecision p prompt w0 = (Service.Thrown e, w1)) ->
  fulfilled (fst (settleAll l prompt w)) = [].
Proof.
  revert w. induction l as [| p r IH]; intros w H; [reflexivity |].
  cbn [settleAll]. destruct (H p w (or_introl eq_refl)) as (e & w1 & E).
  rewrite E. specialize (IH w1 (fun q w0 Hq => H q w0 (or_intror Hq))).
  destruct (settleAll r prompt w1) as [more w2]. cbn [fst fulfilled] in *.
  exact IH.
Qed.

(** X25.  When no provider answers, and also when there is no provider, a
    vote with a threshold of at most 1 does not report a missing consensus:
    it throws the error of [reduce] on an empty array. *)
Theorem vote_without_answers_throws prompt threshold (w : World) :
  (threshold <= 1)%Q ->
  (forall p w0, In p providers ->
     exists e w1, requestDecision p prompt w0 = (Service.Thrown e, w1)) ->
  fst (getConsensusDecision providers prompt threshold w)
  = Service.Thrown REDUCE_EMPTY.
Proof.
  intros Ht Hfail. unfold getConsensusDecision.
  pose proof (settleAll_failed providers prompt w Hfail) as Hf.
  destruct (settleAll providers prompt w) as [responses w'].
  cbn [fst] in Hf. rewrite Hf.
  change (calculateAgreement []) with 1%Q.
  apply Qle_bool_iff in Ht. rewrite Ht. reflexivity.
Qed.

(** X26.  When a vote returns, there is a final decision exactly when it
    reports consensus, and the final decision is the text of an entry
    whose confidence no other entry exceeds.  The entries are at most one
    for each provider, and the confidence of an entry is the one read from
    its text. *)
Theorem final_decision_has_highest_confidence prompt threshold (w w' : World) v :
  getConsensusDecision providers prompt threshold w = (Service.Returned v, w') ->
  (consensus v = true <-> finalDecision v <> None)
  /\ (forall d, finalDecision v = Some d ->
        exists e, In e (decisions v)
                  /\ decision e = d
                  /\ forall e', In e' (decisions v) ->
                       (confidence e' <= confidence e)%Z)
  /\ List.length (decisions v) <= List.length providers
  /\ Forall (fun d => confidence d = extractConfidence (decision d)) (decisions v).
Proof.
  unfold getConsensusDecision.
  pose proof (settleAll_length providers prompt w) as Hlen.
  destruct (settleAll providers prompt w) as [responses w1]. cbn [fst] in Hlen.
  pose proof (fulfilled_length responses) as Hful.
  pose proof (fulfilled_confidence responses) as Hconf.
  destruct (Qle_bool threshold (calculateAgreement (fulfilled responses))).
  - destruct (fulfilled responses) as [| first rest] eqn:E;
      cbn [getFinalDecision]; [discriminate |].
    intros H. injection H as <- <-. cbn [consensus finalDecision decisions].
    split; [split; [discriminate | reflexivity] |]. split.
    + intros d Hd. injection Hd as <-.
      destruct (fold_higher rest first) as [Hin Hmax].
      exists (fold_left higher rest first). split; [exact Hin |].
      split; [reflexivity | exact Hmax].
    + split; [lia | exact Hconf].
  - intros H. injection H as <- <-. cbn [consensus finalDecision decisions].
    split; [split; [discriminate | congruence] |].
    split; [discriminate |]. split; [lia | exact Hconf].
Qed.

End Props.

(** ** Small votes *)

Lemma vote_without_answers_throws_witness :
  fst (getConsensusDecision [down; down] "prompt" DEFAULT_THRESHOLD tt)
  = Service.Thrown REDUCE_EMPTY.
Proof.
  apply (vote_without_answers_throws [down; down] "prompt" DEFAULT_THRESHOLD tt).
  - vm_compute. discriminate.
  - intros p w0 [<- | [<- | []]]; exists "Unknown error: down", w0; reflexivity.
Defined.

Lemma final_decision_has_highest_confidence_witness :
  exists v,
    getConsensusDecision
      [answering "Action: BUY Confidence: 70"; down;
       answering "action: buy confidence: 90"]
      "prompt" DEFAULT_THRESHOLD tt = (Service.Returned v, tt)
    /\ finalDecision v = Some "action: buy confidence: 90"
    /\ List.length (decisions v) <= 3.
Proof.
  eexists. split; [vm_compute; reflexivity |]. split; [reflexivity |].
  refine (proj1 (proj2 (proj2
    (final_decision_has_highest_confidence
       [answering "Action: BUY Confidence: 70"; down;
        answering "action: buy confidence: 90"]
       "prompt" DEFAULT_THRESHOLD tt tt _ _)))).
  vm_compute. reflexivity.
Defined.

End ConsensusProps.

(* ===================================================================== *)
(** * Properties of the configuration from the command line *)
(* ===================================================================== *)

Module CliProps.
Import Js Service Cli.

Lemma split_length s : List.length (split "," s) = S (commas s).
Proof.
  induction s as [| c r IH]; [reflexivity |].
  cbn [split commas]. destruct (Ascii.eqb c ",").
  - cbn [List.length]. rewrite IH. reflexivity.
  - destruct (split "," r) as [| h t]; cbn [List.length] in *; [discriminate IH |].
    rewrite IH. reflexivity.
Qed.

Lemma isWhite_upcase c : isWhite (upcase c) = isWhite c.
Proof. destruct c as [[] [] [] [] [] [] [] []]; reflexivity. Qed.

Lemma firstChar_toUpperCase s :
  DecoderMore.firstChar (toUpperCase s)
  = option_map upcase (DecoderMore.firstChar s).
Proof. destruct s; reflexivity. Qed.

Lemma lastChar_toUpperCase s :
  DecoderMore.lastChar (toUpperCase s)
  = option_map upcase (DecoderMore.lastChar s).
Proof.
  induction s as [| c r IH]; [reflexivity |].
  unfold toUpperCase in *. cbn [smap DecoderMore.lastChar].
  destruct r as [| d t]; [reflexivity |]. exact IH.
Qed.

(** X28.  The pairs read from the command line are never an empty list:
    there is one more pair than there are commas in the option, so the
    validation of the configuration never throws for a missing pair, even
    for an empty option.  Every pair has no lower-case letter and neither
    begins nor ends with white space. *)
Theorem pairs_of_command_line_are_never_empty pairs providerName connected config :
  tradingPairs config = parsePairs pairs ->
  List.length (tradingPairs config) = S (commas pairs)
  /\ validateConfiguration providerName connected config <> Thrown NO_PAIR
  /\ Forall (fun p =>
               DecoderMore.allChars (fun c => negb (isLower c)) p = true
               /\ (forall c, DecoderMore.firstChar p = Some c -> isWhite c = false)
               /\ (forall c, DecoderMore.lastChar p = Some c -> isWhite c = false))
       (tradingPairs config).
Proof.
  intros Hp.
  assert (Hlen : List.length (tradingPairs config) = S (commas pairs)).
  { rewrite Hp. unfold parsePairs. rewrite length_map. apply split_length. }
  split; [exact Hlen |]. split.
  - unfold validateConfiguration. rewrite Hlen. cbn [Nat.eqb].
    destruct connected as [[] |];
      repeat match goal with
             | |- context [if ?b then _ else _] => destruct b
             end; discriminate.
  - rewrite Hp. unfold parsePairs. apply Forall_forall. intros p Hin.
    apply in_map_iff in Hin. destruct Hin as (q & <- & _).
    split; [apply DecoderMoreProps.allChars_toUpperCase |]. split.
    + intros c Hc. rewrite firstChar_toUpperCase in Hc.
      destruct (DecoderMore.firstChar (trim q)) as [d |] eqn:Ed; [| discriminate].
      injection Hc as <-. rewrite isWhite_upcase.
      exact (DecoderMoreProps.firstChar_trim _ _ Ed).
    + intros c Hc. rewrite lastChar_toUpperCase in Hc.
      destruct (DecoderMore.lastChar (trim q)) as [d |] eqn:Ed; [| discriminate].
      injection Hc as <-. rewrite isWhite_upcase.
      exact (DecoderMoreProps.lastChar_trimEnd _ _ Ed).
Qed.

Lemma pairs_of_command_line_are_never_empty_witness :
  List.length (tradingPairs (withPairs " btcusdt,ethusdt ")) = 2
  /\ validateConfiguration "Demo" None (withPairs " btcusdt,ethusdt ")
     <> Thrown NO_PAIR.
Proof.
  destruct (pairs_of_command_line_are_never_empty " btcusdt,ethusdt " "Demo" None
              (withPairs " btcusdt,ethusdt ") eq_refl) as (H1 & H2 & _).
  split; [exact H1 | exact H2].
Defined.

End CliProps.
